(** * Z80 register-and-flag emulator (host side of [cuda/z80_common.h])

    A shallow embedding of the host executor: the flag tables and their
    builder, the operand decode tables, the 8-bit ALU, the CB rotate/shift
    and bit operations, the 16-bit and miscellaneous operations, the opcode
    dispatcher, the sequence executor and the fingerprint.

    Conventions.
    - [uint8_t], [uint16_t] and 32-bit unsigned values are integers of [Z];
      every conversion to a narrower type is written out with [u8], [u16]
      or [u32].
    - A C array is a list; reading [arr[i]] is [idx arr i], which is [None]
      outside the bounds of the array, so every function that indexes an
      array lives in the option monad.
    - The [Z80State &s] that the C++ functions mutate is passed in and
      returned. *)

From stdpp Require Import base option list.
From Stdlib Require Import ZArith Lia Bool.

Local Open Scope Z_scope.

(** ** Fixed-width integers *)

Definition u8 (x : Z) : Z := x mod 256.
Definition u16 (x : Z) : Z := x mod 65536.
Definition u32 (x : Z) : Z := x mod 4294967296.

(** Conversion of an integer to [bool]: true iff non-zero. *)
Definition nz (x : Z) : bool := negb (x =? 0).

(** ** Arrays *)

(** [arr[i]] as an rvalue. *)
Definition idx {A : Type} (arr : list A) (i : Z) : option A :=
  if 0 <=? i then arr !! Z.to_nat i else None.

(** [arr[i] = v] for an array of [uint8_t]: the stored value is truncated. *)
Definition arr_set (arr : list Z) (i : Z) (v : Z) : option (list Z) :=
  if (0 <=? i) && (i <? Z.of_nat (length arr))
  then Some (<[Z.to_nat i := u8 v]> arr)
  else None.

(** [for (i = lo; i < lo + n; i++) body], threading the state [st]. *)
Fixpoint for_loop {St : Type} (n : nat) (i : Z)
    (body : Z -> St -> option St) (st : St) : option St :=
  match n with
  | O => Some st
  | S n' => st' ← body i st; for_loop n' (i + 1) body st'
  end.

(** ** Flag bits *)

Definition FLAG_C : Z := 0x01.
Definition FLAG_N : Z := 0x02.
Definition FLAG_P : Z := 0x04.
Definition FLAG_V : Z := 0x04.
Definition FLAG_3 : Z := 0x08.
Definition FLAG_H : Z := 0x10.
Definition FLAG_5 : Z := 0x20.
Definition FLAG_Z : Z := 0x40.
Definition FLAG_S : Z := 0x80.

(** ** CPU state *)

Record Z80State : Type := mkState {
  r : list Z;   (* uint8_t r[8]: A=0, F=1, B=2, C=3, D=4, E=5, H=6, L=7 *)
  sp : Z        (* uint16_t sp *)
}.

Definition REG_A : Z := 0.
Definition REG_F : Z := 1.
Definition REG_B : Z := 2.
Definition REG_C : Z := 3.
Definition REG_D : Z := 4.
Definition REG_E : Z := 5.
Definition REG_H : Z := 6.
Definition REG_L : Z := 7.

(** [s.r[i]] as an rvalue. *)
Definition rd (s : Z80State) (i : Z) : option Z := idx (r s) i.

(** [s.r[i] = v]; the value is converted to [uint8_t] by the store. *)
Definition wr (s : Z80State) (i : Z) (v : Z) : option Z80State :=
  r' ← arr_set (r s) i v; Some (mkState r' (sp s)).

(** [s.sp = v]; the value is converted to [uint16_t] by the store. *)
Definition wr_sp (s : Z80State) (v : Z) : Z80State := mkState (r s) (u16 v).

(** ** Opcode range constants *)

Definition OP_LD_RR_START : Z := 0.
Definition OP_LD_RN_START : Z := 49.
Definition OP_ALU_START : Z := 56.
Definition OP_INC_START : Z := 120.
Definition OP_DEC_START : Z := 127.
Definition OP_RLCA : Z := 134.
Definition OP_RRCA : Z := 135.
Definition OP_RLA : Z := 136.
Definition OP_RRA : Z := 137.
Definition OP_DAA : Z := 138.
Definition OP_CPL : Z := 139.
Definition OP_SCF : Z := 140.
Definition OP_CCF : Z := 141.
Definition OP_NEG : Z := 142.
Definition OP_NOP : Z := 143.
Definition OP_CB_START : Z := 144.
Definition OP_SLL_A : Z := 193.
Definition OP_SLL_B_START : Z := 194.
Definition OP_BIT_START : Z := 200.
Definition OP_RES_START : Z := 256.
Definition OP_SET_START : Z := 312.
Definition OP_16INC_START : Z := 368.
Definition OP_ADD_HL_START : Z := 376.
Definition OP_EX_DE_HL : Z := 380.
Definition OP_LD_SP_HL : Z := 381.
Definition OP_LD_RR_NN_START : Z := 382.
Definition OP_ADC_HL_START : Z := 386.
Definition OP_SBC_HL_START : Z := 390.
Definition OP_COUNT : Z := 394.

(** ** Fingerprint constants *)

Definition FP_SIZE : Z := 10.
Definition NUM_VECTORS : Z := 8.
Definition FP_LEN : Z := FP_SIZE * NUM_VECTORS.

(** ** Test vectors *)

Definition h_test_vectors : list Z80State := [
  mkState [0x00; 0x00; 0x00; 0x00; 0x00; 0x00; 0x00; 0x00] 0x0000;
  mkState [0xFF; 0xFF; 0xFF; 0xFF; 0xFF; 0xFF; 0xFF; 0xFF] 0xFFFF;
  mkState [0x01; 0x00; 0x02; 0x03; 0x04; 0x05; 0x06; 0x07] 0x1234;
  mkState [0x80; 0x01; 0x40; 0x20; 0x10; 0x08; 0x04; 0x02] 0x8000;
  mkState [0x55; 0x00; 0xAA; 0x55; 0xAA; 0x55; 0xAA; 0x55] 0x5555;
  mkState [0xAA; 0x01; 0x55; 0xAA; 0x55; 0xAA; 0x55; 0xAA] 0xAAAA;
  mkState [0x0F; 0x00; 0xF0; 0x0F; 0xF0; 0x0F; 0xF0; 0x0F] 0xFFFE;
  mkState [0x7F; 0x01; 0x80; 0x7F; 0x80; 0x7F; 0x80; 0x7F] 0x7FFF
].

(** ** Flag tables *)

(** The three tables filled by [init_tables]; they are global arrays in the
    source and are passed to every function that reads them. *)
Record Tables : Type := mkTables {
  h_sz53 : list Z;
  h_sz53p : list Z;
  h_parity : list Z
}.

(** Static storage is zero-initialised. *)
Definition zero_tables : Tables :=
  mkTables (replicate 256 0) (replicate 256 0) (replicate 256 0).

Definition h_halfcarry_add : list Z := [0; FLAG_H; FLAG_H; FLAG_H; 0; 0; 0; FLAG_H].
Definition h_halfcarry_sub : list Z := [0; 0; FLAG_H; 0; FLAG_H; 0; FLAG_H; FLAG_H].
Definition h_overflow_add : list Z := [0; 0; 0; FLAG_V; FLAG_V; 0; 0; 0].
Definition h_overflow_sub : list Z := [0; FLAG_V; 0; 0; 0; 0; FLAG_V; 0].

(** The inner loop of [init_tables]:
    [for (k = 0; k < 8; k++) { p ^= j & 1; j >>= 1; }] on the pair [(j, p)]. *)
Definition parity_step (_ : Z) (jp : Z * Z) : option (Z * Z) :=
  let '(j, p) := jp in
  Some (u8 (Z.shiftr j 1), u8 (Z.lxor p (Z.land j 1))).

(** One iteration of the outer loop of [init_tables]. *)
Definition init_tables_body (i : Z) (T : Tables) : option Tables :=
  sz ← arr_set (h_sz53 T) i (Z.land (u8 i) (Z.lor (Z.lor FLAG_3 FLAG_5) FLAG_S));
  let T := mkTables sz (h_sz53p T) (h_parity T) in
  let j := u8 i in
  let p := 0 in
  '(j, p) ← for_loop 8 0 parity_step (j, p);
  pa ← arr_set (h_parity T) i (if p =? 0 then FLAG_P else 0);
  let T := mkTables (h_sz53 T) (h_sz53p T) pa in
  a ← idx (h_sz53 T) i;
  b ← idx (h_parity T) i;
  szp ← arr_set (h_sz53p T) i (Z.lor a b);
  Some (mkTables (h_sz53 T) szp (h_parity T)).

Definition init_tables (T : Tables) : option Tables :=
  T ← for_loop 256 0 init_tables_body T;
  a ← idx (h_sz53 T) 0;
  sz ← arr_set (h_sz53 T) 0 (Z.lor a FLAG_Z);
  let T := mkTables sz (h_sz53p T) (h_parity T) in
  b ← idx (h_sz53p T) 0;
  szp ← arr_set (h_sz53p T) 0 (Z.lor b FLAG_Z);
  Some (mkTables (h_sz53 T) szp (h_parity T)).

(** ** Register mapping tables *)

Definition LD_FULL_SRC_H : list Z := [
  REG_B; REG_C; REG_D; REG_E; REG_H; REG_L; REG_A;
  REG_A; REG_B; REG_C; REG_D; REG_E; REG_H; REG_L;
  REG_A; REG_B; REG_C; REG_D; REG_E; REG_H; REG_L;
  REG_A; REG_B; REG_C; REG_D; REG_E; REG_H; REG_L;
  REG_A; REG_B; REG_C; REG_D; REG_E; REG_H; REG_L;
  REG_A; REG_B; REG_C; REG_D; REG_E; REG_H; REG_L;
  REG_A; REG_B; REG_C; REG_D; REG_E; REG_H; REG_L
].
Definition LD_DST_H : list Z := [REG_A; REG_B; REG_C; REG_D; REG_E; REG_H; REG_L].
Definition ALU_SRC_H : list Z := [REG_B; REG_C; REG_D; REG_E; REG_H; REG_L; REG_A].
Definition CB_REG_H : list Z := [REG_A; REG_B; REG_C; REG_D; REG_E; REG_H; REG_L].
Definition IMM_REG_H : list Z := [REG_A; REG_B; REG_C; REG_D; REG_E; REG_H; REG_L].
Definition INCDEC_REG_H : list Z := [REG_A; REG_B; REG_C; REG_D; REG_E; REG_H; REG_L].

(** ** C operators *)

Infix ".&" := Z.land (at level 40, left associativity) : Z_scope.
Infix ".|" := Z.lor (at level 50, left associativity) : Z_scope.
Infix ".^" := Z.lxor (at level 50, left associativity) : Z_scope.
Infix ">>" := Z.shiftr (at level 34, left associativity) : Z_scope.
Infix "<<" := Z.shiftl (at level 34, left associativity) : Z_scope.

(** [bsel_h(cond, a, b)]; both values are passed as [uint8_t]. *)
Definition bsel_h (cond : bool) (a b : Z) : Z := if cond then u8 a else u8 b.

(** ** 8-bit ALU *)

Section Engines.

Variable T : Tables.

Definition h_alu_add (s : Z80State) (val : Z) : option Z80State :=
  a ← rd s REG_A;
  let r := u16 (a + val) in
  let lookup := u8 (((a .& 0x88) >> 3) .| ((val .& 0x88) >> 2) .| u8 ((r .& 0x88) >> 1)) in
  s ← wr s REG_A r;
  hc ← idx h_halfcarry_add (lookup .& 0x07);
  ov ← idx h_overflow_add (lookup >> 4);
  a' ← rd s REG_A;
  sz ← idx (h_sz53 T) a';
  wr s REG_F (bsel_h (nz (r .& 0x100)) FLAG_C 0 .| hc .| ov .| sz).

Definition h_alu_adc (s : Z80State) (val : Z) : option Z80State :=
  a ← rd s REG_A;
  f ← rd s REG_F;
  let r := u16 (a + val + (f .& FLAG_C)) in
  let lookup := u8 (((a .& 0x88) >> 3) .| ((val .& 0x88) >> 2) .| ((r .& 0x88) >> 1)) in
  s ← wr s REG_A r;
  hc ← idx h_halfcarry_add (lookup .& 0x07);
  ov ← idx h_overflow_add (lookup >> 4);
  a' ← rd s REG_A;
  sz ← idx (h_sz53 T) a';
  wr s REG_F (bsel_h (nz (r .& 0x100)) FLAG_C 0 .| hc .| ov .| sz).

Definition h_alu_sub (s : Z80State) (val : Z) : option Z80State :=
  a ← rd s REG_A;
  let r := u16 (a - val) in
  let lookup := u8 (((a .& 0x88) >> 3) .| ((val .& 0x88) >> 2) .| u8 ((r .& 0x88) >> 1)) in
  s ← wr s REG_A r;
  hc ← idx h_halfcarry_sub (lookup .& 0x07);
  ov ← idx h_overflow_sub (lookup >> 4);
  a' ← rd s REG_A;
  sz ← idx (h_sz53 T) a';
  wr s REG_F (bsel_h (nz (r .& 0x100)) FLAG_C 0 .| FLAG_N .| hc .| ov .| sz).

Definition h_alu_sbc (s : Z80State) (val : Z) : option Z80State :=
  a ← rd s REG_A;
  f ← rd s REG_F;
  let r := u16 (a - val - (f .& FLAG_C)) in
  let lookup := u8 (((a .& 0x88) >> 3) .| ((val .& 0x88) >> 2) .| u8 ((r .& 0x88) >> 1)) in
  s ← wr s REG_A r;
  hc ← idx h_halfcarry_sub (lookup .& 0x07);
  ov ← idx h_overflow_sub (lookup >> 4);
  a' ← rd s REG_A;
  sz ← idx (h_sz53 T) a';
  wr s REG_F (bsel_h (nz (r .& 0x100)) FLAG_C 0 .| FLAG_N .| hc .| ov .| sz).

Definition h_alu_and (s : Z80State) (val : Z) : option Z80State :=
  a ← rd s REG_A;
  s ← wr s REG_A (a .& val);
  a' ← rd s REG_A;
  szp ← idx (h_sz53p T) a';
  wr s REG_F (FLAG_H .| szp).

Definition h_alu_xor (s : Z80State) (val : Z) : option Z80State :=
  a ← rd s REG_A;
  s ← wr s REG_A (a .^ val);
  a' ← rd s REG_A;
  szp ← idx (h_sz53p T) a';
  wr s REG_F szp.

Definition h_alu_or (s : Z80State) (val : Z) : option Z80State :=
  a ← rd s REG_A;
  s ← wr s REG_A (a .| val);
  a' ← rd s REG_A;
  szp ← idx (h_sz53p T) a';
  wr s REG_F szp.

Definition h_alu_cp (s : Z80State) (val : Z) : option Z80State :=
  a ← rd s REG_A;
  let r := u16 (a - val) in
  let lookup := u8 (((a .& 0x88) >> 3) .| ((val .& 0x88) >> 2) .| u8 ((r .& 0x88) >> 1)) in
  hc ← idx h_halfcarry_sub (lookup .& 0x07);
  ov ← idx h_overflow_sub (lookup >> 4);
  wr s REG_F (bsel_h (nz (r .& 0x100)) FLAG_C (bsel_h (negb (r =? 0)) 0 FLAG_Z) .| FLAG_N .|
              hc .| ov .| (val .& (FLAG_3 .| FLAG_5)) .| u8 (r .& FLAG_S)).

Definition h_alu_inc (s : Z80State) (reg : Z) : option Z80State :=
  x ← rd s reg;
  s ← wr s reg (x + 1);
  f ← rd s REG_F;
  x ← rd s reg;
  sz ← idx (h_sz53 T) x;
  wr s REG_F ((f .& FLAG_C) .| bsel_h (x =? 0x80) FLAG_V 0 .|
              bsel_h (negb ((x .& 0x0F) =? 0)) 0 FLAG_H .| sz).

Definition h_alu_dec (s : Z80State) (reg : Z) : option Z80State :=
  f ← rd s REG_F;
  x ← rd s reg;
  s ← wr s REG_F ((f .& FLAG_C) .| bsel_h (negb ((x .& 0x0F) =? 0)) 0 FLAG_H .| FLAG_N);
  x ← rd s reg;
  s ← wr s reg (x - 1);
  f ← rd s REG_F;
  x ← rd s reg;
  sz ← idx (h_sz53 T) x;
  wr s REG_F (f .| (bsel_h (x =? 0x7F) FLAG_V 0 .| sz)).

(** ** CB-prefixed rotates and shifts

    Each takes the value [v], updates the flags in [s] and returns the new
    value together with the state. *)

Definition h_cb_rlc (s : Z80State) (v : Z) : option (Z80State * Z) :=
  let v := u8 ((v << 1) .| (v >> 7)) in
  szp ← idx (h_sz53p T) v;
  s ← wr s REG_F ((v .& FLAG_C) .| szp);
  Some (s, v).

Definition h_cb_rrc (s : Z80State) (v : Z) : option (Z80State * Z) :=
  s ← wr s REG_F (v .& FLAG_C);
  let v := u8 ((v >> 1) .| (v << 7)) in
  f ← rd s REG_F;
  szp ← idx (h_sz53p T) v;
  s ← wr s REG_F (f .| szp);
  Some (s, v).

Definition h_cb_rl (s : Z80State) (v : Z) : option (Z80State * Z) :=
  let o := v in
  f ← rd s REG_F;
  let v := u8 ((v << 1) .| (f .& FLAG_C)) in
  szp ← idx (h_sz53p T) v;
  s ← wr s REG_F ((o >> 7) .| szp);
  Some (s, v).

Definition h_cb_rr (s : Z80State) (v : Z) : option (Z80State * Z) :=
  let o := v in
  f ← rd s REG_F;
  let v := u8 ((v >> 1) .| (f << 7)) in
  szp ← idx (h_sz53p T) v;
  s ← wr s REG_F ((o .& FLAG_C) .| szp);
  Some (s, v).

Definition h_cb_sla (s : Z80State) (v : Z) : option (Z80State * Z) :=
  s ← wr s REG_F (v >> 7);
  let v := u8 (v << 1) in
  f ← rd s REG_F;
  szp ← idx (h_sz53p T) v;
  s ← wr s REG_F (f .| szp);
  Some (s, v).

Definition h_cb_sra (s : Z80State) (v : Z) : option (Z80State * Z) :=
  s ← wr s REG_F (v .& FLAG_C);
  let v := u8 ((v .& 0x80) .| (v >> 1)) in
  f ← rd s REG_F;
  szp ← idx (h_sz53p T) v;
  s ← wr s REG_F (f .| szp);
  Some (s, v).

Definition h_cb_srl (s : Z80State) (v : Z) : option (Z80State * Z) :=
  s ← wr s REG_F (v .& FLAG_C);
  let v := u8 (v >> 1) in
  f ← rd s REG_F;
  szp ← idx (h_sz53p T) v;
  s ← wr s REG_F (f .| szp);
  Some (s, v).

Definition h_cb_sll (s : Z80State) (v : Z) : option (Z80State * Z) :=
  s ← wr s REG_F (v >> 7);
  let v := u8 ((v << 1) .| 0x01) in
  f ← rd s REG_F;
  szp ← idx (h_sz53p T) v;
  s ← wr s REG_F (f .| szp);
  Some (s, v).

Definition h_exec_bit (s : Z80State) (val : Z) (bit : Z) : option Z80State :=
  f ← rd s REG_F;
  s ← wr s REG_F ((f .& FLAG_C) .| FLAG_H .| (val .& (FLAG_3 .| FLAG_5)));
  s ← (if (val .& (1 << bit)) =? 0
       then f ← rd s REG_F; wr s REG_F (f .| (FLAG_P .| FLAG_Z))
       else Some s);
  if (bit =? 7) && nz (val .& 0x80)
  then f ← rd s REG_F; wr s REG_F (f .| FLAG_S)
  else Some s.

(** ** 16-bit and miscellaneous operations *)

Definition h_exec_daa (s : Z80State) : option Z80State :=
  f ← rd s REG_F;
  a ← rd s REG_A;
  let add := 0 in
  let carry := u8 (f .& FLAG_C) in
  let add := if nz (f .& FLAG_H) || (9 <? (a .& 0x0F)) then 6 else add in
  let add := if nz carry || (0x99 <? a) then u8 (add .| 0x60) else add in
  let carry := if 0x99 <? a then u8 FLAG_C else carry in
  s ← (if nz (f .& FLAG_N) then h_alu_sub s add else h_alu_add s add);
  f ← rd s REG_F;
  a ← rd s REG_A;
  pa ← idx (h_parity T) a;
  wr s REG_F ((f .& u32 (Z.lnot (FLAG_C .| FLAG_P))) .| carry .| pa).

Definition h_exec_add_hl (s : Z80State) (val : Z) : option Z80State :=
  h ← rd s REG_H;
  l ← rd s REG_L;
  let hl := u16 ((h << 8) .| l) in
  let result := u32 (hl + val) in
  let hc := u16 ((hl .& 0x0FFF) + (val .& 0x0FFF)) in
  f ← rd s REG_F;
  s ← wr s REG_F ((f .& (FLAG_S .| FLAG_Z .| FLAG_P)) .|
                  bsel_h (nz (hc .& 0x1000)) FLAG_H 0 .|
                  bsel_h (nz (result .& 0x10000)) FLAG_C 0 .|
                  (u8 (result >> 8) .& (FLAG_3 .| FLAG_5)));
  s ← wr s REG_H (result >> 8);
  wr s REG_L result.

Definition h_exec_adc_hl (s : Z80State) (val : Z) : option Z80State :=
  h ← rd s REG_H;
  l ← rd s REG_L;
  let hl := u16 ((h << 8) .| l) in
  f ← rd s REG_F;
  let carry := u32 (f .& FLAG_C) in
  let result := u32 (hl + val + carry) in
  let lookup := u8 (((hl .& 0x8800) >> 11) .| ((val .& 0x8800) >> 10) .|
                    ((result .& 0x8800) >> 9)) in
  s ← wr s REG_H (result >> 8);
  s ← wr s REG_L result;
  ov ← idx h_overflow_add (lookup >> 4);
  h ← rd s REG_H;
  hc ← idx h_halfcarry_add (lookup .& 0x07);
  l ← rd s REG_L;
  wr s REG_F (bsel_h (nz (result .& 0x10000)) FLAG_C 0 .| ov .|
              (h .& (FLAG_3 .| FLAG_5 .| FLAG_S)) .| hc .|
              bsel_h (negb ((h .| l) =? 0)) 0 FLAG_Z).

Definition h_exec_sbc_hl (s : Z80State) (val : Z) : option Z80State :=
  h ← rd s REG_H;
  l ← rd s REG_L;
  let hl := u16 ((h << 8) .| l) in
  f ← rd s REG_F;
  let carry := u32 (f .& FLAG_C) in
  let result := u32 (hl - val - carry) in
  let lookup := u8 (((hl .& 0x8800) >> 11) .| ((val .& 0x8800) >> 10) .|
                    ((result .& 0x8800) >> 9)) in
  s ← wr s REG_H (result >> 8);
  s ← wr s REG_L result;
  ov ← idx h_overflow_sub (lookup >> 4);
  h ← rd s REG_H;
  hc ← idx h_halfcarry_sub (lookup .& 0x07);
  l ← rd s REG_L;
  wr s REG_F (bsel_h (nz (result .& 0x10000)) FLAG_C 0 .| FLAG_N .| ov .|
              (h .& (FLAG_3 .| FLAG_5 .| FLAG_S)) .| hc .|
              bsel_h (negb ((h .| l) =? 0)) 0 FLAG_Z).

Definition h_get_pair (s : Z80State) (pair : Z) : option Z :=
  match pair with
  | 0 => b ← rd s REG_B; c ← rd s REG_C; Some (u16 ((b << 8) .| c))
  | 1 => d ← rd s REG_D; e ← rd s REG_E; Some (u16 ((d << 8) .| e))
  | 2 => h ← rd s REG_H; l ← rd s REG_L; Some (u16 ((h << 8) .| l))
  | 3 => Some (sp s)
  | _ => Some 0
  end.

Definition h_set_pair (s : Z80State) (pair : Z) (val : Z) : option Z80State :=
  match pair with
  | 0 => s ← wr s REG_B (val >> 8); wr s REG_C val
  | 1 => s ← wr s REG_D (val >> 8); wr s REG_E val
  | 2 => s ← wr s REG_H (val >> 8); wr s REG_L val
  | 3 => Some (wr_sp s val)
  | _ => Some s
  end.

(** ** Opcode dispatcher *)

(** The branches of [h_exec_instruction], one per [if] of the source. *)
Inductive branch : Type :=
  | B_LD_RR | B_LD_RN | B_ALU | B_INC | B_DEC
  | B_RLCA | B_RRCA | B_RLA | B_RRA | B_DAA | B_CPL | B_SCF | B_CCF | B_NEG | B_NOP
  | B_CB | B_SLL_A | B_SLL_B | B_BIT | B_RES | B_SET
  | B_16INC | B_ADD_HL | B_EX_DE_HL | B_LD_SP_HL | B_LD_RR_NN | B_ADC_HL | B_SBC_HL.

(** The conditions of the [if] chain of [h_exec_instruction], tested in the
    order of the source; [None] when the opcode passes every test and the
    function reaches its end. *)
Definition classify (op : Z) : option branch :=
  if op <? 49 then Some B_LD_RR
  else if op <? 56 then Some B_LD_RN
  else if op <? 120 then Some B_ALU
  else if op <? 127 then Some B_INC
  else if op <? 134 then Some B_DEC
  else if op =? OP_RLCA then Some B_RLCA
  else if op =? OP_RRCA then Some B_RRCA
  else if op =? OP_RLA then Some B_RLA
  else if op =? OP_RRA then Some B_RRA
  else if op =? OP_DAA then Some B_DAA
  else if op =? OP_CPL then Some B_CPL
  else if op =? OP_SCF then Some B_SCF
  else if op =? OP_CCF then Some B_CCF
  else if op =? OP_NEG then Some B_NEG
  else if op =? OP_NOP then Some B_NOP
  else if (OP_CB_START <=? op) && (op <=? 192) then Some B_CB
  else if op =? OP_SLL_A then Some B_SLL_A
  else if (OP_SLL_B_START <=? op) && (op <? 200) then Some B_SLL_B
  else if (OP_BIT_START <=? op) && (op <? OP_RES_START) then Some B_BIT
  else if (OP_RES_START <=? op) && (op <? OP_SET_START) then Some B_RES
  else if (OP_SET_START <=? op) && (op <? OP_16INC_START) then Some B_SET
  else if (OP_16INC_START <=? op) && (op <? OP_ADD_HL_START) then Some B_16INC
  else if (OP_ADD_HL_START <=? op) && (op <? OP_EX_DE_HL) then Some B_ADD_HL
  else if op =? OP_EX_DE_HL then Some B_EX_DE_HL
  else if op =? OP_LD_SP_HL then Some B_LD_SP_HL
  else if (OP_LD_RR_NN_START <=? op) && (op <? OP_ADC_HL_START) then Some B_LD_RR_NN
  else if (OP_ADC_HL_START <=? op) && (op <? OP_SBC_HL_START) then Some B_ADC_HL
  else if (OP_SBC_HL_START <=? op) && (op <? OP_COUNT) then Some B_SBC_HL
  else None.

(** The locals of the ALU and CB branches. *)
Definition alu_op (op : Z) : Z := (op - 56) ÷ 8.
Definition alu_src_idx (op : Z) : Z := Z.rem (op - 56) 8.
Definition cb_op (op : Z) : Z := (op - OP_CB_START) ÷ 7.
Definition cb_reg_idx (op : Z) : Z := Z.rem (op - OP_CB_START) 7.

(** [s.r[reg] = f(s, s.r[reg])] for a CB rotate or shift [f]. *)
Definition cb_apply (f : Z80State -> Z -> option (Z80State * Z))
    (s : Z80State) (reg : Z) : option Z80State :=
  v ← rd s reg;
  '(s, v') ← f s v;
  wr s reg v'.

(** [h_exec_instruction]: the branch that [classify] selects runs its body
    and returns; an opcode that passes every test leaves the state as it
    is. Division and remainder are those of C ([÷] and [Z.rem]). *)
Definition h_exec_instruction (s : Z80State) (op : Z) (imm : Z) : option Z80State :=
  match classify op with
  | Some B_LD_RR =>
      dst ← idx LD_DST_H (op ÷ 7);
      src ← idx LD_FULL_SRC_H op;
      v ← rd s src;
      wr s dst v
  | Some B_LD_RN =>
      dst ← idx IMM_REG_H (op - 49);
      wr s dst (u8 imm)
  | Some B_ALU =>
      let alu_op := alu_op op in
      let src_idx := alu_src_idx op in
      val ← (if src_idx <? 7 then src ← idx ALU_SRC_H src_idx; rd s src
             else Some (u8 imm));
      match alu_op with
      | 0 => h_alu_add s val | 1 => h_alu_adc s val
      | 2 => h_alu_sub s val | 3 => h_alu_sbc s val
      | 4 => h_alu_and s val | 5 => h_alu_xor s val
      | 6 => h_alu_or s val | 7 => h_alu_cp s val
      | _ => Some s
      end
  | Some B_INC => reg ← idx INCDEC_REG_H (op - 120); h_alu_inc s reg
  | Some B_DEC => reg ← idx INCDEC_REG_H (op - 127); h_alu_dec s reg
  | Some B_RLCA =>
      a ← rd s REG_A;
      s ← wr s REG_A ((a << 1) .| (a >> 7));
      f ← rd s REG_F;
      a ← rd s REG_A;
      wr s REG_F ((f .& (FLAG_P .| FLAG_Z .| FLAG_S)) .|
                  (a .& (FLAG_C .| FLAG_3 .| FLAG_5)))
  | Some B_RRCA =>
      f ← rd s REG_F;
      a ← rd s REG_A;
      s ← wr s REG_F ((f .& (FLAG_P .| FLAG_Z .| FLAG_S)) .| (a .& FLAG_C));
      a ← rd s REG_A;
      s ← wr s REG_A ((a >> 1) .| (a << 7));
      f ← rd s REG_F;
      a ← rd s REG_A;
      wr s REG_F (f .| (a .& (FLAG_3 .| FLAG_5)))
  | Some B_RLA =>
      o ← rd s REG_A;
      f ← rd s REG_F;
      s ← wr s REG_A ((o << 1) .| (f .& FLAG_C));
      f ← rd s REG_F;
      a ← rd s REG_A;
      wr s REG_F ((f .& (FLAG_P .| FLAG_Z .| FLAG_S)) .|
                  (a .& (FLAG_3 .| FLAG_5)) .| (o >> 7))
  | Some B_RRA =>
      o ← rd s REG_A;
      f ← rd s REG_F;
      s ← wr s REG_A ((o >> 1) .| (f << 7));
      f ← rd s REG_F;
      a ← rd s REG_A;
      wr s REG_F ((f .& (FLAG_P .| FLAG_Z .| FLAG_S)) .|
                  (a .& (FLAG_3 .| FLAG_5)) .| (o .& FLAG_C))
  | Some B_DAA => h_exec_daa s
  | Some B_CPL =>
      a ← rd s REG_A;
      s ← wr s REG_A (a .^ 0xFF);
      f ← rd s REG_F;
      a ← rd s REG_A;
      wr s REG_F ((f .& (FLAG_C .| FLAG_P .| FLAG_Z .| FLAG_S)) .|
                  (a .& (FLAG_3 .| FLAG_5)) .| FLAG_N .| FLAG_H)
  | Some B_SCF =>
      f ← rd s REG_F;
      a ← rd s REG_A;
      wr s REG_F ((f .& (FLAG_P .| FLAG_Z .| FLAG_S)) .|
                  (a .& (FLAG_3 .| FLAG_5)) .| FLAG_C)
  | Some B_CCF =>
      f ← rd s REG_F;
      let c := u8 (f .& FLAG_C) in
      a ← rd s REG_A;
      s ← wr s REG_F ((f .& (FLAG_P .| FLAG_Z .| FLAG_S)) .| (a .& (FLAG_3 .| FLAG_5)));
      f ← rd s REG_F;
      if nz c then wr s REG_F (f .| FLAG_H) else wr s REG_F (f .| FLAG_C)
  | Some B_NEG =>
      o ← rd s REG_A;
      s ← wr s REG_A 0;
      h_alu_sub s o
  | Some B_NOP => Some s
  | Some B_CB =>
      let cb_op := cb_op op in
      reg ← idx CB_REG_H (cb_reg_idx op);
      match cb_op with
      | 0 => cb_apply h_cb_rlc s reg | 1 => cb_apply h_cb_rrc s reg
      | 2 => cb_apply h_cb_rl s reg | 3 => cb_apply h_cb_rr s reg
      | 4 => cb_apply h_cb_sla s reg | 5 => cb_apply h_cb_sra s reg
      | 6 => cb_apply h_cb_srl s reg
      | _ => Some s
      end
  | Some B_SLL_A => cb_apply h_cb_sll s REG_A
  | Some B_SLL_B =>
      reg ← idx CB_REG_H ((op - OP_SLL_B_START) + 1);
      cb_apply h_cb_sll s reg
  | Some B_BIT =>
      let idx_ := op - OP_BIT_START in
      reg ← idx CB_REG_H (Z.rem idx_ 7);
      v ← rd s reg;
      h_exec_bit s v (idx_ ÷ 7)
  | Some B_RES =>
      let idx_ := op - OP_RES_START in
      reg ← idx CB_REG_H (Z.rem idx_ 7);
      v ← rd s reg;
      wr s reg (v .& u32 (Z.lnot (u32 (1 << (idx_ ÷ 7)))))
  | Some B_SET =>
      let idx_ := op - OP_SET_START in
      reg ← idx CB_REG_H (Z.rem idx_ 7);
      v ← rd s reg;
      wr s reg (v .| u32 (1 << (idx_ ÷ 7)))
  | Some B_16INC =>
      let idx_ := op - OP_16INC_START in
      let pair := Z.rem idx_ 4 in
      let dec := 4 <=? idx_ in
      v ← h_get_pair s pair;
      h_set_pair s pair (u16 (if dec then v - 1 else v + 1))
  | Some B_ADD_HL =>
      v ← h_get_pair s (op - OP_ADD_HL_START);
      h_exec_add_hl s v
  | Some B_EX_DE_HL =>
      td ← rd s REG_D;
      te ← rd s REG_E;
      h ← rd s REG_H;
      s ← wr s REG_D h;
      l ← rd s REG_L;
      s ← wr s REG_E l;
      s ← wr s REG_H td;
      wr s REG_L te
  | Some B_LD_SP_HL =>
      h ← rd s REG_H;
      l ← rd s REG_L;
      Some (wr_sp s ((h << 8) .| l))
  | Some B_LD_RR_NN => h_set_pair s (op - OP_LD_RR_NN_START) imm
  | Some B_ADC_HL =>
      v ← h_get_pair s (op - OP_ADC_HL_START);
      h_exec_adc_hl s v
  | Some B_SBC_HL =>
      v ← h_get_pair s (op - OP_SBC_HL_START);
      h_exec_sbc_hl s v
  | None => Some s
  end.

(** ** Sequence executor *)

Definition h_exec_seq (s : Z80State) (ops imms : list Z) (n : Z) : option Z80State :=
  for_loop (Z.to_nat n) 0
    (fun i s => op ← idx ops i; imm ← idx imms i; h_exec_instruction s op imm) s.

(** ** Fingerprint *)

(** The body of the loop of [h_fingerprint] for the test vector [v], on the
    output buffer [fp]. *)
Definition h_fingerprint_body (ops imms : list Z) (n : Z) (v : Z) (fp : list Z)
    : option (list Z) :=
  s ← idx h_test_vectors v;
  s ← h_exec_seq s ops imms n;
  let off := v * FP_SIZE in
  x ← rd s REG_A; fp ← arr_set fp (off + 0) x;
  x ← rd s REG_F; fp ← arr_set fp (off + 1) x;
  x ← rd s REG_B; fp ← arr_set fp (off + 2) x;
  x ← rd s REG_C; fp ← arr_set fp (off + 3) x;
  x ← rd s REG_D; fp ← arr_set fp (off + 4) x;
  x ← rd s REG_E; fp ← arr_set fp (off + 5) x;
  x ← rd s REG_H; fp ← arr_set fp (off + 6) x;
  x ← rd s REG_L; fp ← arr_set fp (off + 7) x;
  fp ← arr_set fp (off + 8) (u8 (sp s >> 8));
  arr_set fp (off + 9) (u8 (sp s)).

Definition h_fingerprint (ops imms : list Z) (n : Z) (fp : list Z) : option (list Z) :=
  for_loop (Z.to_nat NUM_VECTORS) 0 (h_fingerprint_body ops imms n) fp.

End Engines.

(** ** State comparison *)

Definition h_states_equal (a b : Z80State) (dead_flags : Z) : option bool :=
  aa ← rd a REG_A; ba ← rd b REG_A;
  af ← rd a REG_F; bf ← rd b REG_F;
  ab ← rd a REG_B; bb ← rd b REG_B;
  ac ← rd a REG_C; bc ← rd b REG_C;
  ad ← rd a REG_D; bd ← rd b REG_D;
  ae ← rd a REG_E; be ← rd b REG_E;
  ah ← rd a REG_H; bh ← rd b REG_H;
  al ← rd a REG_L; bl ← rd b REG_L;
  Some ((aa =? ba) &&
        ((af .& Z.lnot dead_flags) =? (bf .& Z.lnot dead_flags)) &&
        (ab =? bb) && (ac =? bc) && (ad =? bd) && (ae =? be) &&
        (ah =? bh) && (al =? bl) && (sp a =? sp b)).

(** The tables as [init_tables] leaves them. *)
Definition tables : Tables :=
  Eval vm_compute in default zero_tables (init_tables zero_tables).

(** * Vocabulary of the properties *)

(** Values of the fixed-width types. *)
Definition is_u8 (x : Z) : Prop := 0 <= x < 256.
Definition is_u16 (x : Z) : Prop := 0 <= x < 65536.

(** The arrays of [Tables] are declared with 256 entries. *)
Definition tables_sized (T : Tables) : Prop :=
  length (h_sz53 T) = 256%nat /\ length (h_sz53p T) = 256%nat /\
  length (h_parity T) = 256%nat.

(** A state as the type [Z80State] declares it: 8 byte registers and a
    16-bit [sp]. *)
Definition wf (s : Z80State) : Prop :=
  length (r s) = 8%nat /\ Forall is_u8 (r s) /\ is_u16 (sp s).

(** The number of one-bits among the low 8 bits of [v]. *)
Definition popcount (v : Z) : nat :=
  length (filter (fun k => Z.testbit v (Z.of_nat k) = true) (seq 0 8)).

(** Exhaustive checks over bytes. *)
Definition all_u8 (P : Z -> bool) : bool :=
  forallb P (map Z.of_nat (seq 0 256)).

Definition all_u8_2 (P : Z -> Z -> bool) : bool :=
  all_u8 (fun x => all_u8 (P x)).

(** The values that one iteration of [init_tables] stores at index [v]:
    the parity bit [p] left by the inner loop and the three table entries. *)
Definition parity_bit (v : Z) : Z :=
  match for_loop 8 0 parity_step (u8 v, 0) with
  | Some (_, p) => p
  | None => 0
  end.
Definition sz53_entry (v : Z) : Z := u8 (u8 v .& (FLAG_3 .| FLAG_5 .| FLAG_S)).
Definition parity_entry (v : Z) : Z := u8 (if parity_bit v =? 0 then FLAG_P else 0).
Definition sz53p_entry (v : Z) : Z := u8 (sz53_entry v .| parity_entry v).

(** The invariant of the outer loop of [init_tables]: the entries below [k]
    are final. *)
Definition init_inv (k : Z) (T : Tables) : Prop :=
  tables_sized T /\
  forall v, 0 <= v < k ->
    idx (h_sz53 T) v = Some (sz53_entry v) /\
    idx (h_parity T) v = Some (parity_entry v) /\
    idx (h_sz53p T) v = Some (sz53p_entry v).

(** [wp m Q]: the computation [m] does not fail and its result satisfies [Q]. *)
Definition wp {A : Type} (m : option A) (Q : A -> Prop) : Prop :=
  exists a, m = Some a /\ Q a.

(** A register index. *)
Definition is_reg (x : Z) : Prop := 0 <= x < 8.

(** The half-open interval of opcodes [branch_lo b, branch_hi b) that the
    range constants give to each branch of the dispatcher. *)
Definition branch_lo (b : branch) : Z :=
  match b with
  | B_LD_RR => OP_LD_RR_START | B_LD_RN => OP_LD_RN_START | B_ALU => OP_ALU_START
  | B_INC => OP_INC_START | B_DEC => OP_DEC_START
  | B_RLCA => OP_RLCA | B_RRCA => OP_RRCA | B_RLA => OP_RLA | B_RRA => OP_RRA
  | B_DAA => OP_DAA | B_CPL => OP_CPL | B_SCF => OP_SCF | B_CCF => OP_CCF
  | B_NEG => OP_NEG | B_NOP => OP_NOP
  | B_CB => OP_CB_START | B_SLL_A => OP_SLL_A | B_SLL_B => OP_SLL_B_START
  | B_BIT => OP_BIT_START | B_RES => OP_RES_START | B_SET => OP_SET_START
  | B_16INC => OP_16INC_START | B_ADD_HL => OP_ADD_HL_START
  | B_EX_DE_HL => OP_EX_DE_HL | B_LD_SP_HL => OP_LD_SP_HL
  | B_LD_RR_NN => OP_LD_RR_NN_START | B_ADC_HL => OP_ADC_HL_START
  | B_SBC_HL => OP_SBC_HL_START
  end.

Definition branch_hi (b : branch) : Z :=
  match b with
  | B_LD_RR => OP_LD_RN_START | B_LD_RN => OP_ALU_START | B_ALU => OP_INC_START
  | B_INC => OP_DEC_START | B_DEC => OP_RLCA
  | B_RLCA => OP_RRCA | B_RRCA => OP_RLA | B_RLA => OP_RRA | B_RRA => OP_DAA
  | B_DAA => OP_CPL | B_CPL => OP_SCF | B_SCF => OP_CCF | B_CCF => OP_NEG
  | B_NEG => OP_NOP | B_NOP => OP_CB_START
  | B_CB => OP_SLL_A | B_SLL_A => OP_SLL_B_START | B_SLL_B => OP_BIT_START
  | B_BIT => OP_RES_START | B_RES => OP_SET_START | B_SET => OP_16INC_START
  | B_16INC => OP_ADD_HL_START | B_ADD_HL => OP_EX_DE_HL
  | B_EX_DE_HL => OP_LD_SP_HL | B_LD_SP_HL => OP_LD_RR_NN_START
  | B_LD_RR_NN => OP_ADC_HL_START | B_ADC_HL => OP_SBC_HL_START
  | B_SBC_HL => OP_COUNT
  end.

(** A value that fits 7 bits: the carry-trick lookup before it is split. *)
Definition small7 (x : Z) : Prop := 0 <= x < 128.

(** The CB rotates and shifts return the state with the new value. *)
Definition wf_fst (p : Z80State * Z) : Prop := wf p.1.

(** The register image of a state, in the field order of the fingerprint:
    the 8 registers, then the high and the low byte of [sp]. *)
Definition reg_image (s : Z80State) : list Z :=
  r s ++ [u8 (sp s >> 8); u8 (sp s)].

(** An instruction sequence held in two arrays: [n] opcodes, each a
    [uint16_t], and [n] immediates. *)
Definition is_sequence (ops imms : list Z) (n : Z) : Prop :=
  Forall is_u16 ops /\ n <= Z.of_nat (length ops) /\ n <= Z.of_nat (length imms).

(** The invariant of the loop of [h_fingerprint]: the segments of the test
    vectors below [k] hold the register images of their final states. *)
Definition fp_inv (T : Tables) (ops imms : list Z) (n : Z) (k : Z) (fp : list Z) : Prop :=
  length fp = 80%nat /\
  forall v, 0 <= v < k ->
    exists s0 s,
      idx h_test_vectors v = Some s0 /\
      h_exec_seq T s0 ops imms n = Some s /\ wf s /\
      forall j, 0 <= j < 10 -> idx fp (v * FP_SIZE + j) = idx (reg_image s) j.

(** The decode-table accesses of each branch of [h_exec_instruction]: the
    table and the index computed from the opcode. *)
Definition decode_access (b : branch) (op : Z) : list (list Z * Z) :=
  match b with
  | B_LD_RR => [(LD_DST_H, op ÷ 7); (LD_FULL_SRC_H, op)]
  | B_LD_RN => [(IMM_REG_H, op - 49)]
  | B_ALU => if alu_src_idx op <? 7 then [(ALU_SRC_H, alu_src_idx op)] else []
  | B_INC => [(INCDEC_REG_H, op - 120)]
  | B_DEC => [(INCDEC_REG_H, op - 127)]
  | B_CB => [(CB_REG_H, cb_reg_idx op)]
  | B_SLL_B => [(CB_REG_H, (op - OP_SLL_B_START) + 1)]
  | B_BIT => [(CB_REG_H, Z.rem (op - OP_BIT_START) 7)]
  | B_RES => [(CB_REG_H, Z.rem (op - OP_RES_START) 7)]
  | B_SET => [(CB_REG_H, Z.rem (op - OP_SET_START) 7)]
  | _ => []
  end.

(** The selector of the [switch] that a branch executes (the ALU operation,
    the CB operation, the register pair) with the number of its cases, which
    are labelled from 0. *)
Definition switch_selector (b : branch) (op : Z) : option (Z * Z) :=
  match b with
  | B_ALU => Some (alu_op op, 8)
  | B_CB => Some (cb_op op, 7)
  | B_16INC => Some (Z.rem (op - OP_16INC_START) 4, 4)
  | B_ADD_HL => Some (op - OP_ADD_HL_START, 4)
  | B_LD_RR_NN => Some (op - OP_LD_RR_NN_START, 4)
  | B_ADC_HL => Some (op - OP_ADC_HL_START, 4)
  | B_SBC_HL => Some (op - OP_SBC_HL_START, 4)
  | _ => None
  end.

(** An access within the bounds of its table, at an entry that names a
    register. *)
Definition access_ok (a : list Z * Z) : Prop :=
  0 <= a.2 < Z.of_nat (length a.1) /\ exists reg, idx a.1 a.2 = Some reg /\ is_reg reg.

(** The flag byte that [h_alu_cp] stores, as a function of the accumulator
    [a] and the operand [val]. *)
Definition cp_flags (a val : Z) : option Z :=
  let r := u16 (a - val) in
  let lookup := u8 (((a .& 0x88) >> 3) .| ((val .& 0x88) >> 2) .| u8 ((r .& 0x88) >> 1)) in
  hc ← idx h_halfcarry_sub (lookup .& 0x07);
  ov ← idx h_overflow_sub (lookup >> 4);
  Some (u8 (bsel_h (nz (r .& 0x100)) FLAG_C (bsel_h (negb (r =? 0)) 0 FLAG_Z) .| FLAG_N .|
            hc .| ov .| (val .& (FLAG_3 .| FLAG_5)) .| u8 (r .& FLAG_S))).

(** The flag bytes that [h_alu_add] and [h_alu_sub] store, as functions of
    the accumulator [a] and the operand [val]. *)
Definition add_flags (T : Tables) (a val : Z) : option Z :=
  let r := u16 (a + val) in
  let lookup := u8 (((a .& 0x88) >> 3) .| ((val .& 0x88) >> 2) .| u8 ((r .& 0x88) >> 1)) in
  hc ← idx h_halfcarry_add (lookup .& 0x07);
  ov ← idx h_overflow_add (lookup >> 4);
  sz ← idx (h_sz53 T) (u8 r);
  Some (u8 (bsel_h (nz (r .& 0x100)) FLAG_C 0 .| hc .| ov .| sz)).

Definition sub_flags (T : Tables) (a val : Z) : option Z :=
  let r := u16 (a - val) in
  let lookup := u8 (((a .& 0x88) >> 3) .| ((val .& 0x88) >> 2) .| u8 ((r .& 0x88) >> 1)) in
  hc ← idx h_halfcarry_sub (lookup .& 0x07);
  ov ← idx h_overflow_sub (lookup >> 4);
  sz ← idx (h_sz53 T) (u8 r);
  Some (u8 (bsel_h (nz (r .& 0x100)) FLAG_C 0 .| FLAG_N .| hc .| ov .| sz)).

(** The value of a byte read as a two's-complement signed number. *)
Definition signed8 (x : Z) : Z := if x <? 128 then x else x - 256.

(** The flag bytes that [h_alu_inc] and [h_alu_dec] store, as functions of
    the flags [f] and of the register value [x] before the operation. *)
Definition inc_flags (T : Tables) (f x : Z) : option Z :=
  let x' := u8 (x + 1) in
  sz ← idx (h_sz53 T) x';
  Some (u8 ((f .& FLAG_C) .| bsel_h (x' =? 0x80) FLAG_V 0 .|
            bsel_h (negb ((x' .& 0x0F) =? 0)) 0 FLAG_H .| sz)).

Definition dec_flags (T : Tables) (f x : Z) : option Z :=
  let f1 := u8 ((f .& FLAG_C) .| bsel_h (negb ((x .& 0x0F) =? 0)) 0 FLAG_H .| FLAG_N) in
  let x' := u8 (x - 1) in
  sz ← idx (h_sz53 T) x';
  Some (u8 (f1 .| (bsel_h (x' =? 0x7F) FLAG_V 0 .| sz))).

(** The registers that hold a register pair; pair 3 is [sp]. *)
Definition pair_regs (pair : Z) : list Z :=
  match pair with
  | 0 => [REG_B; REG_C]
  | 1 => [REG_D; REG_E]
  | 2 => [REG_H; REG_L]
  | _ => []
  end.

(** Two pairs of arrays that hold the same sequence of [n] instructions. *)
Definition same_sequence (ops imms ops' imms' : list Z) (n : Z) : Prop :=
  forall i, 0 <= i < n -> idx ops i = idx ops' i /\ idx imms i = idx imms' i.

(** ** Vocabulary of the instruction semantics *)

(** [tbl_at l i]: the entry [l[i]] of a table, for an index within its
    bounds. *)
Definition tbl_at (l : list Z) (i : Z) : Z := default 0 (idx l i).

(** [only_changes regs s s']: from [s] to [s'] no register outside [regs]
    has changed, nor has [sp]. *)
Definition only_changes (regs : list Z) (s s' : Z80State) : Prop :=
  (forall j, j ∉ regs -> rd s' j = rd s j) /\ sp s' = sp s.

(** [fl b m]: the flag bits [m] if the condition [b] holds, no bit
    otherwise. *)
Definition fl (b : bool) (m : Z) : Z := if b then m else 0.

(** Even parity of a byte. *)
Definition parity_even (v : Z) : bool := Nat.even (popcount v).

(** The sign, zero, bit-5 and bit-3 flags of a byte, its parity flag, and
    both together: the values that the flag tables hold. *)
Definition sz53_val (x : Z) : Z := (x .& (FLAG_S .| FLAG_5 .| FLAG_3)) .| fl (x =? 0) FLAG_Z.
Definition parity_val (x : Z) : Z := fl (parity_even x) FLAG_P.
Definition sz53p_val (x : Z) : Z := sz53_val x .| parity_val x.

(** Signed overflow: the sum [x], taken over signed bytes, leaves
    [-128, 127]. *)
Definition overflows (x : Z) : bool := negb ((-128 <=? x) && (x <=? 127)).

(** Packed BCD: both nibbles are decimal digits; and the number a packed
    BCD byte stands for. *)
Definition is_bcd (x : Z) : bool := ((x .& 0x0F) <=? 9) && (x / 16 <=? 9).
Definition bcd_val (x : Z) : Z := 10 * (x / 16) + x mod 16.

(** The result of a rotate or shift of the register [reg]: [reg] holds [r],
    the flags are the bit shifted out as carry and the sign, zero, bit-5,
    bit-3 and parity flags of [r], half-carry and negate being clear; only
    [reg] and F change. *)
Definition shift_post (s : Z80State) (reg r : Z) (c : bool)
    (res : option Z80State) : Prop :=
  exists s',
    res = Some s' /\
    only_changes [reg; REG_F] s s' /\
    rd s' reg = Some r /\
    rd s' REG_F = Some (fl c FLAG_C .| sz53p_val r).

(** The pair of registers that an opcode below 49 decodes to. *)
Definition ld_decode (op : Z) : option Z * option Z :=
  (idx LD_DST_H (op ÷ 7), idx LD_FULL_SRC_H op).

(** Signed 16-bit values and signed 16-bit overflow. *)
Definition signed16 (x : Z) : Z := if x <? 32768 then x else x - 65536.
Definition overflows16 (x : Z) : bool := negb ((-32768 <=? x) && (x <=? 32767)).

(** * Properties *)

(** ** Fixed-width values and arrays *)


Lemma u8_range x : is_u8 (u8 x).
Proof. unfold is_u8, u8. apply Z.mod_pos_bound. lia. Qed.

Lemma u16_range x : is_u16 (u16 x).
Proof. unfold is_u16, u16. apply Z.mod_pos_bound. lia. Qed.

Lemma u8_small x : is_u8 x -> u8 x = x.
Proof. unfold is_u8, u8. intros. apply Z.mod_small. lia. Qed.

Lemma u16_small x : is_u16 x -> u16 x = x.
Proof. unfold is_u16, u16. intros. apply Z.mod_small. lia. Qed.

Section Arrays.

Context {A : Type}.
Implicit Types (l : list A) (i j : Z).

Lemma idx_is_Some l i : 0 <= i < Z.of_nat (length l) -> is_Some (idx l i).
Proof.
  intros Hi. unfold idx. destruct (Z.leb_spec 0 i); [|lia].
  apply lookup_lt_is_Some. lia.
Qed.

Lemma idx_Some_bound l i x : idx l i = Some x -> 0 <= i < Z.of_nat (length l).
Proof.
  unfold idx. destruct (Z.leb_spec 0 i); [|discriminate].
  intros Hl. apply lookup_lt_Some in Hl. lia.
Qed.

Lemma idx_insert_eq l i x :
  0 <= i < Z.of_nat (length l) -> idx (<[Z.to_nat i := x]> l) i = Some x.
Proof.
  intros Hi. unfold idx. destruct (Z.leb_spec 0 i); [|lia].
  apply list_lookup_insert_eq. lia.
Qed.

Lemma idx_insert_ne l i j x :
  0 <= i -> i <> j -> idx (<[Z.to_nat i := x]> l) j = idx l j.
Proof.
  intros Hi Hne. unfold idx. destruct (Z.leb_spec 0 j); [|reflexivity].
  apply list_lookup_insert_ne. lia.
Qed.

Lemma idx_Forall (P : A -> Prop) l i x : Forall P l -> idx l i = Some x -> P x.
Proof.
  unfold idx. destruct (0 <=? i); [|discriminate].
  intros Hall Hl. eapply Forall_lookup_1; eauto.
Qed.

End Arrays.

Lemma arr_set_Some l i v :
  0 <= i < Z.of_nat (length l) -> arr_set l i v = Some (<[Z.to_nat i := u8 v]> l).
Proof.
  intros Hi. unfold arr_set.
  destruct (Z.leb_spec 0 i); [|lia]. destruct (Z.ltb_spec i (Z.of_nat (length l))); [|lia].
  reflexivity.
Qed.

Lemma arr_set_inv l i v l' :
  arr_set l i v = Some l' ->
  0 <= i < Z.of_nat (length l) /\ l' = <[Z.to_nat i := u8 v]> l.
Proof.
  unfold arr_set.
  destruct (Z.leb_spec 0 i); [|discriminate].
  destruct (Z.ltb_spec i (Z.of_nat (length l))); [|discriminate].
  simpl. intros [= <-]. split; [lia|reflexivity].
Qed.

Lemma arr_set_length l i v l' : arr_set l i v = Some l' -> length l' = length l.
Proof. intros (_ & ->)%arr_set_inv. apply length_insert. Qed.

Lemma arr_set_idx_eq l i v l' : arr_set l i v = Some l' -> idx l' i = Some (u8 v).
Proof. intros (Hi & ->)%arr_set_inv. by apply idx_insert_eq. Qed.

Lemma arr_set_idx_ne l i v l' j : arr_set l i v = Some l' -> i <> j -> idx l' j = idx l j.
Proof. intros (Hi & ->)%arr_set_inv Hne. apply idx_insert_ne; [lia|done]. Qed.

Lemma arr_set_Forall_u8 l i v l' :
  Forall is_u8 l -> arr_set l i v = Some l' -> Forall is_u8 l'.
Proof.
  intros Hall (_ & ->)%arr_set_inv.
  apply Forall_insert; [done|apply u8_range].
Qed.

(** ** Loops *)

(** Invariant rule for [for_loop]: an invariant [P] that holds at entry and
    that every iteration re-establishes holds at exit, and the loop does not
    fail. *)
Lemma for_loop_inv {St : Type} (P : Z -> St -> Prop) (body : Z -> St -> option St) n :
  forall i st,
    P i st ->
    (forall j st0, i <= j < i + Z.of_nat n -> P j st0 ->
       exists st1, body j st0 = Some st1 /\ P (j + 1) st1) ->
    exists st', for_loop n i body st = Some st' /\ P (i + Z.of_nat n) st'.
Proof.
  induction n as [|n IH]; intros i st HP Hstep.
  - exists st. split; [reflexivity|]. by replace (i + Z.of_nat 0) with i by lia.
  - destruct (Hstep i st) as (st1 & Hb & HP1); [lia|done|].
    destruct (IH (i + 1) st1 HP1) as (st' & Hl & HP').
    { intros j st0 Hj. apply Hstep. lia. }
    exists st'. split.
    + simpl. rewrite Hb. exact Hl.
    + by replace (i + Z.of_nat (S n)) with (i + 1 + Z.of_nat n) by lia.
Qed.


Lemma all_u8_spec P : all_u8 P = true -> forall x, is_u8 x -> P x = true.
Proof.
  unfold all_u8, is_u8. intros Hall x Hx.
  rewrite forallb_forall in Hall. apply Hall.
  apply in_map_iff. exists (Z.to_nat x). split; [lia|].
  apply in_seq. lia.
Qed.


Lemma all_u8_2_spec P :
  all_u8_2 P = true -> forall x y, is_u8 x -> is_u8 y -> P x y = true.
Proof.
  unfold all_u8_2. intros Hall x y Hx Hy.
  apply (all_u8_spec (P x)); [|done].
  by apply (all_u8_spec (fun x => all_u8 (P x))).
Qed.

(** A loop only depends on its body at the indices it runs through. *)
Lemma for_loop_ext {St : Type} (body1 body2 : Z -> St -> option St) n :
  forall i st,
    (forall j st0, i <= j < i + Z.of_nat n -> body1 j st0 = body2 j st0) ->
    for_loop n i body1 st = for_loop n i body2 st.
Proof.
  induction n as [|n IH]; intros i st Hext; [reflexivity|].
  cbn [for_loop]. rewrite Hext by lia.
  destruct (body2 i st) as [st'|]; [|reflexivity]. cbn [mbind option_bind].
  apply IH. intros j st0 Hj. apply Hext. lia.
Qed.

(** ** The table builder *)

Lemma parity_loop v :
  exists j, for_loop 8 0 parity_step (u8 v, 0) = Some (j, parity_bit v).
Proof. unfold parity_bit. cbn [for_loop parity_step mbind option_bind]. eauto. Qed.

Lemma init_tables_body_eq i T :
  tables_sized T -> 0 <= i < 256 ->
  init_tables_body i T =
    Some (mkTables (<[Z.to_nat i := sz53_entry i]> (h_sz53 T))
                   (<[Z.to_nat i := sz53p_entry i]> (h_sz53p T))
                   (<[Z.to_nat i := parity_entry i]> (h_parity T))).
Proof.
  intros (Hsz & Hszp & Hpa) Hi. unfold init_tables_body.
  rewrite arr_set_Some by lia. cbn [mbind option_bind].
  destruct (parity_loop i) as (j & ->). cbn [mbind option_bind h_sz53 h_sz53p h_parity].
  rewrite arr_set_Some by lia. cbn [mbind option_bind].
  rewrite !idx_insert_eq by lia. cbn [mbind option_bind].
  rewrite arr_set_Some by lia. reflexivity.
Qed.

Lemma init_tables_loop T0 :
  tables_sized T0 ->
  exists T, for_loop 256 0 init_tables_body T0 = Some T /\ init_inv 256 T.
Proof.
  intros Hs.
  apply (for_loop_inv init_inv init_tables_body 256 0 T0).
  - split; [done|]. intros v Hv. lia.
  - intros j T Hj [HT Hent].
    eexists. split; [apply init_tables_body_eq; [done|lia]|].
    destruct HT as (Hsz & Hszp & Hpa).
    split.
    + unfold tables_sized. cbn [h_sz53 h_sz53p h_parity].
      by rewrite !length_insert.
    + intros v Hv. cbn [h_sz53 h_sz53p h_parity].
      destruct (decide (j = v)) as [->|Hne].
      * rewrite !idx_insert_eq by lia. done.
      * rewrite !idx_insert_ne by lia. apply Hent. lia.
Qed.

Lemma init_tables_entries T0 :
  tables_sized T0 ->
  exists T,
    init_tables T0 = Some T /\ tables_sized T /\
    forall v, 0 <= v < 256 ->
      idx (h_sz53 T) v =
        Some (if v =? 0 then u8 (sz53_entry 0 .| FLAG_Z) else sz53_entry v) /\
      idx (h_parity T) v = Some (parity_entry v) /\
      idx (h_sz53p T) v =
        Some (if v =? 0 then u8 (sz53p_entry 0 .| FLAG_Z) else sz53p_entry v).
Proof.
  intros Hs. destruct (init_tables_loop T0 Hs) as (T & Hloop & (Hsz & Hszp & Hpa) & Hent).
  unfold init_tables. rewrite Hloop. cbn [mbind option_bind].
  destruct (Hent 0) as (-> & _ & E0); [lia|]. cbn [mbind option_bind].
  rewrite arr_set_Some by lia. cbn [mbind option_bind h_sz53 h_sz53p h_parity].
  rewrite E0. cbn [mbind option_bind].
  rewrite arr_set_Some by lia. cbn [mbind option_bind h_sz53 h_sz53p h_parity].
  eexists. split; [reflexivity|]. split.
  - unfold tables_sized. cbn [h_sz53 h_sz53p h_parity]. by rewrite !length_insert.
  - intros v Hv. cbn [h_sz53 h_sz53p h_parity].
    destruct (Hent v Hv) as (E1 & E2 & E3).
    destruct (Z.eqb_spec v 0) as [->|Hne].
    + rewrite !idx_insert_eq by lia. done.
    + rewrite !idx_insert_ne by lia. done.
Qed.

(** The stored entries, byte by byte, are the ones the specification names. *)
Lemma table_entries_check :
  all_u8 (fun v =>
    ((if v =? 0 then u8 (sz53_entry 0 .| FLAG_Z) else sz53_entry v)
       =? (v .& 0xA8) .| (if v =? 0 then FLAG_Z else 0)) &&
    (parity_entry v =? (if Nat.even (popcount v) then FLAG_P else 0)) &&
    ((if v =? 0 then u8 (sz53p_entry 0 .| FLAG_Z) else sz53p_entry v)
       =? (v .& 0xA8) .| (if v =? 0 then FLAG_Z else 0)
          .| (if Nat.even (popcount v) then FLAG_P else 0))) = true.
Proof. vm_compute. reflexivity. Qed.

(** C5. After [init_tables] has run, from any prior content of the three
    256-entry arrays: for every byte [v], [h_sz53[v]] is [v & 0xA8] with the
    zero-flag bit 0x40 added iff [v = 0]; [h_parity[v]] is the parity bit
    [FLAG_P] iff the number of one-bits of [v] is even, and 0 otherwise;
    and [h_sz53p[v]] is the bitwise or of the two. *)
Theorem init_tables_spec T0 :
  tables_sized T0 ->
  exists T,
    init_tables T0 = Some T /\
    forall v, 0 <= v < 256 ->
      exists sz pa szp,
        idx (h_sz53 T) v = Some sz /\
        idx (h_parity T) v = Some pa /\
        idx (h_sz53p T) v = Some szp /\
        sz = (v .& 0xA8) .| (if v =? 0 then FLAG_Z else 0) /\
        pa = (if Nat.even (popcount v) then FLAG_P else 0) /\
        szp = sz .| pa.
Proof.
  intros Hs. destruct (init_tables_entries T0 Hs) as (T & Hinit & _ & Hent).
  exists T. split; [done|]. intros v Hv.
  destruct (Hent v Hv) as (E1 & E2 & E3).
  pose proof (all_u8_spec _ table_entries_check v Hv) as Hc.
  cbv beta in Hc. apply andb_prop in Hc as [Hc C3]. apply andb_prop in Hc as [C1 C2].
  apply Z.eqb_eq in C1, C2, C3.
  do 3 eexists. split; [exact E1|]. split; [exact E2|]. split; [exact E3|].
  rewrite C1, C2, C3. done.
Qed.

Lemma init_tables_spec_witness :
  tables_sized zero_tables /\
  exists T,
    init_tables zero_tables = Some T /\
    forall v, 0 <= v < 256 ->
      exists sz pa szp,
        idx (h_sz53 T) v = Some sz /\
        idx (h_parity T) v = Some pa /\
        idx (h_sz53p T) v = Some szp /\
        sz = (v .& 0xA8) .| (if v =? 0 then FLAG_Z else 0) /\
        pa = (if Nat.even (popcount v) then FLAG_P else 0) /\
        szp = sz .| pa.
Proof.
  assert (H : tables_sized zero_tables) by (repeat split; reflexivity).
  split; [exact H | exact (init_tables_spec zero_tables H)].
Defined.

(** Every well-sized prior content leads to the same tables. *)
Lemma list_eq_idx (l1 l2 : list Z) n :
  length l1 = n -> length l2 = n ->
  (forall v, 0 <= v < Z.of_nat n -> idx l1 v = idx l2 v) -> l1 = l2.
Proof.
  intros H1 H2 Hidx. apply list_eq. intros k.
  destruct (decide (k < n)%nat) as [Hk|Hk].
  - specialize (Hidx (Z.of_nat k)). unfold idx in Hidx.
    destruct (Z.leb_spec 0 (Z.of_nat k)); [|lia].
    rewrite Nat2Z.id in Hidx. apply Hidx. lia.
  - rewrite !lookup_ge_None_2 by lia. done.
Qed.

Lemma tables_entries_check :
  all_u8 (fun v =>
    match idx (h_sz53 tables) v, idx (h_parity tables) v, idx (h_sz53p tables) v with
    | Some a, Some b, Some c =>
        (a =? (if v =? 0 then u8 (sz53_entry 0 .| FLAG_Z) else sz53_entry v)) &&
        (b =? parity_entry v) &&
        (c =? (if v =? 0 then u8 (sz53p_entry 0 .| FLAG_Z) else sz53p_entry v))
    | _, _, _ => false
    end) = true.
Proof. vm_compute. reflexivity. Qed.

Lemma tables_sized_tables : tables_sized tables.
Proof. repeat split; reflexivity. Qed.

Lemma init_tables_any T0 : tables_sized T0 -> init_tables T0 = Some tables.
Proof.
  intros Hs. destruct (init_tables_entries T0 Hs) as (T & -> & (L1 & L2 & L3) & Hent).
  f_equal. destruct T as [t1 t2 t3]. cbn [h_sz53 h_sz53p h_parity] in *.
  assert (Hall : forall v, 0 <= v < 256 ->
            idx t1 v = idx (h_sz53 tables) v /\
            idx t3 v = idx (h_parity tables) v /\
            idx t2 v = idx (h_sz53p tables) v).
  { intros v Hv. destruct (Hent v Hv) as (-> & -> & ->).
    pose proof (all_u8_spec _ tables_entries_check v Hv) as Hc. cbv beta in Hc.
    destruct (idx (h_sz53 tables) v), (idx (h_parity tables) v),
      (idx (h_sz53p tables) v); try discriminate.
    apply andb_prop in Hc as [Hc C3]. apply andb_prop in Hc as [C1 C2].
    apply Z.eqb_eq in C1, C2, C3. by subst. }
  destruct tables_sized_tables as (M1 & M2 & M3).
  unfold tables at 1. fold tables.
  replace tables with (mkTables (h_sz53 tables) (h_sz53p tables) (h_parity tables))
    by reflexivity.
  f_equal.
  - apply (list_eq_idx _ _ 256); [done..|]. intros v Hv. by apply Hall.
  - apply (list_eq_idx _ _ 256); [done..|]. intros v Hv. by apply Hall.
  - apply (list_eq_idx _ _ 256); [done..|]. intros v Hv. by apply Hall.
Qed.

(** ** Reasoning about fallible computations *)

Lemma wp_ret {A} (a : A) (Q : A -> Prop) : Q a -> wp (Some a) Q.
Proof. intros. exists a. done. Qed.

Lemma wp_bind {A B} (m : option A) (f : A -> option B) (Q : B -> Prop) :
  wp m (fun a => wp (f a) Q) -> wp (m ≫= f) Q.
Proof. intros (a & -> & HQ). exact HQ. Qed.

Lemma wp_mono {A} (m : option A) (Q Q' : A -> Prop) :
  wp m Q -> (forall a, Q a -> Q' a) -> wp m Q'.
Proof. intros (a & -> & HQ) Himp. exists a. auto. Qed.

Lemma wp_eq {A} (m : option A) (Q : A -> Prop) a : m = Some a -> Q a -> wp m Q.
Proof. intros -> HQ. by apply wp_ret. Qed.

Lemma wp_idx {A} (l : list A) i (Q : A -> Prop) :
  0 <= i < Z.of_nat (length l) ->
  (forall x, idx l i = Some x -> Q x) -> wp (idx l i) Q.
Proof.
  intros Hi HQ. destruct (idx_is_Some l i Hi) as [x Hx].
  exists x. auto.
Qed.

(** ** Register file *)

Lemma rd_is_u8 s i x : wf s -> rd s i = Some x -> is_u8 x.
Proof. intros (_ & Hall & _) Hrd. eapply idx_Forall; eauto. Qed.

Lemma wp_rd s i (Q : Z -> Prop) :
  wf s -> 0 <= i < 8 ->
  (forall x, rd s i = Some x -> is_u8 x -> Q x) -> wp (rd s i) Q.
Proof.
  intros Hwf Hi HQ. apply wp_idx.
  - destruct Hwf as (-> & _). lia.
  - intros x Hx. apply HQ; [done|]. by eapply rd_is_u8.
Qed.

Lemma wr_inv s i v s' :
  wr s i v = Some s' ->
  0 <= i < Z.of_nat (length (r s)) /\
  s' = mkState (<[Z.to_nat i := u8 v]> (r s)) (sp s).
Proof.
  unfold wr. destruct (arr_set (r s) i v) as [r'|] eqn:E; [|discriminate].
  apply arr_set_inv in E as (Hi & ->). cbn. intros [= <-]. done.
Qed.

Lemma wr_wf s i v s' : wf s -> wr s i v = Some s' -> wf s'.
Proof.
  intros (Hlen & Hall & Hsp) (Hi & ->)%wr_inv. unfold wf. cbn [r sp].
  rewrite length_insert. split; [done|]. split; [|done].
  apply Forall_insert; [done|apply u8_range].
Qed.

Lemma wr_sp_eq s i v s' : wr s i v = Some s' -> sp s' = sp s.
Proof. by intros (_ & ->)%wr_inv. Qed.

Lemma wr_rd_eq s i v s' : wr s i v = Some s' -> rd s' i = Some (u8 v).
Proof. intros (Hi & ->)%wr_inv. unfold rd. cbn [r]. by apply idx_insert_eq. Qed.

Lemma wr_rd_ne s i v s' j : wr s i v = Some s' -> i <> j -> rd s' j = rd s j.
Proof.
  intros (Hi & ->)%wr_inv Hne. unfold rd. cbn [r]. apply idx_insert_ne; [lia|done].
Qed.

Lemma wp_wr s i v (Q : Z80State -> Prop) :
  wf s -> 0 <= i < 8 ->
  (forall s', wr s i v = Some s' -> wf s' -> Q s') -> wp (wr s i v) Q.
Proof.
  intros Hwf Hi HQ.
  assert (Hs : wr s i v = Some (mkState (<[Z.to_nat i := u8 v]> (r s)) (sp s))).
  { unfold wr. rewrite arr_set_Some; [done|]. destruct Hwf as (-> & _). lia. }
  eapply wp_eq; [exact Hs|]. apply HQ; [done|]. by eapply wr_wf.
Qed.

Lemma wr_sp_wf s v : wf s -> wf (wr_sp s v).
Proof.
  intros (Hlen & Hall & _). unfold wf, wr_sp. cbn [r sp].
  split; [done|]. split; [done|]. apply u16_range.
Qed.

(** ** Bounds of the table indices *)

Lemma land_bound a b : 0 <= b -> 0 <= a .& b <= b.
Proof.
  intros Hb. split.
  - apply Z.land_nonneg. by right.
  - pose proof (Z.sub_land_same_l b a) as E.
    assert (0 <= b .& Z.lnot a) by (apply Z.land_nonneg; by left).
    rewrite (Z.land_comm a b). lia.
Qed.

Lemma land_7_bound x : 0 <= x .& 0x07 < 8.
Proof.
  change 0x07 with (Z.ones 3). rewrite Z.land_ones by lia.
  apply Z.mod_pos_bound. lia.
Qed.

Lemma lor_lt_pow2 a b n :
  0 <= n -> 0 <= a < 2 ^ n -> 0 <= b < 2 ^ n -> 0 <= a .| b < 2 ^ n.
Proof.
  intros Hn Ha Hb.
  rewrite <- (Z.mod_small a (2 ^ n)), <- (Z.mod_small b (2 ^ n)) by lia.
  rewrite <- !Z.land_ones by lia. rewrite <- Z.land_lor_distr_l.
  rewrite Z.land_ones by lia. apply Z.mod_pos_bound. lia.
Qed.

Lemma small7_lor a b : small7 a -> small7 b -> small7 (a .| b).
Proof. unfold small7. intros. apply (lor_lt_pow2 a b 7); lia. Qed.

Lemma small7_u8 a : small7 a -> small7 (u8 a).
Proof. unfold small7, u8. intros. rewrite Z.mod_small; lia. Qed.

Lemma small7_mask8 a k : 1 <= k -> small7 ((a .& 0x88) >> k).
Proof.
  intros Hk. unfold small7. pose proof (land_bound a 0x88 ltac:(lia)) as Ha.
  rewrite Z.shiftr_div_pow2 by lia.
  assert (2 <= 2 ^ k) by (change 2 with (2 ^ 1) at 1; apply Z.pow_le_mono_r; lia).
  split; [apply Z.div_pos; lia|].
  apply Z.div_lt_upper_bound; nia.
Qed.

Lemma small7_mask16 a k : 9 <= k -> small7 ((a .& 0x8800) >> k).
Proof.
  intros Hk. unfold small7. pose proof (land_bound a 0x8800 ltac:(lia)) as Ha.
  rewrite Z.shiftr_div_pow2 by lia.
  assert (512 <= 2 ^ k) by (change 512 with (2 ^ 9); apply Z.pow_le_mono_r; lia).
  split; [apply Z.div_pos; lia|].
  apply Z.div_lt_upper_bound; nia.
Qed.

Lemma small7_hi x : small7 x -> 0 <= u8 x >> 4 < 8.
Proof.
  unfold small7, u8. intros Hx. rewrite Z.mod_small by lia.
  rewrite Z.shiftr_div_pow2 by lia. change (2 ^ 4) with 16.
  split; [apply Z.div_pos; lia|apply Z.div_lt_upper_bound; lia].
Qed.

Create HintDb bounds.
#[local] Hint Resolve small7_lor small7_u8 small7_hi land_7_bound : bounds.
#[local] Hint Extern 1 (small7 ((_ .& 0x88) >> _)) => apply small7_mask8; lia : bounds.
#[local] Hint Extern 1 (small7 ((_ .& 0x8800) >> _)) => apply small7_mask16; lia : bounds.

Ltac reg_bound :=
  cbv [REG_A REG_F REG_B REG_C REG_D REG_E REG_H REG_L] in *; lia.

Ltac idx_bound :=
  lazymatch goal with
  | HT : tables_sized ?T |- _ <= ?i < Z.of_nat (length (_ ?T)) =>
      let E1 := fresh in let E2 := fresh in let E3 := fresh in
      pose proof HT as (E1 & E2 & E3); rewrite ?E1, ?E2, ?E3;
      lazymatch i with
      | u8 ?e => pose proof (u8_range e)
      | _ => idtac
      end;
      unfold is_u8 in *; lia
  | |- _ <= _ < Z.of_nat (length ?l) =>
      let n := eval vm_compute in (Z.of_nat (length l)) in
      change (Z.of_nat (length l)) with n; solve [auto 10 with bounds]
  end.

(** ** The classifier of the dispatcher *)

Ltac unfold_ops :=
  cbv [branch_lo branch_hi
       OP_LD_RR_START OP_LD_RN_START OP_ALU_START OP_INC_START OP_DEC_START
       OP_RLCA OP_RRCA OP_RLA OP_RRA OP_DAA OP_CPL OP_SCF OP_CCF OP_NEG OP_NOP
       OP_CB_START OP_SLL_A OP_SLL_B_START OP_BIT_START OP_RES_START
       OP_SET_START OP_16INC_START OP_ADD_HL_START OP_EX_DE_HL OP_LD_SP_HL
       OP_LD_RR_NN_START OP_ADC_HL_START OP_SBC_HL_START OP_COUNT] in *.

Ltac split_test :=
  lazymatch goal with
  | |- (if ?c then _ else _) = _ <-> _ => destruct c eqn:?
  end.

Lemma classify_Some op b :
  0 <= op -> classify op = Some b <-> branch_lo b <= op < branch_hi b.
Proof.
  intros Hop. unfold classify. unfold_ops.
  repeat split_test;
    (split; [intros [= <-]; lia | intros Hr; destruct b; first [reflexivity | lia]]).
Qed.

Lemma classify_None op : 0 <= op -> classify op = None <-> OP_COUNT <= op.
Proof.
  intros Hop. unfold classify. unfold_ops.
  repeat split_test; (split; [(intros [=] || intros _); lia | intros; lia || reflexivity]).
Qed.

(** ** Totality of the engines

    On a well-formed state no array access is out of bounds, and the state
    stays well-formed. *)

Lemma decode_tables_regs :
  Forall is_reg LD_FULL_SRC_H /\ Forall is_reg LD_DST_H /\ Forall is_reg ALU_SRC_H /\
  Forall is_reg CB_REG_H /\ Forall is_reg IMM_REG_H /\ Forall is_reg INCDEC_REG_H.
Proof. repeat split; repeat constructor; done. Qed.

Lemma wp_idx_reg l i (Q : Z -> Prop) :
  Forall is_reg l -> 0 <= i < Z.of_nat (length l) ->
  (forall x, idx l i = Some x -> is_reg x -> Q x) -> wp (idx l i) Q.
Proof.
  intros Hall Hi HQ. apply wp_idx; [done|].
  intros x Hx. apply HQ; [done|]. by eapply idx_Forall.
Qed.

Create HintDb total.

(** C division and remainder on non-negative operands. *)
Ltac quot_lia :=
  cbv [alu_op alu_src_idx cb_op cb_reg_idx] in *; unfold_ops;
  Z.to_euclidean_division_equations; lia.

Ltac decode_bound :=
  lazymatch goal with
  | |- _ <= _ < Z.of_nat (length ?l) =>
      let n := eval vm_compute in (Z.of_nat (length l)) in
      change (Z.of_nat (length l)) with n;
      quot_lia
  end.

Ltac wp_decode l :=
  let H := fresh in
  pose proof decode_tables_regs as H;
  apply (wp_idx_reg l);
  [ tauto
  | clear H; decode_bound
  | clear H; intros ? ? H; unfold is_reg in H ].

Ltac wp_step :=
  lazymatch goal with
  | |- wp (mbind _ _) _ => apply wp_bind
  | |- wp (rd _ _) _ => apply wp_rd; [assumption | reg_bound | intros ? ? ?]
  | |- wp (wr _ _ _) _ => apply wp_wr; [assumption | reg_bound | intros ? ? ?]
  | |- wp (idx LD_FULL_SRC_H _) _ => wp_decode LD_FULL_SRC_H
  | |- wp (idx LD_DST_H _) _ => wp_decode LD_DST_H
  | |- wp (idx ALU_SRC_H _) _ => wp_decode ALU_SRC_H
  | |- wp (idx CB_REG_H _) _ => wp_decode CB_REG_H
  | |- wp (idx IMM_REG_H _) _ => wp_decode IMM_REG_H
  | |- wp (idx INCDEC_REG_H _) _ => wp_decode INCDEC_REG_H
  | |- wp (idx _ _) _ => apply wp_idx; [idx_bound | intros ? ?]
  | |- wp (Some _) _ => apply wp_ret
  | |- wp (if ?c then _ else _) _ => destruct c
  | |- wp _ _ => eapply wp_mono; [solve [eauto with total] | cbv beta; intros ? ?]
  end.

Ltac wp_total :=
  cbv zeta; repeat wp_step; try assumption; try (unfold wf_fst; cbn [fst]; assumption).

Section Totality.

Variable T : Tables.
Hypothesis HT : tables_sized T.

Lemma h_alu_add_total s val : wf s -> wp (h_alu_add T s val) wf.
Proof. intros Hwf. unfold h_alu_add. wp_total. Qed.

Lemma h_alu_adc_total s val : wf s -> wp (h_alu_adc T s val) wf.
Proof. intros Hwf. unfold h_alu_adc. wp_total. Qed.

Lemma h_alu_sub_total s val : wf s -> wp (h_alu_sub T s val) wf.
Proof. intros Hwf. unfold h_alu_sub. wp_total. Qed.

Lemma h_alu_sbc_total s val : wf s -> wp (h_alu_sbc T s val) wf.
Proof. intros Hwf. unfold h_alu_sbc. wp_total. Qed.

Lemma h_alu_and_total s val : wf s -> wp (h_alu_and T s val) wf.
Proof. intros Hwf. unfold h_alu_and. wp_total. Qed.

Lemma h_alu_xor_total s val : wf s -> wp (h_alu_xor T s val) wf.
Proof. intros Hwf. unfold h_alu_xor. wp_total. Qed.

Lemma h_alu_or_total s val : wf s -> wp (h_alu_or T s val) wf.
Proof. intros Hwf. unfold h_alu_or. wp_total. Qed.

Lemma h_alu_cp_total s val : wf s -> wp (h_alu_cp s val) wf.
Proof. intros Hwf. unfold h_alu_cp. wp_total. Qed.

Lemma h_alu_inc_total s reg : wf s -> is_reg reg -> wp (h_alu_inc T s reg) wf.
Proof. intros Hwf Hreg. unfold is_reg in Hreg. unfold h_alu_inc. wp_total. Qed.

Lemma h_alu_dec_total s reg : wf s -> is_reg reg -> wp (h_alu_dec T s reg) wf.
Proof. intros Hwf Hreg. unfold is_reg in Hreg. unfold h_alu_dec. wp_total. Qed.

Hint Resolve h_alu_add_total h_alu_sub_total : total.

Lemma h_exec_bit_total s val bit : wf s -> wp (h_exec_bit s val bit) wf.
Proof. intros Hwf. unfold h_exec_bit. wp_total. Qed.

Lemma h_exec_daa_total s : wf s -> wp (h_exec_daa T s) wf.
Proof. intros Hwf. unfold h_exec_daa. wp_total. Qed.

Lemma h_exec_add_hl_total s val : wf s -> wp (h_exec_add_hl s val) wf.
Proof. intros Hwf. unfold h_exec_add_hl. wp_total. Qed.

Lemma h_exec_adc_hl_total s val : wf s -> wp (h_exec_adc_hl s val) wf.
Proof. intros Hwf. unfold h_exec_adc_hl. wp_total. Qed.

Lemma h_exec_sbc_hl_total s val : wf s -> wp (h_exec_sbc_hl s val) wf.
Proof. intros Hwf. unfold h_exec_sbc_hl. wp_total. Qed.

Hint Resolve h_exec_daa_total h_exec_bit_total h_exec_add_hl_total
  h_exec_adc_hl_total h_exec_sbc_hl_total h_alu_inc_total h_alu_dec_total : total.

Lemma h_cb_rlc_total s v : wf s -> wp (h_cb_rlc T s v) wf_fst.
Proof. intros Hwf. unfold h_cb_rlc. wp_total. Qed.

Lemma h_cb_rrc_total s v : wf s -> wp (h_cb_rrc T s v) wf_fst.
Proof. intros Hwf. unfold h_cb_rrc. wp_total. Qed.

Lemma h_cb_rl_total s v : wf s -> wp (h_cb_rl T s v) wf_fst.
Proof.
  intros Hwf. unfold h_cb_rl. wp_total.
Qed.

Lemma h_cb_rr_total s v : wf s -> wp (h_cb_rr T s v) wf_fst.
Proof.
  intros Hwf. unfold h_cb_rr. wp_total.
Qed.

Lemma h_cb_sla_total s v : wf s -> wp (h_cb_sla T s v) wf_fst.
Proof.
  intros Hwf. unfold h_cb_sla. wp_total.
Qed.

Lemma h_cb_sra_total s v : wf s -> wp (h_cb_sra T s v) wf_fst.
Proof.
  intros Hwf. unfold h_cb_sra. wp_total.
Qed.

Lemma h_cb_srl_total s v : wf s -> wp (h_cb_srl T s v) wf_fst.
Proof.
  intros Hwf. unfold h_cb_srl. wp_total.
Qed.

Lemma h_cb_sll_total s v : wf s -> wp (h_cb_sll T s v) wf_fst.
Proof.
  intros Hwf. unfold h_cb_sll. wp_total.
Qed.

Lemma cb_apply_total f s reg :
  (forall s v, wf s -> wp (f s v) wf_fst) ->
  wf s -> is_reg reg -> wp (cb_apply f s reg) wf.
Proof.
  intros Hf Hwf Hreg. unfold is_reg in Hreg. unfold cb_apply. wp_total.
  match goal with p : (Z80State * Z)%type, H : wf_fst _ |- _ =>
    destruct p as [s' v']; unfold wf_fst in H; cbn [fst] in H end.
  wp_total.
Qed.

Lemma h_get_pair_total s pair : wf s -> 0 <= pair < 4 -> wp (h_get_pair s pair) is_u16.
Proof.
  intros Hwf Hp.
  assert (pair = 0 \/ pair = 1 \/ pair = 2 \/ pair = 3) as [-> | [-> | [-> | ->]]] by lia;
    cbn [h_get_pair]; wp_total; try apply u16_range.
  by destruct Hwf as (_ & _ & ?).
Qed.

Lemma h_set_pair_total s pair val : wf s -> 0 <= pair < 4 -> wp (h_set_pair s pair val) wf.
Proof.
  intros Hwf Hp.
  assert (pair = 0 \/ pair = 1 \/ pair = 2 \/ pair = 3) as [-> | [-> | [-> | ->]]] by lia;
    cbn [h_set_pair]; wp_total.
  by apply wr_sp_wf.
Qed.

End Totality.

(** ** Totality of the dispatcher *)

#[local] Hint Resolve h_alu_add_total h_alu_adc_total h_alu_sub_total h_alu_sbc_total
  h_alu_and_total h_alu_xor_total h_alu_or_total h_alu_cp_total
  h_alu_inc_total h_alu_dec_total h_exec_daa_total h_exec_bit_total
  h_exec_add_hl_total h_exec_adc_hl_total h_exec_sbc_hl_total
  h_cb_rlc_total h_cb_rrc_total h_cb_rl_total h_cb_rr_total h_cb_sla_total
  h_cb_sra_total h_cb_srl_total h_cb_sll_total cb_apply_total
  h_get_pair_total h_set_pair_total : total.

Lemma h_exec_instruction_total T s op imm :
  tables_sized T -> wf s -> 0 <= op ->
  wp (h_exec_instruction T s op imm) wf.
Proof.
  intros HT Hwf Hop. unfold h_exec_instruction.
  destruct (classify op) as [b|] eqn:E; [|by apply wp_ret].
  apply classify_Some in E; [|done].
  destruct b; unfold_ops.
  - (* LD r, r' *) wp_total.
  - (* LD r, n *) wp_total.
  - (* ALU *)
    cbv zeta. apply wp_bind.
    apply (wp_mono _ (fun _ => True)).
    { destruct (alu_src_idx op <? 7) eqn:Hsrc; [|by apply wp_ret].
      apply Z.ltb_lt in Hsrc. wp_total. done. }
    intros val _.
    assert (alu_op op = 0 \/ alu_op op = 1 \/ alu_op op = 2 \/ alu_op op = 3 \/
            alu_op op = 4 \/ alu_op op = 5 \/ alu_op op = 6 \/ alu_op op = 7)
      as Hsel by quot_lia.
    repeat (destruct Hsel as [-> | Hsel]); try rewrite Hsel; eauto with total.
  - (* INC r *) do 2 wp_step. eauto with total.
  - (* DEC r *) do 2 wp_step. eauto with total.
  - (* RLCA *) wp_total.
  - (* RRCA *) wp_total.
  - (* RLA *) wp_total.
  - (* RRA *) wp_total.
  - (* DAA *) eauto with total.
  - (* CPL *) wp_total.
  - (* SCF *) wp_total.
  - (* CCF *) wp_total.
  - (* NEG *) wp_total.
  - (* NOP *) by apply wp_ret.
  - (* CB rotates and shifts *)
    cbv zeta. do 2 wp_step.
    assert (cb_op op = 0 \/ cb_op op = 1 \/ cb_op op = 2 \/ cb_op op = 3 \/
            cb_op op = 4 \/ cb_op op = 5 \/ cb_op op = 6)
      as Hsel by quot_lia.
    repeat (destruct Hsel as [-> | Hsel]); try rewrite Hsel; eauto with total.
  - (* SLL A *) apply cb_apply_total; eauto with total. cbv; done.
  - (* SLL r *) do 2 wp_step. eauto with total.
  - (* BIT b, r *) cbv zeta. wp_total.
  - (* RES b, r *) cbv zeta. wp_total.
  - (* SET b, r *) cbv zeta. wp_total.
  - (* INC rr / DEC rr *)
    cbv zeta. apply wp_bind.
    eapply wp_mono; [apply h_get_pair_total; [done|quot_lia]|].
    intros v _. apply h_set_pair_total; [done|quot_lia].
  - (* ADD HL, rr *)
    apply wp_bind. eapply wp_mono; [apply h_get_pair_total; [done|quot_lia]|].
    intros v _. eauto with total.
  - (* EX DE, HL *) wp_total.
  - (* LD SP, HL *) wp_total. by apply wr_sp_wf.
  - (* LD rr, nn *) apply h_set_pair_total; [done|quot_lia].
  - (* ADC HL, rr *)
    apply wp_bind. eapply wp_mono; [apply h_get_pair_total; [done|quot_lia]|].
    intros v _. eauto with total.
  - (* SBC HL, rr *)
    apply wp_bind. eapply wp_mono; [apply h_get_pair_total; [done|quot_lia]|].
    intros v _. eauto with total.
Qed.

(** ** Totality of the sequence executor and of the fingerprint *)

Lemma test_vectors_wf : Forall wf h_test_vectors.
Proof.
  repeat constructor; try done; cbn; unfold is_u8, is_u16; lia.
Qed.

Lemma h_exec_seq_total T s ops imms n :
  tables_sized T -> wf s -> is_sequence ops imms n ->
  wp (h_exec_seq T s ops imms n) wf.
Proof.
  intros HT Hwf (Hops & Hn1 & Hn2). unfold h_exec_seq.
  destruct (for_loop_inv (fun _ s => wf s)
              (fun i s => op ← idx ops i; imm ← idx imms i; h_exec_instruction T s op imm)
              (Z.to_nat n) 0 s Hwf) as (s' & Hs' & Hwf').
  - intros j s0 Hj Hwf0.
    assert (wp (op ← idx ops j; imm ← idx imms j; h_exec_instruction T s0 op imm) wf)
      as Hwp; [|exact Hwp].
    apply wp_bind, wp_idx; [lia|]. intros op Hop.
    apply wp_bind, wp_idx; [lia|]. intros imm Himm.
    apply h_exec_instruction_total; [done..|].
    apply (idx_Forall _ _ _ _ Hops) in Hop. unfold is_u16 in Hop. lia.
  - exists s'. done.
Qed.

Lemma wf_regs s :
  wf s ->
  exists a f b c d e h l,
    r s = [a; f; b; c; d; e; h; l] /\
    is_u8 a /\ is_u8 f /\ is_u8 b /\ is_u8 c /\ is_u8 d /\ is_u8 e /\ is_u8 h /\ is_u8 l.
Proof.
  intros (Hlen & Hall & _). destruct s as [rs p]. cbn [r] in *.
  do 8 (destruct rs as [|? rs]; [discriminate|]).
  destruct rs; [|discriminate].
  repeat match goal with H : Forall _ (_ :: _) |- _ => apply Forall_cons in H as [? H] end.
  do 8 eexists. split; [reflexivity|]. tauto.
Qed.

(** One iteration of [h_fingerprint] writes the register image of the final
    state into the 10 bytes of its segment and nothing else. *)
Lemma h_fingerprint_body_spec T ops imms n v fp s0 s :
  idx h_test_vectors v = Some s0 ->
  h_exec_seq T s0 ops imms n = Some s ->
  wf s -> length fp = 80%nat ->
  exists fp',
    h_fingerprint_body T ops imms n v fp = Some fp' /\
    length fp' = 80%nat /\
    (forall j, 0 <= j < 10 -> idx fp' (v * FP_SIZE + j) = idx (reg_image s) j) /\
    (forall i, ~ (v * FP_SIZE <= i < v * FP_SIZE + 10) -> idx fp' i = idx fp i).
Proof.
  intros Hv Hrun Hwf Hlen.
  apply idx_Some_bound in Hv as Hvb. change (Z.of_nat (length h_test_vectors)) with 8 in Hvb.
  unfold h_fingerprint_body. rewrite Hv. cbn [mbind option_bind]. rewrite Hrun.
  cbn [mbind option_bind].
  destruct (wf_regs s Hwf) as (a & f & b & c & d & e & h & l & Hr & Ha & Hf & Hb & Hc & Hd & He & Hh & Hl).
  unfold rd, reg_image. rewrite Hr. unfold FP_SIZE.
  change (idx [a; f; b; c; d; e; h; l] REG_A) with (Some a).
  change (idx [a; f; b; c; d; e; h; l] REG_F) with (Some f).
  change (idx [a; f; b; c; d; e; h; l] REG_B) with (Some b).
  change (idx [a; f; b; c; d; e; h; l] REG_C) with (Some c).
  change (idx [a; f; b; c; d; e; h; l] REG_D) with (Some d).
  change (idx [a; f; b; c; d; e; h; l] REG_E) with (Some e).
  change (idx [a; f; b; c; d; e; h; l] REG_H) with (Some h).
  change (idx [a; f; b; c; d; e; h; l] REG_L) with (Some l).
  cbn [mbind option_bind].
  repeat (rewrite arr_set_Some by (rewrite ?length_insert; lia); cbn [mbind option_bind]).
  eexists. split; [reflexivity|]. split; [by rewrite !length_insert|]. split.
  - intros j Hj. rewrite !(u8_small a), !(u8_small f), !(u8_small b), !(u8_small c),
      !(u8_small d), !(u8_small e), !(u8_small h), !(u8_small l) by done.
    rewrite !(u8_small (u8 _)) by apply u8_range.
    assert (j = 0 \/ j = 1 \/ j = 2 \/ j = 3 \/ j = 4 \/ j = 5 \/ j = 6 \/ j = 7 \/
            j = 8 \/ j = 9) as Hcases by lia.
    repeat (destruct Hcases as [-> | Hcases]); try subst j;
      rewrite ?idx_insert_ne by lia;
      (rewrite idx_insert_eq by (rewrite ?length_insert; lia)); reflexivity.
  - intros i Hi. rewrite !idx_insert_ne by lia. reflexivity.
Qed.

Lemma h_fingerprint_inv T ops imms n fp :
  tables_sized T -> is_sequence ops imms n -> length fp = 80%nat ->
  exists d, h_fingerprint T ops imms n fp = Some d /\ fp_inv T ops imms n 8 d.
Proof.
  intros HT Hseq Hlen. unfold h_fingerprint.
  apply (for_loop_inv (fp_inv T ops imms n) (h_fingerprint_body T ops imms n) 8 0 fp).
  - split; [done|]. intros v Hv. lia.
  - intros v fp0 Hv [Hlen0 Hseg].
    destruct (idx_is_Some h_test_vectors v) as [s0 Hs0].
    { change (Z.of_nat (length h_test_vectors)) with 8. lia. }
    assert (wf s0) as Hwf0 by (eapply idx_Forall; [apply test_vectors_wf|done]).
    destruct (h_exec_seq_total T s0 ops imms n HT Hwf0 Hseq) as (s & Hrun & Hwf).
    destruct (h_fingerprint_body_spec T ops imms n v fp0 s0 s Hs0 Hrun Hwf Hlen0)
      as (fp' & Hbody & Hlen' & Hnew & Hold).
    exists fp'. split; [done|]. split; [done|].
    intros v' Hv'. destruct (decide (v' = v)) as [->|Hne].
    + exists s0, s. done.
    + destruct (Hseg v') as (s0' & s' & H1 & H2 & H3 & H4); [lia|].
      exists s0', s'. split; [done|]. split; [done|]. split; [done|].
      intros j Hj. rewrite Hold; [by apply H4|]. unfold FP_SIZE. lia.
Qed.

Lemma fp_inv_unique T ops imms n d1 d2 :
  fp_inv T ops imms n 8 d1 -> fp_inv T ops imms n 8 d2 -> d1 = d2.
Proof.
  intros [L1 H1] [L2 H2]. apply (list_eq_idx _ _ 80); [done..|].
  intros i Hi.
  assert (i = (i / 10) * FP_SIZE + i mod 10) as Hsplit by (unfold FP_SIZE; Z.to_euclidean_division_equations; lia).
  assert (0 <= i / 10 < 8) as Hv by (Z.to_euclidean_division_equations; lia).
  assert (0 <= i mod 10 < 10) as Hj by (apply Z.mod_pos_bound; lia).
  destruct (H1 (i / 10) Hv) as (s0 & s & E0 & E1 & _ & E2).
  destruct (H2 (i / 10) Hv) as (s0' & s' & E0' & E1' & _ & E2').
  rewrite E0 in E0'. injection E0' as <-. rewrite E1 in E1'. injection E1' as <-.
  rewrite Hsplit, E2, E2' by done. reflexivity.
Qed.

Lemma reg_image_u8 s : wf s -> Forall is_u8 (reg_image s).
Proof.
  intros (_ & Hall & _). unfold reg_image. apply Forall_app. split; [done|].
  repeat constructor; apply u8_range.
Qed.

Lemma fp_inv_u8 T ops imms n d : fp_inv T ops imms n 8 d -> Forall is_u8 d.
Proof.
  intros [L H]. apply Forall_lookup. intros k x Hk.
  apply lookup_lt_Some in Hk as Hlt.
  assert (idx d (Z.of_nat k) = Some x) as Hidx.
  { unfold idx. destruct (Z.leb_spec 0 (Z.of_nat k)); [|lia]. by rewrite Nat2Z.id. }
  set (i := Z.of_nat k) in *.
  assert (i = (i / 10) * FP_SIZE + i mod 10) as Hsplit by (unfold FP_SIZE; Z.to_euclidean_division_equations; lia).
  assert (0 <= i / 10 < 8) as Hv by (Z.to_euclidean_division_equations; lia).
  assert (0 <= i mod 10 < 10) as Hj by (apply Z.mod_pos_bound; lia).
  destruct (H (i / 10) Hv) as (s0 & s & _ & _ & Hwf & E).
  rewrite Hsplit, E in Hidx by done.
  eapply idx_Forall; [by apply reg_image_u8|done].
Qed.

Lemma h_exec_seq_ext T s ops imms ops' imms' n :
  same_sequence ops imms ops' imms' n ->
  h_exec_seq T s ops imms n = h_exec_seq T s ops' imms' n.
Proof.
  intros Hsame. unfold h_exec_seq. apply for_loop_ext.
  intros j st0 Hj. destruct (Hsame j) as [-> ->]; [lia|]. reflexivity.
Qed.

Lemma h_fingerprint_ext T ops imms ops' imms' n fp :
  same_sequence ops imms ops' imms' n ->
  h_fingerprint T ops imms n fp = h_fingerprint T ops' imms' n fp.
Proof.
  intros Hsame. unfold h_fingerprint. apply for_loop_ext.
  intros v fp0 _. unfold h_fingerprint_body.
  destruct (idx h_test_vectors v) as [s0|]; [|reflexivity]. cbn [mbind option_bind].
  by rewrite (h_exec_seq_ext T s0 ops imms ops' imms' n Hsame).
Qed.

(** C4. [h_fingerprint] is a deterministic function of the instruction
    sequence: two invocations on the same sequence of [n] opcodes and
    immediates, wherever the sequence is held and whatever the output buffer
    held before, return one and the same 80-byte digest; the digest is,
    segment by segment, the register image of the state that the sequence
    leaves from the fixed test vector; the function returns nothing but the
    digest buffer: the tables, the test vectors and the sequence are only
    read. *)
Theorem h_fingerprint_deterministic ops imms ops' imms' n fp1 fp2 :
  is_sequence ops imms n -> same_sequence ops imms ops' imms' n ->
  length fp1 = 80%nat -> length fp2 = 80%nat ->
  exists d,
    h_fingerprint tables ops imms n fp1 = Some d /\
    h_fingerprint tables ops' imms' n fp2 = Some d /\
    length d = 80%nat /\ Forall is_u8 d /\
    forall v, 0 <= v < NUM_VECTORS ->
      exists s0 s,
        idx h_test_vectors v = Some s0 /\
        h_exec_seq tables s0 ops imms n = Some s /\
        forall j, 0 <= j < FP_SIZE -> idx d (v * FP_SIZE + j) = idx (reg_image s) j.
Proof.
  intros Hseq Hsame L1 L2.
  rewrite <- (h_fingerprint_ext tables ops imms ops' imms' n fp2 Hsame).
  destruct (h_fingerprint_inv tables ops imms n fp1 tables_sized_tables Hseq L1)
    as (d1 & E1 & I1).
  destruct (h_fingerprint_inv tables ops imms n fp2 tables_sized_tables Hseq L2)
    as (d2 & E2 & I2).
  assert (d2 = d1) as -> by (eapply fp_inv_unique; eassumption).
  exists d1. split; [done|]. split; [done|]. split; [apply I1|].
  split; [by eapply fp_inv_u8|].
  intros v Hv. destruct I1 as [_ I1]. destruct (I1 v Hv) as (s0 & s & H1 & H2 & _ & H3).
  exists s0, s. done.
Qed.

Lemma h_fingerprint_deterministic_witness :
  exists d,
    h_fingerprint tables [49; 120] [5; 0] 2 (replicate 80 0) = Some d /\
    h_fingerprint tables [49; 120; 7] [5; 0; 9] 2 (replicate 80 255) = Some d /\
    length d = 80%nat /\ Forall is_u8 d /\
    forall v, 0 <= v < NUM_VECTORS ->
      exists s0 s,
        idx h_test_vectors v = Some s0 /\
        h_exec_seq tables s0 [49; 120] [5; 0] 2 = Some s /\
        forall j, 0 <= j < FP_SIZE -> idx d (v * FP_SIZE + j) = idx (reg_image s) j.
Proof.
  apply (h_fingerprint_deterministic [49; 120] [5; 0] [49; 120; 7] [5; 0; 9] 2
           (replicate 80 0) (replicate 80 255)).
  - split; [|split; cbn; lia]. repeat constructor; unfold is_u16; lia.
  - intros i Hi. assert (i = 0 \/ i = 1) as [-> | ->] by lia; split; reflexivity.
  - reflexivity.
  - reflexivity.
Defined.

(** ** Opcodes outside the valid range *)

(** C10. For every state and every opcode from [OP_COUNT] = 394 up to the
    largest 16-bit value, [h_exec_instruction] returns the state unchanged:
    the opcode passes every test of the dispatcher. *)
Theorem h_exec_instruction_out_of_range T s op imm :
  OP_COUNT <= op <= 65535 ->
  classify op = None /\ h_exec_instruction T s op imm = Some s.
Proof.
  intros Hop.
  assert (classify op = None) as E by (apply classify_None; unfold OP_COUNT in *; lia).
  split; [exact E|]. unfold h_exec_instruction. by rewrite E.
Qed.

Lemma h_exec_instruction_out_of_range_witness :
  classify 65535 = None /\
  h_exec_instruction tables (mkState [1; 2; 3; 4; 5; 6; 7; 8] 9) 65535 10
    = Some (mkState [1; 2; 3; 4; 5; 6; 7; 8] 9).
Proof.
  apply (h_exec_instruction_out_of_range tables (mkState [1; 2; 3; 4; 5; 6; 7; 8] 9) 65535 10).
  unfold OP_COUNT. lia.
Defined.

(** ** NOP *)

Lemma h_exec_instruction_nop T s imm : h_exec_instruction T s OP_NOP imm = Some s.
Proof. reflexivity. Qed.

Lemma idx_take {A} (l : list A) (k : nat) i :
  0 <= i < Z.of_nat k -> idx (take k l) i = idx l i.
Proof.
  intros Hi. unfold idx. destruct (Z.leb_spec 0 i); [|done].
  apply lookup_take_lt. lia.
Qed.

(** C9. NOP (opcode 143) leaves every state as it is, the 8 registers
    (the flags among them) and [sp]; and for the sequence [NOP] the first
    segment of the fingerprint, the one of test vector 0, is the 10 zero
    bytes of that vector. *)
Theorem nop_unchanged T s imm fp :
  length fp = 80%nat ->
  h_exec_instruction T s OP_NOP imm = Some s /\
  exists d,
    h_fingerprint tables [OP_NOP] [imm] 1 fp = Some d /\
    take 10 d = [0; 0; 0; 0; 0; 0; 0; 0; 0; 0] /\
    Some (take 10 d) = reg_image <$> idx h_test_vectors 0.
Proof.
  intros Hlen. split; [apply h_exec_instruction_nop|].
  assert (is_sequence [OP_NOP] [imm] 1) as Hseq.
  { split; [|split; cbn; lia]. repeat constructor; unfold is_u16, OP_NOP; lia. }
  destruct (h_fingerprint_inv tables [OP_NOP] [imm] 1 fp tables_sized_tables Hseq Hlen)
    as (d & Hd & Hlen' & Hseg).
  exists d. split; [done|].
  destruct (Hseg 0) as (s0 & s1 & Hs0 & Hrun & _ & Hent); [lia|].
  injection Hs0 as <-. cbn in Hrun. injection Hrun as <-.
  assert (take 10 d = [0; 0; 0; 0; 0; 0; 0; 0; 0; 0]) as Htake.
  { apply (list_eq_idx _ _ 10); [rewrite length_take; lia|done|].
    intros j Hj. rewrite idx_take by done.
    specialize (Hent j Hj). rewrite Z.mul_0_l, Z.add_0_l in Hent. exact Hent. }
  split; [exact Htake|]. rewrite Htake. reflexivity.
Qed.

Lemma nop_unchanged_witness :
  h_exec_instruction tables (mkState [1; 2; 3; 4; 5; 6; 7; 8] 9) OP_NOP 7
    = Some (mkState [1; 2; 3; 4; 5; 6; 7; 8] 9) /\
  exists d,
    h_fingerprint tables [OP_NOP] [7] 1 (replicate 80 255) = Some d /\
    take 10 d = [0; 0; 0; 0; 0; 0; 0; 0; 0; 0] /\
    Some (take 10 d) = reg_image <$> idx h_test_vectors 0.
Proof.
  apply (nop_unchanged tables (mkState [1; 2; 3; 4; 5; 6; 7; 8] 9) 7 (replicate 80 255)).
  reflexivity.
Defined.

(** ** Opcodes that read the immediate *)

(** C1, as stated, fails: opcode 63 (ADD A,n, the ALU add with source
    index 7) is outside 49..55 and 382..385 and reads the immediate. *)
Lemma imm_ignored_counterexample :
  ~ (forall s op i1 i2,
       wf s -> is_u16 op -> is_u16 i1 -> is_u16 i2 ->
       ~ (49 <= op <= 55) -> ~ (382 <= op <= 385) ->
       h_exec_instruction tables s op i1 = h_exec_instruction tables s op i2).
Proof.
  intros H.
  specialize (H (mkState [0; 0; 0; 0; 0; 0; 0; 0] 0) 63 0 1).
  assert (h_exec_instruction tables (mkState [0; 0; 0; 0; 0; 0; 0; 0] 0) 63 0
          <> h_exec_instruction tables (mkState [0; 0; 0; 0; 0; 0; 0; 0] 0) 63 1)
    as Hne by (vm_compute; discriminate).
  apply Hne, H; unfold is_u16; try lia.
  repeat split; try done. repeat constructor; unfold is_u8; lia.
Qed.

(** C1, amended. For every state and every opcode outside the immediate
    loads (49..55), the 16-bit immediate loads (382..385) and the ALU
    opcodes whose source index is 7 (63, 71, ..., 119: the ALU operations on
    an immediate operand), the result of [h_exec_instruction] does not depend
    on the immediate. *)
Theorem imm_ignored T s op i1 i2 :
  0 <= op ->
  ~ (49 <= op <= 55) -> ~ (382 <= op <= 385) ->
  ~ (56 <= op <= 119 /\ (op - 56) mod 8 = 7) ->
  h_exec_instruction T s op i1 = h_exec_instruction T s op i2.
Proof.
  intros Hop H1 H2 H3. unfold h_exec_instruction.
  destruct (classify op) as [b|] eqn:E; [|reflexivity].
  apply classify_Some in E; [|done].
  destruct b; try reflexivity; unfold_ops.
  - lia.
  - assert ((alu_src_idx op <? 7) = true) as ->; [|reflexivity].
    apply Z.ltb_lt. unfold alu_src_idx. Z.to_euclidean_division_equations. lia.
  - lia.
Qed.

Lemma imm_ignored_witness :
  h_exec_instruction tables (mkState [1; 2; 3; 4; 5; 6; 7; 8] 9) 56 0
  = h_exec_instruction tables (mkState [1; 2; 3; 4; 5; 6; 7; 8] 9) 56 65535.
Proof.
  apply (imm_ignored tables (mkState [1; 2; 3; 4; 5; 6; 7; 8] 9) 56 0 65535); try lia.
  intros [_ H]. vm_compute in H. discriminate H.
Defined.

(** ** The dispatcher on the valid range *)

Lemma access_ok_intro l i :
  Forall is_reg l -> 0 <= i < Z.of_nat (length l) -> access_ok (l, i).
Proof.
  intros Hall Hi. split; [done|]. cbn [fst snd].
  destruct (idx_is_Some l i Hi) as [reg Hreg]. exists reg. split; [done|].
  by eapply idx_Forall.
Qed.

Lemma decode_access_ok op b :
  0 <= op -> classify op = Some b -> Forall access_ok (decode_access b op).
Proof.
  intros Hop E. apply classify_Some in E; [|done].
  pose proof decode_tables_regs as (R1 & R2 & R3 & R4 & R5 & R6).
  destruct b; cbn [decode_access]; try by constructor.
  all: try destruct (alu_src_idx op <? 7) eqn:Hsrc; try apply Z.ltb_lt in Hsrc.
  all: repeat (apply Forall_cons; split); try (by apply Forall_nil).
  all: apply access_ok_intro; [done|decode_bound].
Qed.

Lemma switch_selector_ok op b sel n :
  0 <= op -> classify op = Some b ->
  switch_selector b op = Some (sel, n) -> 0 <= sel < n.
Proof.
  intros Hop E. apply classify_Some in E; [|done].
  destruct b; cbn [switch_selector]; intros [= <- <-]; quot_lia.
Qed.

(** C3. For every opcode in [0, OP_COUNT): the ordered tests of the
    dispatcher select a branch, and it is the one branch whose interval
    contains the opcode; the selector of the switch of that branch is among
    its case labels, so one engine operation runs; every decode-table index
    computed from the opcode is within the bounds of its table; and on every
    well-formed state the instruction runs without any access out of
    bounds and leaves a well-formed state. *)
Theorem dispatch_valid_range op :
  0 <= op < OP_COUNT ->
  exists b,
    classify op = Some b /\
    (forall b', branch_lo b' <= op < branch_hi b' <-> b' = b) /\
    (forall sel n, switch_selector b op = Some (sel, n) -> 0 <= sel < n) /\
    Forall access_ok (decode_access b op) /\
    (forall T s imm, tables_sized T -> wf s ->
       exists s', h_exec_instruction T s op imm = Some s' /\ wf s').
Proof.
  intros Hop.
  destruct (classify op) as [b|] eqn:E.
  2: { apply classify_None in E; lia. }
  exists b. split; [done|]. split.
  { intros b'. rewrite <- classify_Some by lia. rewrite E. split; congruence. }
  split. { intros sel n. apply switch_selector_ok; [lia|done]. }
  split. { apply decode_access_ok; [lia|done]. }
  intros T s imm HT Hwf.
  apply (h_exec_instruction_total T s op imm HT Hwf). lia.
Qed.

Lemma dispatch_valid_range_witness :
  exists b,
    classify 199 = Some b /\
    (forall b', branch_lo b' <= 199 < branch_hi b' <-> b' = b) /\
    (forall sel n, switch_selector b 199 = Some (sel, n) -> 0 <= sel < n) /\
    Forall access_ok (decode_access b 199) /\
    (forall T s imm, tables_sized T -> wf s ->
       exists s', h_exec_instruction T s 199 imm = Some s' /\ wf s').
Proof.
  apply (dispatch_valid_range 199). unfold OP_COUNT. lia.
Defined.

(** ** Reading a state after a chain of register writes *)

Lemma wr_is_Some s i v : wf s -> is_reg i -> exists s', wr s i v = Some s' /\ wf s'.
Proof.
  intros Hwf Hi. apply (wp_wr s i v (fun s' => wf s')); [done|done|]. auto.
Qed.

Lemma wr_u8 s i v : wr s i (u8 v) = wr s i v.
Proof.
  unfold wr, arr_set. destruct ((0 <=? i) && (i <? Z.of_nat (length (r s)))); [|done].
  cbn. do 3 f_equal. unfold u8. apply Z.mod_mod. lia.
Qed.

Ltac rd_simpl :=
  repeat match goal with
  | H : wr ?s ?i ?v = Some ?s' |- context [sp ?s'] =>
      rewrite (wr_sp_eq s i v s' H)
  | H : wr ?s ?i ?v = Some ?s' |- context [rd ?s' ?i] =>
      rewrite (wr_rd_eq s i v s' H)
  | H : wr ?s ?i ?v = Some ?s' |- context [rd ?s' ?j] =>
      rewrite (wr_rd_ne s i v s' j H) by (first [assumption | congruence | reg_bound])
  end.

(** Well-formedness of a state given by its bytes. *)
Ltac wf_concrete :=
  split; [reflexivity | split; [repeat constructor; unfold is_u8; lia | unfold is_u16; cbn; lia]].

(** ** CP *)

Lemma h_alu_cp_eq s val :
  h_alu_cp s val = a ← rd s REG_A; fl ← cp_flags a val; wr s REG_F fl.
Proof.
  unfold h_alu_cp, cp_flags. destruct (rd s REG_A) as [a|]; [|reflexivity].
  cbn [mbind option_bind]. cbv zeta.
  destruct (idx h_halfcarry_sub _) as [hc|]; [|reflexivity]. cbn [mbind option_bind].
  destruct (idx h_overflow_sub _) as [ov|]; [|reflexivity]. cbn [mbind option_bind].
  by rewrite wr_u8.
Qed.

Lemma cp_flags_check :
  all_u8_2 (fun a v =>
    match cp_flags a v with
    | Some fl =>
        (fl .& (FLAG_3 .| FLAG_5) =? v .& (FLAG_3 .| FLAG_5)) &&
        (fl <? 256) && (0 <=? fl) &&
        (if a =? v
         then (fl .& FLAG_Z =? FLAG_Z) && (fl .& FLAG_C =? 0) && (fl .& FLAG_N =? FLAG_N)
         else true)
    | None => false
    end) = true.
Proof. vm_compute. reflexivity. Qed.

(** C6. On every state and for every 8-bit operand [v], CP does not fail
    and changes nothing but F: the accumulator, the other registers and [sp]
    are as before; bits 3 and 5 of the new flags are those of the operand;
    and when [v] equals the accumulator, the zero flag is set, the carry
    flag is clear and the negate flag is set. *)
Theorem h_alu_cp_spec s a v :
  wf s -> is_u8 v -> rd s REG_A = Some a ->
  exists s' f',
    h_alu_cp s v = Some s' /\
    rd s' REG_F = Some f' /\
    rd s' REG_A = Some a /\
    (forall j, j <> REG_F -> rd s' j = rd s j) /\
    sp s' = sp s /\
    f' .& (FLAG_3 .| FLAG_5) = v .& (FLAG_3 .| FLAG_5) /\
    (v = a -> f' .& FLAG_Z = FLAG_Z /\ f' .& FLAG_C = 0 /\ f' .& FLAG_N = FLAG_N).
Proof.
  intros Hwf Hv Ha.
  assert (is_u8 a) as Hab by (by eapply rd_is_u8).
  pose proof (all_u8_2_spec _ cp_flags_check a v Hab Hv) as Hc. cbv beta in Hc.
  destruct (cp_flags a v) as [fl|] eqn:Hfl; [|discriminate].
  repeat (apply andb_prop in Hc as [Hc ?]).
  rewrite h_alu_cp_eq, Ha. cbn [mbind option_bind]. rewrite Hfl. cbn [mbind option_bind].
  destruct (wr_is_Some s REG_F fl Hwf) as (s' & Hw & _); [cbv; done|].
  exists s', fl. split; [done|].
  assert (u8 fl = fl) as Hu by (apply u8_small; unfold is_u8; lia).
  split; [by rd_simpl; rewrite Hu|].
  split; [by rd_simpl|].
  split; [intros j Hj; by rd_simpl|].
  split; [by rd_simpl|].
  split; [lia|].
  intros ->. rewrite Z.eqb_refl in *.
  match goal with H : _ && _ && _ = true |- _ =>
    apply andb_prop in H as [H ?]; apply andb_prop in H as [? ?] end.
  lia.
Qed.

Lemma h_alu_cp_spec_witness :
  exists s' f',
    h_alu_cp (mkState [0x3C; 0xFF; 1; 2; 3; 4; 5; 6] 0x1234) 0x3C = Some s' /\
    rd s' REG_F = Some f' /\
    rd s' REG_A = Some 0x3C /\
    (forall j, j <> REG_F -> rd s' j = rd (mkState [0x3C; 0xFF; 1; 2; 3; 4; 5; 6] 0x1234) j) /\
    sp s' = sp (mkState [0x3C; 0xFF; 1; 2; 3; 4; 5; 6] 0x1234) /\
    f' .& (FLAG_3 .| FLAG_5) = 0x3C .& (FLAG_3 .| FLAG_5) /\
    (0x3C = 0x3C -> f' .& FLAG_Z = FLAG_Z /\ f' .& FLAG_C = 0 /\ f' .& FLAG_N = FLAG_N).
Proof.
  apply (h_alu_cp_spec (mkState [0x3C; 0xFF; 1; 2; 3; 4; 5; 6] 0x1234) 0x3C 0x3C).
  - wf_concrete.
  - unfold is_u8. lia.
  - reflexivity.
Defined.

(** ** Half-carry and overflow of the 8-bit add and subtract *)

Lemma h_alu_add_eq T s val :
  h_alu_add T s val =
    a ← rd s REG_A; s1 ← wr s REG_A (u16 (a + val));
    fl ← add_flags T a val; wr s1 REG_F fl.
Proof.
  unfold h_alu_add, add_flags. destruct (rd s REG_A) as [a|]; [|reflexivity].
  cbn [mbind option_bind]. cbv zeta.
  destruct (wr s REG_A _) as [s1|] eqn:Hw; [|reflexivity]. cbn [mbind option_bind].
  destruct (idx h_halfcarry_add _) as [hc|]; [|reflexivity]. cbn [mbind option_bind].
  destruct (idx h_overflow_add _) as [ov|]; [|reflexivity]. cbn [mbind option_bind].
  rd_simpl. cbn [mbind option_bind].
  destruct (idx (h_sz53 T) _) as [sz|]; [|reflexivity]. cbn [mbind option_bind].
  by rewrite wr_u8.
Qed.

Lemma h_alu_sub_eq T s val :
  h_alu_sub T s val =
    a ← rd s REG_A; s1 ← wr s REG_A (u16 (a - val));
    fl ← sub_flags T a val; wr s1 REG_F fl.
Proof.
  unfold h_alu_sub, sub_flags. destruct (rd s REG_A) as [a|]; [|reflexivity].
  cbn [mbind option_bind]. cbv zeta.
  destruct (wr s REG_A _) as [s1|] eqn:Hw; [|reflexivity]. cbn [mbind option_bind].
  destruct (idx h_halfcarry_sub _) as [hc|]; [|reflexivity]. cbn [mbind option_bind].
  destruct (idx h_overflow_sub _) as [ov|]; [|reflexivity]. cbn [mbind option_bind].
  rd_simpl. cbn [mbind option_bind].
  destruct (idx (h_sz53 T) _) as [sz|]; [|reflexivity]. cbn [mbind option_bind].
  by rewrite wr_u8.
Qed.

Lemma add_flags_check :
  all_u8_2 (fun a b =>
    match add_flags tables a b with
    | Some fl =>
        eqb (Z.testbit fl 4) (0x0F <? (a .& 0x0F) + (b .& 0x0F)) &&
        eqb (Z.testbit fl 2)
            (eqb (Z.testbit a 7) (Z.testbit b 7) &&
             negb (eqb (Z.testbit (u8 (a + b)) 7) (Z.testbit a 7))) &&
        eqb (Z.testbit fl 2)
            (negb ((-128 <=? signed8 a + signed8 b) && (signed8 a + signed8 b <=? 127)))
    | None => false
    end) = true.
Proof. vm_compute. reflexivity. Qed.

Lemma sub_flags_check :
  all_u8_2 (fun a b =>
    match sub_flags tables a b with
    | Some fl =>
        eqb (Z.testbit fl 4) ((a .& 0x0F) <? (b .& 0x0F)) &&
        eqb (Z.testbit fl 2)
            (negb ((-128 <=? signed8 a - signed8 b) && (signed8 a - signed8 b <=? 127)))
    | None => false
    end) = true.
Proof. vm_compute. reflexivity. Qed.

Lemma add_flags_u8 T a val fl : add_flags T a val = Some fl -> u8 fl = fl.
Proof.
  unfold add_flags. cbv zeta. intros H.
  destruct (idx h_halfcarry_add _); [|discriminate]. cbn [mbind option_bind] in H.
  destruct (idx h_overflow_add _); [|discriminate]. cbn [mbind option_bind] in H.
  destruct (idx (h_sz53 T) _); [|discriminate]. cbn [mbind option_bind] in H.
  injection H as <-. apply u8_small, u8_range.
Qed.

Lemma sub_flags_u8 T a val fl : sub_flags T a val = Some fl -> u8 fl = fl.
Proof.
  unfold sub_flags. cbv zeta. intros H.
  destruct (idx h_halfcarry_sub _); [|discriminate]. cbn [mbind option_bind] in H.
  destruct (idx h_overflow_sub _); [|discriminate]. cbn [mbind option_bind] in H.
  destruct (idx (h_sz53 T) _); [|discriminate]. cbn [mbind option_bind] in H.
  injection H as <-. apply u8_small, u8_range.
Qed.

(** C2. For all 8-bit [a] and [b], on a state whose accumulator is [a]:
    after the 8-bit add with operand [b], the half-carry flag (bit 4 of F)
    is set iff [(a & 0x0F) + (b & 0x0F) > 0x0F], and the overflow flag (bit 2
    of F) is set iff [a] and [b] have equal sign bits and the sign bit of the
    result differs, that is iff the signed sum leaves [-128, 127]; after the
    8-bit sub, the half-carry flag is set iff [(a & 0x0F) < (b & 0x0F)] and
    the overflow flag iff the signed difference leaves [-128, 127]. *)
Theorem halfcarry_overflow_spec s a b :
  wf s -> is_u8 b -> rd s REG_A = Some a ->
  (exists s' f',
     h_alu_add tables s b = Some s' /\ rd s' REG_F = Some f' /\
     (Z.testbit f' 4 = true <-> (a .& 0x0F) + (b .& 0x0F) > 0x0F) /\
     (Z.testbit f' 2 = true <->
        Z.testbit a 7 = Z.testbit b 7 /\ Z.testbit (u8 (a + b)) 7 <> Z.testbit a 7) /\
     (Z.testbit f' 2 = true <-> ~ (-128 <= signed8 a + signed8 b <= 127))) /\
  (exists s' f',
     h_alu_sub tables s b = Some s' /\ rd s' REG_F = Some f' /\
     (Z.testbit f' 4 = true <-> (a .& 0x0F) < (b .& 0x0F)) /\
     (Z.testbit f' 2 = true <-> ~ (-128 <= signed8 a - signed8 b <= 127))).
Proof.
  intros Hwf Hb Ha.
  assert (is_u8 a) as Hab by (by eapply rd_is_u8).
  split.
  - pose proof (all_u8_2_spec _ add_flags_check a b Hab Hb) as Hc. cbv beta in Hc.
    destruct (add_flags tables a b) as [fl|] eqn:Hfl; [|discriminate].
    apply andb_prop in Hc as [Hc C3]. apply andb_prop in Hc as [C1 C2].
    apply eqb_prop in C1, C2, C3.
    rewrite h_alu_add_eq, Ha. cbn [mbind option_bind].
    destruct (wr_is_Some s REG_A (u16 (a + b)) Hwf) as (s1 & Hw1 & Hwf1); [cbv; done|].
    rewrite Hw1. cbn [mbind option_bind]. rewrite Hfl. cbn [mbind option_bind].
    destruct (wr_is_Some s1 REG_F fl Hwf1) as (s2 & Hw2 & _); [cbv; done|].
    exists s2, fl. split; [done|].
    split; [rd_simpl; by rewrite (add_flags_u8 _ _ _ _ Hfl)|].
    split; [rewrite C1; rewrite Z.ltb_lt; lia|].
    split.
    + rewrite C2. rewrite andb_true_iff, negb_true_iff, eqb_true_iff, eqb_false_iff. done.
    + rewrite C3. rewrite negb_true_iff, andb_false_iff, Z.leb_gt, Z.leb_gt. lia.
  - pose proof (all_u8_2_spec _ sub_flags_check a b Hab Hb) as Hc. cbv beta in Hc.
    destruct (sub_flags tables a b) as [fl|] eqn:Hfl; [|discriminate].
    apply andb_prop in Hc as [C1 C2].
    apply eqb_prop in C1, C2.
    rewrite h_alu_sub_eq, Ha. cbn [mbind option_bind].
    destruct (wr_is_Some s REG_A (u16 (a - b)) Hwf) as (s1 & Hw1 & Hwf1); [cbv; done|].
    rewrite Hw1. cbn [mbind option_bind]. rewrite Hfl. cbn [mbind option_bind].
    destruct (wr_is_Some s1 REG_F fl Hwf1) as (s2 & Hw2 & _); [cbv; done|].
    exists s2, fl. split; [done|].
    split; [rd_simpl; by rewrite (sub_flags_u8 _ _ _ _ Hfl)|].
    split; [rewrite C1; rewrite Z.ltb_lt; lia|].
    rewrite C2. rewrite negb_true_iff, andb_false_iff, Z.leb_gt, Z.leb_gt. lia.
Qed.

Lemma halfcarry_overflow_spec_witness :
  (exists s' f',
     h_alu_add tables (mkState [0x7F; 0; 1; 2; 3; 4; 5; 6] 0x1234) 0x01 = Some s' /\
     rd s' REG_F = Some f' /\
     (Z.testbit f' 4 = true <-> (0x7F .& 0x0F) + (0x01 .& 0x0F) > 0x0F) /\
     (Z.testbit f' 2 = true <->
        Z.testbit 0x7F 7 = Z.testbit 0x01 7 /\
        Z.testbit (u8 (0x7F + 0x01)) 7 <> Z.testbit 0x7F 7) /\
     (Z.testbit f' 2 = true <-> ~ (-128 <= signed8 0x7F + signed8 0x01 <= 127))) /\
  (exists s' f',
     h_alu_sub tables (mkState [0x7F; 0; 1; 2; 3; 4; 5; 6] 0x1234) 0x01 = Some s' /\
     rd s' REG_F = Some f' /\
     (Z.testbit f' 4 = true <-> (0x7F .& 0x0F) < (0x01 .& 0x0F)) /\
     (Z.testbit f' 2 = true <-> ~ (-128 <= signed8 0x7F - signed8 0x01 <= 127))).
Proof.
  apply (halfcarry_overflow_spec (mkState [0x7F; 0; 1; 2; 3; 4; 5; 6] 0x1234) 0x7F 0x01).
  - wf_concrete.
  - unfold is_u8. lia.
  - reflexivity.
Defined.

(** ** INC and DEC of an 8-bit register *)

Lemma h_alu_inc_eq T s reg x f :
  reg <> REG_F -> rd s reg = Some x -> rd s REG_F = Some f ->
  h_alu_inc T s reg =
    s1 ← wr s reg (x + 1); fl ← inc_flags T f x; wr s1 REG_F fl.
Proof.
  intros Hne Hx Hf. unfold h_alu_inc, inc_flags. rewrite Hx. cbn [mbind option_bind].
  destruct (wr s reg (x + 1)) as [s1|] eqn:Hw; [|reflexivity]. cbn [mbind option_bind].
  rd_simpl. rewrite Hf. cbn [mbind option_bind]. cbv zeta.
  destruct (idx (h_sz53 T) _) as [sz|]; [|reflexivity]. cbn [mbind option_bind].
  by rewrite wr_u8.
Qed.

Lemma h_alu_dec_eq T s reg x f :
  reg <> REG_F -> rd s reg = Some x -> rd s REG_F = Some f ->
  h_alu_dec T s reg =
    s1 ← wr s REG_F ((f .& FLAG_C) .| bsel_h (negb ((x .& 0x0F) =? 0)) 0 FLAG_H .| FLAG_N);
    s2 ← wr s1 reg (x - 1);
    fl ← dec_flags T f x; wr s2 REG_F fl.
Proof.
  intros Hne Hx Hf. unfold h_alu_dec, dec_flags. rewrite Hf, Hx. cbn [mbind option_bind].
  destruct (wr s REG_F _) as [s1|] eqn:Hw1; [|reflexivity]. cbn [mbind option_bind].
  rd_simpl. rewrite Hx. cbn [mbind option_bind].
  destruct (wr s1 reg (x - 1)) as [s2|] eqn:Hw2; [|reflexivity]. cbn [mbind option_bind].
  rd_simpl. cbn [mbind option_bind]. cbv zeta.
  destruct (idx (h_sz53 T) _) as [sz|]; [|reflexivity]. cbn [mbind option_bind].
  by rewrite wr_u8.
Qed.

Lemma inc_flags_Some T f x :
  tables_sized T -> exists fl, inc_flags T f x = Some fl /\ u8 fl = fl.
Proof.
  intros (E & _). unfold inc_flags. cbv zeta.
  destruct (idx_is_Some (h_sz53 T) (u8 (x + 1))) as [sz ->].
  { rewrite E. pose proof (u8_range (x + 1)). unfold is_u8 in *. lia. }
  eexists. split; [reflexivity|]. apply u8_small, u8_range.
Qed.

Lemma dec_flags_Some T f x :
  tables_sized T -> exists fl, dec_flags T f x = Some fl /\ u8 fl = fl.
Proof.
  intros (E & _). unfold dec_flags. cbv zeta.
  destruct (idx_is_Some (h_sz53 T) (u8 (x - 1))) as [sz ->].
  { rewrite E. pose proof (u8_range (x - 1)). unfold is_u8 in *. lia. }
  eexists. split; [reflexivity|]. apply u8_small, u8_range.
Qed.

Lemma h_alu_inc_effect T s reg x f :
  tables_sized T -> wf s -> is_reg reg -> reg <> REG_F ->
  rd s reg = Some x -> rd s REG_F = Some f ->
  exists s' fl,
    h_alu_inc T s reg = Some s' /\ wf s' /\ inc_flags T f x = Some fl /\
    rd s' REG_F = Some fl /\ rd s' reg = Some (u8 (x + 1)) /\
    (forall j, j <> reg -> j <> REG_F -> rd s' j = rd s j) /\ sp s' = sp s.
Proof.
  intros HT Hwf Hreg Hne Hx Hf.
  rewrite (h_alu_inc_eq T s reg x f Hne Hx Hf).
  destruct (wr_is_Some s reg (x + 1) Hwf Hreg) as (s1 & Hw1 & Hwf1).
  destruct (inc_flags_Some T f x HT) as (fl & Hfl & Hu).
  destruct (wr_is_Some s1 REG_F fl Hwf1) as (s2 & Hw2 & Hwf2); [cbv; done|].
  rewrite Hw1. cbn [mbind option_bind]. rewrite Hfl. cbn [mbind option_bind].
  exists s2, fl. split; [done|]. split; [done|]. split; [done|].
  split; [rd_simpl; by rewrite Hu|].
  split; [by rd_simpl|].
  split; [intros j H1 H2; by rd_simpl|by rd_simpl].
Qed.

Lemma h_alu_dec_effect T s reg x f :
  tables_sized T -> wf s -> is_reg reg -> reg <> REG_F ->
  rd s reg = Some x -> rd s REG_F = Some f ->
  exists s' fl,
    h_alu_dec T s reg = Some s' /\ wf s' /\ dec_flags T f x = Some fl /\
    rd s' REG_F = Some fl /\ rd s' reg = Some (u8 (x - 1)) /\
    (forall j, j <> reg -> j <> REG_F -> rd s' j = rd s j) /\ sp s' = sp s.
Proof.
  intros HT Hwf Hreg Hne Hx Hf.
  rewrite (h_alu_dec_eq T s reg x f Hne Hx Hf).
  destruct (wr_is_Some s REG_F
              ((f .& FLAG_C) .| bsel_h (negb ((x .& 0x0F) =? 0)) 0 FLAG_H .| FLAG_N) Hwf)
    as (s1 & Hw1 & Hwf1); [cbv; done|].
  destruct (wr_is_Some s1 reg (x - 1) Hwf1 Hreg) as (s2 & Hw2 & Hwf2).
  destruct (dec_flags_Some T f x HT) as (fl & Hfl & Hu).
  destruct (wr_is_Some s2 REG_F fl Hwf2) as (s3 & Hw3 & Hwf3); [cbv; done|].
  rewrite Hw1. cbn [mbind option_bind]. rewrite Hw2. cbn [mbind option_bind].
  rewrite Hfl. cbn [mbind option_bind].
  exists s3, fl. split; [done|]. split; [done|]. split; [done|].
  split; [rd_simpl; by rewrite Hu|].
  split; [by rd_simpl|].
  split; [intros j H1 H2; by rd_simpl|by rd_simpl].
Qed.

Lemma exec_inc T s k imm :
  0 <= k < 7 ->
  h_exec_instruction T s (OP_INC_START + k) imm =
    reg ← idx INCDEC_REG_H k; h_alu_inc T s reg.
Proof.
  intros Hk. unfold h_exec_instruction.
  assert (classify (OP_INC_START + k) = Some B_INC) as ->
    by (apply classify_Some; unfold_ops; lia).
  unfold OP_INC_START. by replace (120 + k - 120) with k by lia.
Qed.

Lemma exec_dec T s k imm :
  0 <= k < 7 ->
  h_exec_instruction T s (OP_DEC_START + k) imm =
    reg ← idx INCDEC_REG_H k; h_alu_dec T s reg.
Proof.
  intros Hk. unfold h_exec_instruction.
  assert (classify (OP_DEC_START + k) = Some B_DEC) as ->
    by (apply classify_Some; unfold_ops; lia).
  unfold OP_DEC_START. by replace (127 + k - 127) with k by lia.
Qed.

Lemma incdec_reg k reg : idx INCDEC_REG_H k = Some reg -> is_reg reg /\ reg <> REG_F.
Proof.
  apply (idx_Forall (fun x => is_reg x /\ x <> REG_F)).
  repeat constructor; done.
Qed.

Lemma inc_dec_check :
  all_u8_2 (fun f x =>
    match inc_flags tables f x with
    | Some f1 =>
        (f1 .& FLAG_C =? f .& FLAG_C) &&
        (u8 (u8 (x + 1) - 1) =? x) &&
        match dec_flags tables f1 (u8 (x + 1)) with
        | Some f2 => f2 .& FLAG_C =? f1 .& FLAG_C
        | None => false
        end
    | None => false
    end &&
    match dec_flags tables f x with
    | Some f3 => f3 .& FLAG_C =? f .& FLAG_C
    | None => false
    end) = true.
Proof. vm_compute. reflexivity. Qed.

(** C7. On every state and for every register [reg] that INC and DEC
    address (A, B, C, D, E, H, L, entry [k] of the decode table): INC [reg]
    followed by DEC [reg] gives [reg] its original value back, leaves the
    other registers apart from F and [sp] as they were, and leaves the carry
    bit of F as it was before both; INC preserves the carry bit, and so does
    DEC, after the INC as well as on the original state. *)
Theorem inc_dec_roundtrip s k reg x f imm1 imm2 :
  wf s -> 0 <= k < 7 -> idx INCDEC_REG_H k = Some reg ->
  rd s reg = Some x -> rd s REG_F = Some f ->
  exists s1 s2 f1 f2,
    h_exec_instruction tables s (OP_INC_START + k) imm1 = Some s1 /\
    h_exec_instruction tables s1 (OP_DEC_START + k) imm2 = Some s2 /\
    rd s1 reg = Some (u8 (x + 1)) /\
    rd s2 reg = Some x /\
    (forall j, j <> reg -> j <> REG_F -> rd s2 j = rd s j) /\
    sp s2 = sp s /\
    rd s1 REG_F = Some f1 /\ rd s2 REG_F = Some f2 /\
    f1 .& FLAG_C = f .& FLAG_C /\ f2 .& FLAG_C = f1 .& FLAG_C /\
    f2 .& FLAG_C = f .& FLAG_C /\
    exists s3 f3,
      h_exec_instruction tables s (OP_DEC_START + k) imm2 = Some s3 /\
      rd s3 REG_F = Some f3 /\ f3 .& FLAG_C = f .& FLAG_C.
Proof.
  intros Hwf Hk Hreg Hx Hf.
  destruct (incdec_reg k reg Hreg) as [Hr Hne].
  assert (is_u8 x) as Hxb by (by eapply rd_is_u8).
  assert (is_u8 f) as Hfb by (by eapply rd_is_u8).
  destruct (h_alu_inc_effect tables s reg x f tables_sized_tables Hwf Hr Hne Hx Hf)
    as (s1 & f1 & Hinc & Hwf1 & Hf1 & HF1 & HR1 & Hfr1 & Hsp1).
  destruct (h_alu_dec_effect tables s1 reg (u8 (x + 1)) f1 tables_sized_tables
              Hwf1 Hr Hne HR1 HF1)
    as (s2 & f2 & Hdec & Hwf2 & Hf2 & HF2 & HR2 & Hfr2 & Hsp2).
  destruct (h_alu_dec_effect tables s reg x f tables_sized_tables Hwf Hr Hne Hx Hf)
    as (s3 & f3 & Hdec0 & _ & Hf3 & HF3 & _).
  pose proof (all_u8_2_spec _ inc_dec_check f x Hfb Hxb) as Hc. cbv beta in Hc.
  rewrite Hf1, Hf2, Hf3 in Hc.
  repeat (apply andb_prop in Hc as [Hc ?]).
  exists s1, s2, f1, f2.
  split. { rewrite exec_inc by done. rewrite Hreg. exact Hinc. }
  split. { rewrite exec_dec by done. rewrite Hreg. exact Hdec. }
  split; [done|].
  split. { rewrite HR2. f_equal. lia. }
  split. { intros j Hj1 Hj2. rewrite Hfr2, Hfr1 by done. done. }
  split; [congruence|].
  split; [done|]. split; [done|].
  split; [lia|]. split; [lia|]. split; [lia|].
  exists s3, f3.
  split. { rewrite exec_dec by done. rewrite Hreg. exact Hdec0. }
  split; [done|lia].
Qed.

Lemma inc_dec_roundtrip_witness :
  exists s1 s2 f1 f2,
    h_exec_instruction tables (mkState [0xFF; 0xFF; 0x0F; 2; 3; 4; 5; 6] 0x1234)
      (OP_INC_START + 1) 0 = Some s1 /\
    h_exec_instruction tables s1 (OP_DEC_START + 1) 0 = Some s2 /\
    rd s1 REG_B = Some (u8 (0x0F + 1)) /\
    rd s2 REG_B = Some 0x0F /\
    (forall j, j <> REG_B -> j <> REG_F ->
       rd s2 j = rd (mkState [0xFF; 0xFF; 0x0F; 2; 3; 4; 5; 6] 0x1234) j) /\
    sp s2 = sp (mkState [0xFF; 0xFF; 0x0F; 2; 3; 4; 5; 6] 0x1234) /\
    rd s1 REG_F = Some f1 /\ rd s2 REG_F = Some f2 /\
    f1 .& FLAG_C = 0xFF .& FLAG_C /\ f2 .& FLAG_C = f1 .& FLAG_C /\
    f2 .& FLAG_C = 0xFF .& FLAG_C /\
    exists s3 f3,
      h_exec_instruction tables (mkState [0xFF; 0xFF; 0x0F; 2; 3; 4; 5; 6] 0x1234)
        (OP_DEC_START + 1) 0 = Some s3 /\
      rd s3 REG_F = Some f3 /\ f3 .& FLAG_C = 0xFF .& FLAG_C.
Proof.
  apply (inc_dec_roundtrip (mkState [0xFF; 0xFF; 0x0F; 2; 3; 4; 5; 6] 0x1234)
           1 REG_B 0x0F 0xFF 0 0).
  - wf_concrete.
  - lia.
  - reflexivity.
  - reflexivity.
  - reflexivity.
Defined.

(** ** 16-bit increment and decrement *)

Lemma pair_join_check :
  all_u8_2 (fun hi lo =>
    let x := hi * 256 + lo in u16 ((u8 (x >> 8) << 8) .| u8 x) =? x) = true.
Proof. vm_compute. reflexivity. Qed.

Lemma pair_join x : is_u16 x -> u16 ((u8 (x >> 8) << 8) .| u8 x) = x.
Proof.
  intros Hx. unfold is_u16 in Hx.
  assert (x = (x / 256) * 256 + x mod 256) as Hsplit
    by (Z.to_euclidean_division_equations; lia).
  assert (is_u8 (x / 256)) as Hhi
    by (unfold is_u8; Z.to_euclidean_division_equations; lia).
  assert (is_u8 (x mod 256)) as Hlo by apply u8_range.
  pose proof (all_u8_2_spec _ pair_join_check _ _ Hhi Hlo) as Hc. cbv beta zeta in Hc.
  rewrite <- Hsplit in Hc. by apply Z.eqb_eq.
Qed.

Lemma not_elem_of_pair (j a b : Z) : j ∉ [a; b] -> j <> a /\ j <> b.
Proof. rewrite !not_elem_of_cons. tauto. Qed.

Lemma set_pair_regs s hi lo val :
  wf s -> is_reg hi -> is_reg lo -> hi <> lo -> is_u16 val ->
  exists s',
    (s1 ← wr s hi (val >> 8); wr s1 lo val) = Some s' /\ wf s' /\
    (hb ← rd s' hi; lb ← rd s' lo; Some (u16 ((hb << 8) .| lb))) = Some val /\
    (forall j, j <> hi -> j <> lo -> rd s' j = rd s j) /\ sp s' = sp s.
Proof.
  intros Hwf Hhi Hlo Hne Hval.
  destruct (wr_is_Some s hi (val >> 8) Hwf Hhi) as (s1 & Hw1 & Hwf1).
  destruct (wr_is_Some s1 lo val Hwf1 Hlo) as (s2 & Hw2 & Hwf2).
  rewrite Hw1. cbn [mbind option_bind]. exists s2.
  split; [done|]. split; [done|]. split.
  - rd_simpl. cbn [mbind option_bind]. by rewrite pair_join.
  - split; [intros j Hj1 Hj2; by rd_simpl|by rd_simpl].
Qed.

Lemma exec_16inc T s k imm :
  0 <= k < 8 ->
  h_exec_instruction T s (OP_16INC_START + k) imm =
    v ← h_get_pair s (Z.rem k 4);
    h_set_pair s (Z.rem k 4) (u16 (if 4 <=? k then v - 1 else v + 1)).
Proof.
  intros Hk. unfold h_exec_instruction.
  assert (classify (OP_16INC_START + k) = Some B_16INC) as ->
    by (apply classify_Some; unfold_ops; lia).
  cbv zeta. by replace (OP_16INC_START + k - OP_16INC_START) with k by lia.
Qed.

Lemma h_set_pair_effect s pair val :
  wf s -> 0 <= pair < 4 -> is_u16 val ->
  exists s',
    h_set_pair s pair val = Some s' /\
    h_get_pair s' pair = Some val /\
    (forall j, j ∉ pair_regs pair -> rd s' j = rd s j) /\
    (pair <> 3 -> sp s' = sp s).
Proof.
  intros Hwf Hp Hval.
  assert (pair = 0 \/ pair = 1 \/ pair = 2 \/ pair = 3) as [-> | [-> | [-> | ->]]] by lia;
    cbn [h_set_pair h_get_pair pair_regs].
  - destruct (set_pair_regs s REG_B REG_C val Hwf) as (s' & H1 & _ & H2 & H3 & H4);
      [cbv; done..|done|].
    exists s'. split; [done|]. split; [done|]. split; [|done].
    intros j Hj. apply not_elem_of_pair in Hj as [? ?]. by apply H3.
  - destruct (set_pair_regs s REG_D REG_E val Hwf) as (s' & H1 & _ & H2 & H3 & H4);
      [cbv; done..|done|].
    exists s'. split; [done|]. split; [done|]. split; [|done].
    intros j Hj. apply not_elem_of_pair in Hj as [? ?]. by apply H3.
  - destruct (set_pair_regs s REG_H REG_L val Hwf) as (s' & H1 & _ & H2 & H3 & H4);
      [cbv; done..|done|].
    exists s'. split; [done|]. split; [done|]. split; [|done].
    intros j Hj. apply not_elem_of_pair in Hj as [? ?]. by apply H3.
  - exists (wr_sp s val). split; [done|]. split; [|done].
    unfold wr_sp. cbn [sp]. by rewrite u16_small.
Qed.

(** C8. On every state and for every register pair (0 = BC, 1 = DE,
    2 = HL, 3 = SP) holding [v]: the pair increment (opcode 368 + pair)
    leaves [(v + 1) mod 65536] in the pair and the pair decrement (opcode
    372 + pair) leaves [(v - 1) mod 65536], so 0xFFFF is incremented to 0 and
    0 is decremented to 0xFFFF; neither changes F nor any register outside
    the pair, and for BC, DE and HL neither changes [sp]. *)
Theorem pair_incdec_spec T s pair v imm :
  wf s -> 0 <= pair < 4 -> h_get_pair s pair = Some v ->
  exists s1 s2,
    h_exec_instruction T s (OP_16INC_START + pair) imm = Some s1 /\
    h_get_pair s1 pair = Some ((v + 1) mod 65536) /\
    h_exec_instruction T s (OP_16INC_START + 4 + pair) imm = Some s2 /\
    h_get_pair s2 pair = Some ((v - 1) mod 65536) /\
    (v = 0xFFFF -> h_get_pair s1 pair = Some 0x0000) /\
    (v = 0x0000 -> h_get_pair s2 pair = Some 0xFFFF) /\
    rd s1 REG_F = rd s REG_F /\ rd s2 REG_F = rd s REG_F /\
    (forall j, j ∉ pair_regs pair -> rd s1 j = rd s j /\ rd s2 j = rd s j) /\
    (pair <> 3 -> sp s1 = sp s /\ sp s2 = sp s).
Proof.
  intros Hwf Hp Hv.
  assert (Z.rem pair 4 = pair /\ Z.rem (4 + pair) 4 = pair) as [R1 R2]
    by (Z.to_euclidean_division_equations; lia).
  assert ((4 <=? pair) = false /\ (4 <=? 4 + pair) = true) as [C1 C2] by lia.
  destruct (h_set_pair_effect s pair (u16 (v + 1)) Hwf Hp (u16_range _))
    as (s1 & E1 & G1 & F1 & P1).
  destruct (h_set_pair_effect s pair (u16 (v - 1)) Hwf Hp (u16_range _))
    as (s2 & E2 & G2 & F2 & P2).
  assert (REG_F ∉ pair_regs pair) as HF.
  { assert (pair = 0 \/ pair = 1 \/ pair = 2 \/ pair = 3) as [-> | [-> | [-> | ->]]] by lia;
      cbn [pair_regs]; rewrite ?not_elem_of_cons; repeat split; try done;
      apply not_elem_of_nil. }
  exists s1, s2.
  split. { rewrite exec_16inc by lia. rewrite R1, C1, Hv. exact E1. }
  split; [exact G1|].
  split. { rewrite <- Z.add_assoc, exec_16inc by lia. rewrite R2, C2, Hv. exact E2. }
  split; [exact G2|].
  split. { intros ->. exact G1. }
  split. { intros ->. exact G2. }
  split; [by apply F1|]. split; [by apply F2|].
  split; [intros j Hj; split; [by apply F1|by apply F2]|].
  intros Hne. split; [by apply P1|by apply P2].
Qed.

Lemma pair_incdec_spec_witness :
  exists s1 s2,
    h_exec_instruction tables (mkState [1; 0xFF; 0xFF; 0xFF; 3; 4; 5; 6] 0x1234)
      (OP_16INC_START + 0) 0 = Some s1 /\
    h_get_pair s1 0 = Some ((0xFFFF + 1) mod 65536) /\
    h_exec_instruction tables (mkState [1; 0xFF; 0xFF; 0xFF; 3; 4; 5; 6] 0x1234)
      (OP_16INC_START + 4 + 0) 0 = Some s2 /\
    h_get_pair s2 0 = Some ((0xFFFF - 1) mod 65536) /\
    (0xFFFF = 0xFFFF -> h_get_pair s1 0 = Some 0x0000) /\
    (0xFFFF = 0x0000 -> h_get_pair s2 0 = Some 0xFFFF) /\
    rd s1 REG_F = rd (mkState [1; 0xFF; 0xFF; 0xFF; 3; 4; 5; 6] 0x1234) REG_F /\
    rd s2 REG_F = rd (mkState [1; 0xFF; 0xFF; 0xFF; 3; 4; 5; 6] 0x1234) REG_F /\
    (forall j, j ∉ pair_regs 0 ->
       rd s1 j = rd (mkState [1; 0xFF; 0xFF; 0xFF; 3; 4; 5; 6] 0x1234) j /\
       rd s2 j = rd (mkState [1; 0xFF; 0xFF; 0xFF; 3; 4; 5; 6] 0x1234) j) /\
    (0 <> 3 -> sp s1 = sp (mkState [1; 0xFF; 0xFF; 0xFF; 3; 4; 5; 6] 0x1234) /\
               sp s2 = sp (mkState [1; 0xFF; 0xFF; 0xFF; 3; 4; 5; 6] 0x1234)).
Proof.
  apply (pair_incdec_spec tables (mkState [1; 0xFF; 0xFF; 0xFF; 3; 4; 5; 6] 0x1234)
           0 0xFFFF 0).
  - wf_concrete.
  - lia.
  - reflexivity.
Defined.

(** * Further properties of the engines *)

(** ** Symbolic execution on a state known by its reads *)

Lemma idx_tbl_at l i : 0 <= i < Z.of_nat (length l) -> idx l i = Some (tbl_at l i).
Proof.
  intros Hi. unfold tbl_at. destruct (idx_is_Some l i Hi) as [x ->]. reflexivity.
Qed.

Lemma flag_tables_check :
  all_u8 (fun x =>
    match idx (h_sz53 tables) x, idx (h_sz53p tables) x, idx (h_parity tables) x with
    | Some a, Some b, Some c =>
        (a =? sz53_val x) && (b =? sz53p_val x) && (c =? parity_val x)
    | _, _, _ => false
    end) = true.
Proof. vm_compute. reflexivity. Qed.

Lemma idx_flag_tables x :
  is_u8 x ->
  idx (h_sz53 tables) x = Some (sz53_val x) /\
  idx (h_sz53p tables) x = Some (sz53p_val x) /\
  idx (h_parity tables) x = Some (parity_val x).
Proof.
  intros Hx. pose proof (all_u8_spec _ flag_tables_check x Hx) as Hc. cbv beta in Hc.
  destruct (idx (h_sz53 tables) x), (idx (h_sz53p tables) x), (idx (h_parity tables) x);
    try discriminate.
  apply andb_prop in Hc as [Hc C3]. apply andb_prop in Hc as [C1 C2].
  apply Z.eqb_eq in C1, C2, C3. by subst.
Qed.

Lemma idx_sz53 e : idx (h_sz53 tables) (u8 e) = Some (sz53_val (u8 e)).
Proof. apply idx_flag_tables, u8_range. Qed.

Lemma idx_sz53p e : idx (h_sz53p tables) (u8 e) = Some (sz53p_val (u8 e)).
Proof. apply idx_flag_tables, u8_range. Qed.

Lemma idx_parity e : idx (h_parity tables) (u8 e) = Some (parity_val (u8 e)).
Proof. apply idx_flag_tables, u8_range. Qed.

Lemma carry_bit_cases f : f .& FLAG_C = 0 \/ f .& FLAG_C = 1.
Proof.
  unfold FLAG_C.
  assert (f .& 1 = f mod 2) as -> by (apply (Z.land_ones f 1); lia).
  Z.to_euclidean_division_equations. lia.
Qed.

Lemma only_changes_refl regs s : only_changes regs s s.
Proof. by split. Qed.

Lemma only_changes_wr regs s0 s i v s' :
  only_changes regs s0 s -> wr s i v = Some s' -> i ∈ regs -> only_changes regs s0 s'.
Proof.
  intros [Hr Hsp] Hw Hi. split.
  - intros j Hj. rewrite (wr_rd_ne s i v s' j Hw); [by apply Hr|].
    intros ->. contradiction.
  - by rewrite (wr_sp_eq s i v s' Hw).
Qed.

(** Normalise a read [H : rd s i = Some x] through the writes that led to
    [s] and the reads known of the initial state, and substitute [x]. *)
Ltac sx_norm_rd H x :=
  repeat match type of H with
  | rd ?s' ?i = _ =>
      match goal with
      | Hw : wr ?s i ?v = Some s' |- _ => rewrite (wr_rd_eq s i v s' Hw) in H
      | Hw : wr ?s ?k ?v = Some s' |- _ =>
          rewrite (wr_rd_ne s k v s' i Hw) in H
            by (first [assumption | congruence | reg_bound])
      | Hr : rd s' i = Some _ |- _ =>
          lazymatch Hr with H => fail | _ => rewrite Hr in H end
      end
  end;
  let E := fresh in injection H as E; subst x.

Ltac sx_bound :=
  lazymatch goal with
  | |- _ <= _ < Z.of_nat (length ?l) =>
      let n := eval vm_compute in (Z.of_nat (length l)) in
      change (Z.of_nat (length l)) with n;
      first [apply u8_range | solve [auto 10 with bounds]]
  end.

Ltac sx_step :=
  lazymatch goal with
  | |- wp (mbind _ _) _ => apply wp_bind
  | |- wp (rd _ _) _ =>
      apply wp_rd;
      [assumption | reg_bound
      | let x := fresh "x" in let H := fresh "Hrd" in intros x H _; sx_norm_rd H x]
  | |- wp (wr _ _ _) _ => apply wp_wr; [assumption | reg_bound | intros ? ? ?]
  | |- wp (idx (h_sz53 tables) (u8 ?e)) _ => rewrite (idx_sz53 e); apply wp_ret
  | |- wp (idx (h_sz53p tables) (u8 ?e)) _ => rewrite (idx_sz53p e); apply wp_ret
  | |- wp (idx (h_parity tables) (u8 ?e)) _ => rewrite (idx_parity e); apply wp_ret
  | |- wp (idx ?l ?i) _ => rewrite (idx_tbl_at l i) by sx_bound; apply wp_ret
  | |- wp (Some _) _ => apply wp_ret
  end.

Ltac sx := cbv zeta; repeat (first [sx_step | progress cbv beta iota]).

(** The frame of a run: every write went to a register of the list. *)
Ltac sx_frame :=
  repeat match goal with
  | H : wr ?s ?i ?v = Some ?s' |- only_changes ?regs _ ?s' =>
      apply (only_changes_wr regs _ s i v s'); [|exact H|
        rewrite ?elem_of_cons; tauto]
  end;
  apply only_changes_refl.

(** A goal on byte variables, a conjunction of equalities between integers
    or booleans, settled by evaluation on all their values. *)
Ltac reify_prop P :=
  lazymatch P with
  | ?c = true -> ?B =>
      let b := reify_prop B in
      constr:(if c then b else true)
  | ?c = false -> ?B =>
      let b := reify_prop B in
      constr:(if c then true else b)
  | (let x := ?e in @?B x) =>
      let b :=
        constr:(fun x : Z =>
                  ltac:(let Bx := eval cbv beta in (B x) in
                        let r := reify_prop Bx in exact r)) in
      constr:(let x := e in b x)
  | ?A /\ ?B =>
      let a := reify_prop A in
      let b := reify_prop B in
      constr:(andb a b)
  | @eq Z ?x ?y => constr:(Z.eqb x y)
  | @eq bool ?x ?y => constr:(eqb x y)
  end.

Ltac unreify H :=
  lazymatch goal with
  | |- _ = true -> _ =>
      let Hc := fresh in
      intros Hc; rewrite Hc in H; cbv iota in H; unreify H
  | |- _ = false -> _ =>
      let Hc := fresh in
      intros Hc; rewrite Hc in H; cbv iota in H; unreify H
  | |- _ /\ _ =>
      let H1 := fresh in
      let H2 := fresh in
      apply andb_prop in H as [H1 H2]; split; [unreify H1 | unreify H2]
  | |- @eq Z _ _ => apply Z.eqb_eq; exact H
  | |- @eq bool _ _ => apply eqb_prop; exact H
  end.

Tactic Notation "by_bytes1" constr(a) :=
  lazymatch goal with
  | |- ?G =>
      let bt := reify_prop G in
      let H := fresh in
      assert (bt = true) as H;
      [ let P := eval pattern a in bt in
        lazymatch P with
        | ?F a =>
            change (F a = true);
            refine (all_u8_spec F _ a _); [vm_compute; reflexivity | assumption]
        end
      | cbv beta zeta in H; cbv beta zeta; unreify H ]
  end.

Lemma all_bit_u8_spec P :
  all_u8 (P 0) && all_u8 (P 1) = true ->
  forall c x, c = 0 \/ c = 1 -> is_u8 x -> P c x = true.
Proof.
  intros [H0 H1]%andb_prop c x [-> | ->] Hx.
  - by apply (all_u8_spec (P 0)).
  - by apply (all_u8_spec (P 1)).
Qed.

Tactic Notation "by_carry_bytes1" constr(f) constr(a) :=
  let c := fresh "c" in
  let Hc := fresh "Hc" in
  pose proof (carry_bit_cases f) as Hc;
  set (c := f .& FLAG_C) in *; clearbody c;
  lazymatch goal with
  | |- ?G =>
      let bt := reify_prop G in
      let H := fresh in
      assert (bt = true) as H;
      [ let P := eval pattern c, a in bt in
        lazymatch P with
        | ?F c a =>
            change (F c a = true);
            refine (all_bit_u8_spec F _ c a _ _);
            [vm_compute; reflexivity | assumption | assumption]
        end
      | cbv beta zeta in H; cbv beta zeta; unreify H ]
  end.

(** Bytes are closed under the bitwise operations. *)
Lemma land_u8 a b : is_u8 a -> is_u8 b -> is_u8 (a .& b).
Proof. unfold is_u8. intros Ha Hb. pose proof (land_bound a b). lia. Qed.

Lemma lor_u8 a b : is_u8 a -> is_u8 b -> is_u8 (a .| b).
Proof. unfold is_u8. intros Ha Hb. apply (lor_lt_pow2 a b 8); lia. Qed.

Lemma lxor_u8 a b : is_u8 a -> is_u8 b -> is_u8 (a .^ b).
Proof.
  unfold is_u8. intros Ha Hb.
  pose proof (Z.sub_lor_land a b) as E.
  pose proof (lor_lt_pow2 a b 8 ltac:(lia) ltac:(lia) ltac:(lia)).
  pose proof (land_bound a b ltac:(lia)).
  pose proof (proj2 (Z.lxor_nonneg a b)). lia.
Qed.

(** Read a goal [exists s', m = Some s' /\ Q s'] as [wp m Q]. *)
Ltac as_wp :=
  lazymatch goal with
  | |- exists s', ?m = Some s' /\ @?Q s' => change (wp m Q)
  end.

(** Open a postcondition: the frame holds by the writes made, the values
    read are the ones written; what is left are equalities on bytes. *)
Ltac sx_post :=
  repeat lazymatch goal with
  | |- only_changes _ _ _ /\ _ => split; [sx_frame|]
  | |- only_changes _ _ _ => sx_frame
  | |- rd _ _ = Some _ /\ _ => split; [rd_simpl; f_equal|]
  | |- rd _ _ = Some _ => rd_simpl; f_equal
  | |- exists f', rd _ REG_F = Some f' /\ _ => eexists; split; [rd_simpl; reflexivity|]
  end.

(** Unfold [h_exec_instruction] at a given opcode. *)
Ltac exec_unfold :=
  try unfold h_exec_instruction;
  repeat match goal with
  | |- context [classify ?op] =>
      let b := eval vm_compute in (classify op) in
      change (classify op) with b
  end;
  cbv beta iota.

Lemma if_wr (c : bool) s i x y :
  (if c then wr s i x else wr s i y) = wr s i (if c then x else y).
Proof. by destruct c. Qed.

(** ** Bits and masks *)

Lemma land_pow2 x n : 0 <= n -> x .& 2 ^ n = if Z.testbit x n then 2 ^ n else 0.
Proof.
  intros Hn. apply Z.bits_inj'. intros m Hm. rewrite Z.land_spec.
  destruct (Z.testbit x n) eqn:E.
  - rewrite Z.pow2_bits_eqb by lia.
    destruct (Z.eqb_spec n m); subst; [by rewrite E | by rewrite andb_false_r].
  - rewrite Z.bits_0, Z.pow2_bits_eqb by lia.
    destruct (Z.eqb_spec n m); subst; [by rewrite E | by rewrite andb_false_r].
Qed.

(** A bit test [x & (1 << n)] as the parity of a quotient. *)
Lemma nz_bit x n : 0 <= n -> nz (x .& 2 ^ n) = Z.odd (x / 2 ^ n).
Proof.
  intros Hn. rewrite land_pow2 by done. rewrite <- Z.shiftr_div_pow2 by done.
  rewrite <- Z.testbit_odd. unfold nz.
  destruct (Z.testbit x n); [|reflexivity].
  assert (0 < 2 ^ n) by (apply Z.pow_pos_nonneg; lia).
  destruct (Z.eqb_spec (2 ^ n) 0); [lia|reflexivity].
Qed.

Lemma nz_bit_u32 x n : 0 <= n < 32 -> nz (u32 x .& 2 ^ n) = Z.odd (x / 2 ^ n).
Proof.
  intros Hn. rewrite nz_bit by lia. rewrite <- !Z.shiftr_div_pow2 by lia.
  rewrite <- !Z.testbit_odd. unfold u32. change 4294967296 with (2 ^ 32).
  apply Z.mod_pow2_bits_low. lia.
Qed.

Lemma odd_01 q : q = 0 \/ q = 1 \/ q = -1 -> Z.odd q = negb (q =? 0).
Proof. by intros [-> | [-> | ->]]. Qed.

Lemma land_u8_r a b : is_u8 b -> is_u8 (a .& b).
Proof. unfold is_u8. intros Hb. pose proof (land_bound a b). lia. Qed.

Lemma fl_u8 c m : is_u8 m -> is_u8 (fl c m).
Proof. destruct c; [done|]. intros _. unfold is_u8. cbn. lia. Qed.

Lemma bsel_fl c m : is_u8 m -> bsel_h c m 0 = fl c m.
Proof. intros Hm. unfold bsel_h, fl. destruct c; [by apply u8_small | reflexivity]. Qed.

Lemma bsel_fl_neg c m : is_u8 m -> bsel_h c 0 m = fl (negb c) m.
Proof. intros Hm. unfold bsel_h, fl. destruct c; [reflexivity | by apply u8_small]. Qed.

Lemma land_shift_split x m a b :
  0 <= a -> 0 <= b -> (x .& (m << a)) >> (a + b) = ((x >> a) .& m) >> b.
Proof.
  intros Ha Hb. apply Z.bits_inj'. intros k Hk.
  rewrite !Z.shiftr_spec, !Z.land_spec, Z.shiftr_spec, Z.shiftl_spec by lia.
  f_equal; f_equal; lia.
Qed.

Lemma land_mod_mask x m n : 0 <= n -> 0 <= m < 2 ^ n -> (x mod 2 ^ n) .& m = x .& m.
Proof.
  intros Hn Hm. rewrite <- Z.land_ones by done. rewrite <- Z.land_assoc. f_equal.
  rewrite Z.land_comm, Z.land_ones by done. apply Z.mod_small. lia.
Qed.

Lemma mask_shr_u8 q j : 0 <= j -> is_u8 ((q .& 0x88) >> j).
Proof.
  intros Hj. pose proof (land_bound q 0x88 ltac:(lia)) as Hq.
  rewrite Z.shiftr_div_pow2 by done. unfold is_u8.
  assert (0 < 2 ^ j) by (apply Z.pow_pos_nonneg; lia).
  split; [apply Z.div_pos; lia|].
  apply Z.div_lt_upper_bound; [lia|]. nia.
Qed.

(** ** The half-carry and overflow lookups *)

Lemma mask88 x :
  is_u8 x ->
  (x .& 0x88) >> 3 = (x / 8) mod 2 + 16 * (x / 128) /\
  (x .& 0x88) >> 2 = 2 * ((x / 8) mod 2) + 32 * (x / 128) /\
  (x .& 0x88) >> 1 = 4 * ((x / 8) mod 2) + 64 * (x / 128).
Proof. intros Hx. by_bytes1 x. Qed.

Lemma lk_split b0 b1 b2 b3 b4 b5 :
  b0 = 0 \/ b0 = 1 -> b1 = 0 \/ b1 = 1 -> b2 = 0 \/ b2 = 1 ->
  b3 = 0 \/ b3 = 1 -> b4 = 0 \/ b4 = 1 -> b5 = 0 \/ b5 = 1 ->
  ((b0 + 16 * b3) .| (2 * b1 + 32 * b4) .| (4 * b2 + 64 * b5)) .& 7 =
    b0 + 2 * b1 + 4 * b2 /\
  ((b0 + 16 * b3) .| (2 * b1 + 32 * b4) .| (4 * b2 + 64 * b5)) >> 4 =
    b3 + 2 * b4 + 4 * b5.
Proof.
  intros [-> | ->] [-> | ->] [-> | ->] [-> | ->] [-> | ->] [-> | ->]; split; reflexivity.
Qed.

Lemma overflows_false x : -128 <= x <= 127 -> overflows x = false.
Proof.
  intros Hx. unfold overflows.
  destruct (Z.leb_spec (-128) x), (Z.leb_spec x 127); try reflexivity; lia.
Qed.

Lemma overflows_true x : ~ (-128 <= x <= 127) -> overflows x = true.
Proof.
  intros Hx. unfold overflows.
  destruct (Z.leb_spec (-128) x), (Z.leb_spec x 127); try reflexivity; lia.
Qed.

Lemma ltb_false x y : y <= x -> (x <? y) = false.
Proof. intros. by apply Z.ltb_ge. Qed.

Lemma ltb_true x y : x < y -> (x <? y) = true.
Proof. intros. by apply Z.ltb_lt. Qed.

Lemma signed8_bit x : is_u8 x -> signed8 x = x - 256 * (x / 128).
Proof.
  unfold is_u8, signed8. intros Hx.
  destruct (Z.ltb_spec x 128); Z.to_euclidean_division_equations; lia.
Qed.

Lemma bit3_01 x : is_u8 x -> (x / 8) mod 2 = 0 \/ (x / 8) mod 2 = 1.
Proof. unfold is_u8. intros. Z.to_euclidean_division_equations. lia. Qed.

Lemma top_bit_01 x : is_u8 x -> x / 128 = 0 \/ x / 128 = 1.
Proof. unfold is_u8. intros. Z.to_euclidean_division_equations. lia. Qed.

(** Settle a table lookup at the three bits of [a], of [b] and of the
    result in each of their eight cases. *)
Ltac lookup_cases Ha Hb Hr :=
  destruct Ha as [Ea | Ea], Hb as [Eb | Eb], Hr as [Er | Er];
  rewrite Ea, Eb, Er;
  match goal with
  | |- tbl_at ?l ?i = _ =>
      let v := eval vm_compute in (tbl_at l i) in change (tbl_at l i) with v
  end;
  first
    [ rewrite overflows_false by (Z.to_euclidean_division_equations; lia)
    | rewrite overflows_true by (Z.to_euclidean_division_equations; lia)
    | rewrite ltb_false by (Z.to_euclidean_division_equations; lia)
    | rewrite ltb_true by (Z.to_euclidean_division_equations; lia) ];
  reflexivity.

Lemma adc_lookup_check c a b :
  c = 0 \/ c = 1 -> is_u8 a -> is_u8 b ->
  tbl_at h_overflow_add
    ((((a .& 0x88) >> 3) .| ((b .& 0x88) >> 2) .|
      ((((a + b + c) mod 256) .& 0x88) >> 1)) >> 4) =
    fl (overflows (signed8 a + signed8 b + c)) FLAG_V /\
  tbl_at h_halfcarry_add
    ((((a .& 0x88) >> 3) .| ((b .& 0x88) >> 2) .|
      ((((a + b + c) mod 256) .& 0x88) >> 1)) .& 7) =
    fl (15 <? a mod 16 + b mod 16 + c) FLAG_H.
Proof.
  intros Hc Ha Hb.
  assert (is_u8 ((a + b + c) mod 256)) as Hr by apply u8_range.
  destruct (mask88 a Ha) as (-> & _ & _). destruct (mask88 b Hb) as (_ & -> & _).
  destruct (mask88 _ Hr) as (_ & _ & ->).
  rewrite !signed8_bit by done.
  pose proof (bit3_01 a Ha) as Ha3. pose proof (bit3_01 b Hb) as Hb3.
  pose proof (bit3_01 _ Hr) as Hr3.
  pose proof (top_bit_01 a Ha) as Ha7. pose proof (top_bit_01 b Hb) as Hb7.
  pose proof (top_bit_01 _ Hr) as Hr7.
  destruct (lk_split _ _ _ _ _ _ Ha3 Hb3 Hr3 Ha7 Hb7 Hr7) as [-> ->].
  unfold is_u8 in *.
  split.
  - lookup_cases Ha7 Hb7 Hr7.
  - lookup_cases Ha3 Hb3 Hr3.
Qed.

Lemma sbc_lookup_check c a b :
  c = 0 \/ c = 1 -> is_u8 a -> is_u8 b ->
  tbl_at h_overflow_sub
    ((((a .& 0x88) >> 3) .| ((b .& 0x88) >> 2) .|
      ((((a - b - c) mod 256) .& 0x88) >> 1)) >> 4) =
    fl (overflows (signed8 a - signed8 b - c)) FLAG_V /\
  tbl_at h_halfcarry_sub
    ((((a .& 0x88) >> 3) .| ((b .& 0x88) >> 2) .|
      ((((a - b - c) mod 256) .& 0x88) >> 1)) .& 7) =
    fl (a mod 16 <? b mod 16 + c) FLAG_H.
Proof.
  intros Hc Ha Hb.
  assert (is_u8 ((a - b - c) mod 256)) as Hr by apply u8_range.
  destruct (mask88 a Ha) as (-> & _ & _). destruct (mask88 b Hb) as (_ & -> & _).
  destruct (mask88 _ Hr) as (_ & _ & ->).
  rewrite !signed8_bit by done.
  pose proof (bit3_01 a Ha) as Ha3. pose proof (bit3_01 b Hb) as Hb3.
  pose proof (bit3_01 _ Hr) as Hr3.
  pose proof (top_bit_01 a Ha) as Ha7. pose proof (top_bit_01 b Hb) as Hb7.
  pose proof (top_bit_01 _ Hr) as Hr7.
  destruct (lk_split _ _ _ _ _ _ Ha3 Hb3 Hr3 Ha7 Hb7 Hr7) as [-> ->].
  unfold is_u8 in *.
  split.
  - lookup_cases Ha7 Hb7 Hr7.
  - lookup_cases Ha3 Hb3 Hr3.
Qed.

Lemma ltb_iff a b c d : (a < b <-> c < d) -> (a <? b) = (c <? d).
Proof. intros H. destruct (Z.ltb_spec a b), (Z.ltb_spec c d); try done; lia. Qed.

(** ** Goals on the flag byte and one more byte

    A goal that mentions the flags [f] before an instruction only through
    the carry [f & C] and the kept flags [f & (P | Z | S)] is settled by
    evaluation on the values of these two fields and of the other byte. *)

Lemma all_keep_bit_u8_spec P :
  all_u8 (fun g =>
    if g .& (FLAG_P .| FLAG_Z .| FLAG_S) =? g
    then all_u8 (P g 0) && all_u8 (P g 1) else true) = true ->
  forall g c x,
    is_u8 g -> (g .& (FLAG_P .| FLAG_Z .| FLAG_S) =? g) = true ->
    c = 0 \/ c = 1 -> is_u8 x -> P g c x = true.
Proof.
  intros H g c x Hg Hk Hc Hx.
  pose proof (all_u8_spec _ H g Hg) as Hgc. cbv beta in Hgc. rewrite Hk in Hgc.
  by apply (all_bit_u8_spec (P g)).
Qed.

Lemma keep_idem f :
  ((f .& (FLAG_P .| FLAG_Z .| FLAG_S)) .& (FLAG_P .| FLAG_Z .| FLAG_S) =?
   f .& (FLAG_P .| FLAG_Z .| FLAG_S)) = true.
Proof. apply Z.eqb_eq. by rewrite <- Z.land_assoc, Z.land_diag. Qed.

Lemma keep_u8 f : is_u8 (f .& (FLAG_P .| FLAG_Z .| FLAG_S)).
Proof. by apply land_u8_r. Qed.

Lemma land_split_c f :
  f .& (FLAG_C .| FLAG_P .| FLAG_Z .| FLAG_S) =
  (f .& (FLAG_P .| FLAG_Z .| FLAG_S)) .| (f .& FLAG_C).
Proof.
  rewrite <- Z.land_lor_distr_r. f_equal.
Qed.

Lemma u8_lor x y : u8 (x .| y) = u8 x .| u8 y.
Proof.
  unfold u8. change 256 with (2 ^ 8). rewrite <- !Z.land_ones by lia.
  apply Z.land_lor_distr_l.
Qed.

(** Only the low bit of [f] survives [(uint8_t)(x | f << 7)]. *)
Lemma shl7_carry x f : u8 (x .| (f << 7)) = u8 (x .| ((f .& FLAG_C) << 7)).
Proof.
  rewrite !u8_lor. f_equal. unfold u8, FLAG_C.
  assert (f .& 1 = f mod 2) as -> by (apply (Z.land_ones f 1); lia).
  rewrite !Z.shiftl_mul_pow2 by lia. change (2 ^ 7) with 128.
  Z.to_euclidean_division_equations. lia.
Qed.

Tactic Notation "by_flag_fields" constr(f) constr(a) :=
  let c := fresh "c" in
  let g := fresh "g" in
  let Hc := fresh "Hc" in
  let Hg := fresh "Hg" in
  let Hgb := fresh "Hgb" in
  rewrite ?(land_split_c f), ?(shl7_carry _ f);
  pose proof (carry_bit_cases f) as Hc;
  pose proof (keep_idem f) as Hg;
  pose proof (keep_u8 f) as Hgb;
  set (c := f .& FLAG_C) in *;
  set (g := f .& (FLAG_P .| FLAG_Z .| FLAG_S)) in *;
  clearbody c g;
  lazymatch goal with
  | |- context [f] => fail "the flags occur outside the two fields"
  | |- _ => idtac
  end;
  lazymatch goal with
  | |- ?G =>
      let bt := reify_prop G in
      let H := fresh in
      assert (bt = true) as H;
      [ let P := eval pattern g, c, a in bt in
        lazymatch P with
        | ?F g c a =>
            change (F g c a = true);
            refine (all_keep_bit_u8_spec F _ g c a _ _ _ _);
            [vm_compute; reflexivity | assumption | assumption | assumption
            | assumption]
        end
      | cbv beta zeta in H; cbv beta zeta; unreify H ]
  end.

(** ** 8-bit arithmetic and logic *)

Lemma u8_u16 t : u8 (u16 t) = t mod 256.
Proof. unfold u8, u16. Z.to_euclidean_division_equations. lia. Qed.

Lemma land_15 x : x .& 15 = x mod 16.
Proof. apply (Z.land_ones x 4). lia. Qed.

Lemma u16_land_u8 t m : 0 <= m < 256 -> u16 t .& m = (t mod 256) .& m.
Proof.
  intros Hm. unfold u16. change 65536 with (2 ^ 16). rewrite land_mod_mask by lia.
  symmetry. change 256 with (2 ^ 8). apply land_mod_mask; lia.
Qed.

(** The lookup index of the 8-bit operations, with and without the inner
    conversion to a byte of the source. *)
Lemma lookup8 a v t :
  u8 (((a .& 0x88) >> 3) .| ((v .& 0x88) >> 2) .| ((u16 t .& 0x88) >> 1)) =
  ((a .& 0x88) >> 3) .| ((v .& 0x88) >> 2) .| (((t mod 256) .& 0x88) >> 1).
Proof.
  rewrite u16_land_u8 by lia. apply u8_small.
  repeat apply lor_u8; apply mask_shr_u8; lia.
Qed.

Lemma lookup8_inner a v t :
  u8 (((a .& 0x88) >> 3) .| ((v .& 0x88) >> 2) .| u8 ((u16 t .& 0x88) >> 1)) =
  ((a .& 0x88) >> 3) .| ((v .& 0x88) >> 2) .| (((t mod 256) .& 0x88) >> 1).
Proof.
  rewrite (u8_small ((u16 t .& 0x88) >> 1)) by (apply mask_shr_u8; lia).
  apply lookup8.
Qed.

Lemma nz_bit_u16 x n : 0 <= n < 16 -> nz (u16 x .& 2 ^ n) = Z.odd (x / 2 ^ n).
Proof.
  intros Hn. rewrite nz_bit by lia. rewrite <- !Z.shiftr_div_pow2 by lia.
  rewrite <- !Z.testbit_odd. unfold u16. change 65536 with (2 ^ 16).
  apply Z.mod_pow2_bits_low. lia.
Qed.

(** The carry out of bit 7, and the borrow, as the code tests them. *)
Lemma carry8_add t : 0 <= t < 512 -> nz (u16 t .& 0x100) = (255 <? t).
Proof.
  intros Ht. change (nz (u16 t .& 2 ^ 8) = (255 <? t)).
  rewrite (nz_bit_u16 t 8) by lia. change (2 ^ 8) with 256.
  rewrite odd_01 by (Z.to_euclidean_division_equations; lia).
  destruct (Z.ltb_spec 255 t), (Z.eqb_spec (t / 256) 0); try done;
    exfalso; Z.to_euclidean_division_equations; lia.
Qed.

Lemma carry8_sub t : -256 <= t < 256 -> nz (u16 t .& 0x100) = (t <? 0).
Proof.
  intros Ht. change (nz (u16 t .& 2 ^ 8) = (t <? 0)).
  rewrite (nz_bit_u16 t 8) by lia. change (2 ^ 8) with 256.
  rewrite odd_01 by (Z.to_euclidean_division_equations; lia).
  destruct (Z.ltb_spec t 0), (Z.eqb_spec (t / 256) 0); try done;
    exfalso; Z.to_euclidean_division_equations; lia.
Qed.

Lemma sz53_u8 x : is_u8 (sz53_val x).
Proof. unfold sz53_val. apply lor_u8; [by apply land_u8_r | by apply fl_u8]. Qed.

Ltac flags_u8 :=
  repeat apply lor_u8;
  first [apply fl_u8; done | apply sz53_u8 | apply land_u8_r; done | done].

(** The flag byte of an addition [a + v + c] and of a subtraction
    [a - v - c], as the 8-bit engines compute it. *)
Lemma add8_flags c a v :
  c = 0 \/ c = 1 -> is_u8 a -> is_u8 v ->
  u8 (bsel_h (nz (u16 (a + v + c) .& 0x100)) FLAG_C 0 .|
      tbl_at h_halfcarry_add
        ((((a .& 0x88) >> 3) .| ((v .& 0x88) >> 2) .|
          ((((a + v + c) mod 256) .& 0x88) >> 1)) .& 7) .|
      tbl_at h_overflow_add
        ((((a .& 0x88) >> 3) .| ((v .& 0x88) >> 2) .|
          ((((a + v + c) mod 256) .& 0x88) >> 1)) >> 4) .|
      sz53_val (u8 (u16 (a + v + c)))) =
  fl (255 <? a + v + c) FLAG_C .|
  fl (15 <? (a .& 0x0F) + (v .& 0x0F) + c) FLAG_H .|
  fl (overflows (signed8 a + signed8 v + c)) FLAG_V .|
  sz53_val ((a + v + c) mod 256).
Proof.
  intros Hc Ha Hv. destruct (adc_lookup_check c a v Hc Ha Hv) as [-> ->].
  rewrite u8_u16, bsel_fl, !land_15 by done.
  rewrite carry8_add by (unfold is_u8 in *; lia).
  apply u8_small. flags_u8.
Qed.

Lemma sub8_flags c a v :
  c = 0 \/ c = 1 -> is_u8 a -> is_u8 v ->
  u8 (bsel_h (nz (u16 (a - v - c) .& 0x100)) FLAG_C 0 .| FLAG_N .|
      tbl_at h_halfcarry_sub
        ((((a .& 0x88) >> 3) .| ((v .& 0x88) >> 2) .|
          ((((a - v - c) mod 256) .& 0x88) >> 1)) .& 7) .|
      tbl_at h_overflow_sub
        ((((a .& 0x88) >> 3) .| ((v .& 0x88) >> 2) .|
          ((((a - v - c) mod 256) .& 0x88) >> 1)) >> 4) .|
      sz53_val (u8 (u16 (a - v - c)))) =
  fl (a <? v + c) FLAG_C .| FLAG_N .|
  fl ((a .& 0x0F) <? (v .& 0x0F) + c) FLAG_H .|
  fl (overflows (signed8 a - signed8 v - c)) FLAG_V .|
  sz53_val ((a - v - c) mod 256).
Proof.
  intros Hc Ha Hv. destruct (sbc_lookup_check c a v Hc Ha Hv) as [-> ->].
  rewrite u8_u16, bsel_fl, !land_15 by done.
  rewrite carry8_sub by (unfold is_u8 in *; lia).
  rewrite (ltb_iff (a - v - c) 0 a (v + c)) by lia.
  apply u8_small. flags_u8.
Qed.

(** The engines ADD and SUB run on a well-formed state: the result, the
    complete flag byte and the frame. *)
Lemma h_alu_add_run s a v :
  wf s -> is_u8 v -> rd s REG_A = Some a ->
  wp (h_alu_add tables s v) (fun s' =>
    wf s' /\ only_changes [REG_A; REG_F] s s' /\
    rd s' REG_A = Some (u8 (a + v)) /\
    rd s' REG_F =
      Some (fl (255 <? a + v) FLAG_C .|
            fl (15 <? (a .& 0x0F) + (v .& 0x0F)) FLAG_H .|
            fl (overflows (signed8 a + signed8 v)) FLAG_V .|
            sz53_val (u8 (a + v)))).
Proof.
  intros Hwf Hv Ha. pose proof (rd_is_u8 s REG_A a Hwf Ha) as Hab.
  unfold h_alu_add. sx. split; [done|]. sx_post.
  - apply u8_u16.
  - rewrite !lookup8_inner.
    pose proof (add8_flags 0 a v (or_introl eq_refl) Hab Hv) as E.
    rewrite !Z.add_0_r in E. exact E.
Qed.

Lemma h_alu_sub_run s a v :
  wf s -> is_u8 v -> rd s REG_A = Some a ->
  wp (h_alu_sub tables s v) (fun s' =>
    wf s' /\ only_changes [REG_A; REG_F] s s' /\
    rd s' REG_A = Some (u8 (a - v)) /\
    rd s' REG_F =
      Some (fl (a <? v) FLAG_C .| FLAG_N .|
            fl ((a .& 0x0F) <? (v .& 0x0F)) FLAG_H .|
            fl (overflows (signed8 a - signed8 v)) FLAG_V .|
            sz53_val (u8 (a - v)))).
Proof.
  intros Hwf Hv Ha. pose proof (rd_is_u8 s REG_A a Hwf Ha) as Hab.
  unfold h_alu_sub. sx. split; [done|]. sx_post.
  - apply u8_u16.
  - rewrite !lookup8_inner.
    pose proof (sub8_flags 0 a v (or_introl eq_refl) Hab Hv) as E.
    rewrite !Z.sub_0_r, !Z.add_0_r in E. exact E.
Qed.

(** X1. ADD A,v: the accumulator becomes [(a + v) mod 256]; the flags are the
    carry out of bit 7, the half-carry out of bit 3, the signed overflow
    and the sign, zero, bit-5 and bit-3 flags of the result, negate being
    clear; nothing but A and F changes. *)
Theorem alu_add_spec s a v :
  wf s -> is_u8 v -> rd s REG_A = Some a ->
  exists s',
    h_alu_add tables s v = Some s' /\
    only_changes [REG_A; REG_F] s s' /\
    rd s' REG_A = Some ((a + v) mod 256) /\
    rd s' REG_F =
      Some (fl (255 <? a + v) FLAG_C .|
            fl (15 <? (a .& 0x0F) + (v .& 0x0F)) FLAG_H .|
            fl (overflows (signed8 a + signed8 v)) FLAG_V .|
            sz53_val ((a + v) mod 256)).
Proof.
  intros Hwf Hv Ha.
  destruct (h_alu_add_run s a v Hwf Hv Ha) as (s' & E & _ & Hfr & HA & HF).
  by exists s'.
Qed.

Lemma alu_add_spec_witness :
  exists s',
    h_alu_add tables (mkState [0xF0; 0; 1; 2; 3; 4; 5; 6] 0x1234) 0x20 = Some s' /\
    rd s' REG_A = Some 0x10.
Proof.
  destruct (alu_add_spec (mkState [0xF0; 0; 1; 2; 3; 4; 5; 6] 0x1234) 0xF0 0x20)
    as (s' & E & _ & HA & _).
  - wf_concrete.
  - unfold is_u8. lia.
  - reflexivity.
  - exists s'. split; [exact E | exact HA].
Defined.

Lemma cp_carry_zero a v :
  is_u8 a -> is_u8 v ->
  bsel_h (nz (u16 (a - v) .& 0x100)) FLAG_C (bsel_h (negb (u16 (a - v) =? 0)) 0 FLAG_Z) =
  fl (a <? v) FLAG_C .| fl (a =? v) FLAG_Z.
Proof.
  unfold is_u8. intros Ha Hv. rewrite carry8_sub by lia.
  rewrite (ltb_iff (a - v) 0 a v) by lia.
  assert ((u16 (a - v) =? 0) = (a =? v)) as ->.
  { unfold u16. destruct (Z.eqb_spec ((a - v) mod 65536) 0), (Z.eqb_spec a v);
      try done; exfalso; Z.to_euclidean_division_equations; lia. }
  destruct (Z.ltb_spec a v), (Z.eqb_spec a v); try reflexivity. lia.
Qed.

(** X2. SUB v: the accumulator becomes [(a - v) mod 256]; the flags are the
    borrow [a < v] as carry, the borrow out of bit 3 as half-carry, the
    signed overflow, negate, and the sign, zero, bit-5 and bit-3 flags of
    the result. CP v leaves the accumulator alone and stores the same
    carry, negate, half-carry, overflow, sign and zero flags, with bits 5
    and 3 taken from the operand. *)
Theorem alu_sub_cp_spec s a v :
  wf s -> is_u8 v -> rd s REG_A = Some a ->
  (exists s',
     h_alu_sub tables s v = Some s' /\
     only_changes [REG_A; REG_F] s s' /\
     rd s' REG_A = Some ((a - v) mod 256) /\
     rd s' REG_F =
       Some (fl (a <? v) FLAG_C .| FLAG_N .|
             fl ((a .& 0x0F) <? (v .& 0x0F)) FLAG_H .|
             fl (overflows (signed8 a - signed8 v)) FLAG_V .|
             sz53_val ((a - v) mod 256))) /\
  (exists s',
     h_alu_cp s v = Some s' /\
     only_changes [REG_F] s s' /\
     rd s' REG_F =
       Some (fl (a <? v) FLAG_C .| fl (a =? v) FLAG_Z .| FLAG_N .|
             fl ((a .& 0x0F) <? (v .& 0x0F)) FLAG_H .|
             fl (overflows (signed8 a - signed8 v)) FLAG_V .|
             (v .& (FLAG_3 .| FLAG_5)) .|
             (((a - v) mod 256) .& FLAG_S))).
Proof.
  intros Hwf Hv Ha. pose proof (rd_is_u8 s REG_A a Hwf Ha) as Hab.
  split.
  - destruct (h_alu_sub_run s a v Hwf Hv Ha) as (s' & E & _ & Hfr & HA & HF).
    by exists s'.
  - as_wp. unfold h_alu_cp. sx. sx_post.
    rewrite !lookup8_inner, cp_carry_zero by done.
    destruct (sbc_lookup_check 0 a v (or_introl eq_refl) Hab Hv) as [EV EH].
    rewrite !Z.sub_0_r in EV, EH. rewrite EV, EH, !Z.sub_0_r, !Z.add_0_r.
    rewrite !land_15. rewrite (u16_land_u8 (a - v) FLAG_S) by done.
    rewrite (u8_small (_ .& FLAG_S)) by (by apply land_u8_r).
    apply u8_small. flags_u8.
Qed.

Lemma alu_sub_cp_spec_witness :
  exists s',
    h_alu_sub tables (mkState [0x10; 0; 1; 2; 3; 4; 5; 6] 0x1234) 0x20 = Some s' /\
    rd s' REG_A = Some 0xF0.
Proof.
  destruct (alu_sub_cp_spec (mkState [0x10; 0; 1; 2; 3; 4; 5; 6] 0x1234) 0x10 0x20)
    as [(s' & E & _ & HA & _) _].
  - wf_concrete.
  - unfold is_u8. lia.
  - reflexivity.
  - exists s'. split; [exact E | exact HA].
Defined.

(** X3. ADC v and SBC v fold the incoming carry [c = F & 1] in: the accumulator
    becomes [(a + v + c) mod 256], respectively [(a - v - c) mod 256]; carry,
    half-carry and overflow are those of the three-operand sum or
    difference. *)
Theorem alu_adc_sbc_spec s a f v :
  wf s -> is_u8 v -> rd s REG_A = Some a -> rd s REG_F = Some f ->
  (exists s',
     h_alu_adc tables s v = Some s' /\
     only_changes [REG_A; REG_F] s s' /\
     rd s' REG_A = Some ((a + v + f .& FLAG_C) mod 256) /\
     rd s' REG_F =
       Some (fl (255 <? a + v + f .& FLAG_C) FLAG_C .|
             fl (15 <? (a .& 0x0F) + (v .& 0x0F) + f .& FLAG_C) FLAG_H .|
             fl (overflows (signed8 a + signed8 v + f .& FLAG_C)) FLAG_V .|
             sz53_val ((a + v + f .& FLAG_C) mod 256))) /\
  (exists s',
     h_alu_sbc tables s v = Some s' /\
     only_changes [REG_A; REG_F] s s' /\
     rd s' REG_A = Some ((a - v - f .& FLAG_C) mod 256) /\
     rd s' REG_F =
       Some (fl (a <? v + f .& FLAG_C) FLAG_C .| FLAG_N .|
             fl ((a .& 0x0F) <? (v .& 0x0F) + f .& FLAG_C) FLAG_H .|
             fl (overflows (signed8 a - signed8 v - f .& FLAG_C)) FLAG_V .|
             sz53_val ((a - v - f .& FLAG_C) mod 256))).
Proof.
  intros Hwf Hv Ha Hf. pose proof (rd_is_u8 s REG_A a Hwf Ha) as Hab.
  pose proof (carry_bit_cases f) as Hc.
  split.
  - as_wp. unfold h_alu_adc. sx. sx_post.
    + apply u8_u16.
    + rewrite !lookup8. by apply add8_flags.
  - as_wp. unfold h_alu_sbc. sx. sx_post.
    + apply u8_u16.
    + rewrite !lookup8_inner. by apply sub8_flags.
Qed.

Lemma alu_adc_sbc_spec_witness :
  exists s',
    h_alu_adc tables (mkState [0xFF; 0x01; 1; 2; 3; 4; 5; 6] 0x1234) 0x00 = Some s' /\
    rd s' REG_A = Some 0x00.
Proof.
  destruct (alu_adc_sbc_spec (mkState [0xFF; 0x01; 1; 2; 3; 4; 5; 6] 0x1234) 0xFF 0x01 0x00)
    as [(s' & E & _ & HA & _) _].
  - wf_concrete.
  - unfold is_u8. lia.
  - reflexivity.
  - reflexivity.
  - exists s'. split; [exact E | exact HA].
Defined.

(** X4. AND v, XOR v, OR v: the accumulator becomes the bitwise result; the
    flags are the sign, zero, bit-5, bit-3 and parity flags of the result,
    with half-carry set by AND only; carry and negate are clear. *)
Theorem logic_ops_spec s a v :
  wf s -> is_u8 v -> rd s REG_A = Some a ->
  (exists s',
     h_alu_and tables s v = Some s' /\
     only_changes [REG_A; REG_F] s s' /\
     rd s' REG_A = Some (a .& v) /\
     rd s' REG_F = Some (FLAG_H .| sz53p_val (a .& v))) /\
  (exists s',
     h_alu_xor tables s v = Some s' /\
     only_changes [REG_A; REG_F] s s' /\
     rd s' REG_A = Some (a .^ v) /\
     rd s' REG_F = Some (sz53p_val (a .^ v))) /\
  (exists s',
     h_alu_or tables s v = Some s' /\
     only_changes [REG_A; REG_F] s s' /\
     rd s' REG_A = Some (a .| v) /\
     rd s' REG_F = Some (sz53p_val (a .| v))).
Proof.
  intros Hwf Hv Ha. pose proof (rd_is_u8 s REG_A a Hwf Ha) as Hab.
  split; [|split].
  - pose proof (land_u8 a v Hab Hv) as Hr.
    as_wp. unfold h_alu_and. sx. sx_post; rewrite ?(u8_small (a .& v)) by done; [done|].
    by_bytes1 (a .& v).
  - pose proof (lxor_u8 a v Hab Hv) as Hr.
    as_wp. unfold h_alu_xor. sx. sx_post; rewrite ?(u8_small (a .^ v)) by done; [done|].
    by_bytes1 (a .^ v).
  - pose proof (lor_u8 a v Hab Hv) as Hr.
    as_wp. unfold h_alu_or. sx. sx_post; rewrite ?(u8_small (a .| v)) by done; [done|].
    by_bytes1 (a .| v).
Qed.

Lemma logic_ops_spec_witness :
  exists s',
    h_alu_xor tables (mkState [0x5A; 0xFF; 1; 2; 3; 4; 5; 6] 0x1234) 0x5A = Some s' /\
    rd s' REG_A = Some 0x00 /\ rd s' REG_F = Some 0x44.
Proof.
  destruct (logic_ops_spec (mkState [0x5A; 0xFF; 1; 2; 3; 4; 5; 6] 0x1234) 0x5A 0x5A)
    as (_ & (s' & E & _ & HA & HF) & _).
  - wf_concrete.
  - unfold is_u8. lia.
  - reflexivity.
  - exists s'. split; [exact E | split; [exact HA | exact HF]].
Defined.

(** ** INC and DEC: the flags *)

(** X5. INC r and DEC r (opcodes 120 + k and 127 + k, r the register of entry
    [k]): r becomes [(x + 1) mod 256], respectively [(x - 1) mod 256]; the
    carry flag is kept; half-carry is set iff the low nibble wraps, overflow
    iff the result is 0x80 (INC) or 0x7F (DEC); negate is set by DEC only;
    the other flags are those of the result; only r and F change. *)
Theorem inc_dec_flags_spec s k reg x f imm :
  wf s -> 0 <= k < 7 -> idx INCDEC_REG_H k = Some reg ->
  rd s reg = Some x -> rd s REG_F = Some f ->
  (exists s',
     h_exec_instruction tables s (OP_INC_START + k) imm = Some s' /\
     only_changes [reg; REG_F] s s' /\
     rd s' reg = Some ((x + 1) mod 256) /\
     rd s' REG_F =
       Some ((f .& FLAG_C) .| fl (x =? 0x7F) FLAG_V .|
             fl ((x .& 0x0F) =? 0x0F) FLAG_H .| sz53_val ((x + 1) mod 256))) /\
  (exists s',
     h_exec_instruction tables s (OP_DEC_START + k) imm = Some s' /\
     only_changes [reg; REG_F] s s' /\
     rd s' reg = Some ((x - 1) mod 256) /\
     rd s' REG_F =
       Some ((f .& FLAG_C) .| FLAG_N .| fl (x =? 0x80) FLAG_V .|
             fl ((x .& 0x0F) =? 0) FLAG_H .| sz53_val ((x - 1) mod 256))).
Proof.
  intros Hwf Hk Hreg Hx Hf.
  destruct (incdec_reg k reg Hreg) as [Hr Hne]. unfold is_reg in Hr.
  pose proof (rd_is_u8 s reg x Hwf Hx) as Hxb.
  split.
  - rewrite exec_inc, Hreg by done. cbn [mbind option_bind].
    as_wp. unfold h_alu_inc. sx. sx_post; by_carry_bytes1 f x.
  - rewrite exec_dec, Hreg by done. cbn [mbind option_bind].
    as_wp. unfold h_alu_dec. sx. sx_post; by_carry_bytes1 f x.
Qed.

Lemma inc_dec_flags_spec_witness :
  exists s',
    h_exec_instruction tables (mkState [0xFF; 0xFF; 1; 2; 3; 4; 5; 6] 0x1234)
      (OP_INC_START + 0) 0 = Some s' /\
    rd s' REG_A = Some 0x00 /\ rd s' REG_F = Some 0x51.
Proof.
  destruct (inc_dec_flags_spec (mkState [0xFF; 0xFF; 1; 2; 3; 4; 5; 6] 0x1234)
              0 REG_A 0xFF 0xFF 0)
    as [(s' & E & _ & HA & HF) _].
  - wf_concrete.
  - lia.
  - reflexivity.
  - reflexivity.
  - reflexivity.
  - exists s'. split; [exact E | split; [exact HA | exact HF]].
Defined.

(** ** NEG, CPL, SCF, CCF *)

(** X6. NEG (opcode 142) subtracts the accumulator from zero: A becomes
    [(- a) mod 256], carry is set iff [a] is not 0, overflow iff [a] is
    0x80, half-carry iff the low nibble of [a] is not 0, negate is set; and
    a second NEG gives the accumulator back. *)
Theorem neg_spec s a imm :
  wf s -> rd s REG_A = Some a ->
  exists s',
    h_exec_instruction tables s OP_NEG imm = Some s' /\
    only_changes [REG_A; REG_F] s s' /\
    rd s' REG_A = Some ((- a) mod 256) /\
    rd s' REG_F =
      Some (fl (negb (a =? 0)) FLAG_C .| FLAG_N .|
            fl (negb ((a .& 0x0F) =? 0)) FLAG_H .| fl (a =? 0x80) FLAG_V .|
            sz53_val ((- a) mod 256)) /\
    exists s'',
      h_exec_instruction tables s' OP_NEG imm = Some s'' /\
      rd s'' REG_A = Some a.
Proof.
  intros Hwf Ha. pose proof (rd_is_u8 s REG_A a Hwf Ha) as Hab.
  as_wp. exec_unfold. unfold h_alu_sub. sx.
  split; [sx_frame|]. split; [rd_simpl; f_equal; by_bytes1 a|].
  split; [rd_simpl; f_equal; by_bytes1 a|].
  as_wp. exec_unfold. unfold h_alu_sub. sx. rd_simpl. f_equal. by_bytes1 a.
Qed.

Lemma neg_spec_witness :
  exists s',
    h_exec_instruction tables (mkState [0x01; 0; 1; 2; 3; 4; 5; 6] 0x1234) OP_NEG 0
      = Some s' /\
    rd s' REG_A = Some 0xFF.
Proof.
  destruct (neg_spec (mkState [0x01; 0; 1; 2; 3; 4; 5; 6] 0x1234) 0x01 0)
    as (s' & E & _ & HA & _).
  - wf_concrete.
  - reflexivity.
  - exists s'. split; [exact E | exact HA].
Defined.

(** X7. CPL (opcode 139) complements the accumulator, [255 - a], sets
    half-carry and negate and keeps carry, parity, zero and sign; a second
    CPL gives the accumulator back. SCF (140) sets the carry flag and CCF
    (141) complements it, leaving the old carry in half-carry; both clear
    negate, keep parity, zero and sign and change no register but F. *)
Theorem cpl_scf_ccf_spec s a f imm :
  wf s -> rd s REG_A = Some a -> rd s REG_F = Some f ->
  (exists s',
     h_exec_instruction tables s OP_CPL imm = Some s' /\
     only_changes [REG_A; REG_F] s s' /\
     rd s' REG_A = Some (255 - a) /\
     rd s' REG_F =
       Some ((f .& (FLAG_C .| FLAG_P .| FLAG_Z .| FLAG_S)) .| FLAG_H .| FLAG_N .|
             ((255 - a) .& (FLAG_5 .| FLAG_3))) /\
     exists s'',
       h_exec_instruction tables s' OP_CPL imm = Some s'' /\
       rd s'' REG_A = Some a) /\
  (exists s',
     h_exec_instruction tables s OP_SCF imm = Some s' /\
     only_changes [REG_F] s s' /\
     rd s' REG_F =
       Some ((f .& (FLAG_P .| FLAG_Z .| FLAG_S)) .| FLAG_C .|
             (a .& (FLAG_5 .| FLAG_3)))) /\
  (exists s',
     h_exec_instruction tables s OP_CCF imm = Some s' /\
     only_changes [REG_F] s s' /\
     rd s' REG_F =
       Some ((f .& (FLAG_P .| FLAG_Z .| FLAG_S)) .|
             fl (f .& FLAG_C =? 0) FLAG_C .| fl (f .& FLAG_C =? 1) FLAG_H .|
             (a .& (FLAG_5 .| FLAG_3)))).
Proof.
  intros Hwf Ha Hf.
  pose proof (rd_is_u8 s REG_A a Hwf Ha) as Hab.
  pose proof (rd_is_u8 s REG_F f Hwf Hf) as Hfb.
  split; [|split].
  - as_wp. exec_unfold. sx.
    split; [sx_frame|]. split; [rd_simpl; f_equal; by_bytes1 a|].
    split; [rd_simpl; f_equal; by_flag_fields f a|].
    as_wp. exec_unfold. sx. rd_simpl. f_equal. by_bytes1 a.
  - as_wp. exec_unfold. sx. sx_post. by_flag_fields f a.
  - as_wp. exec_unfold. sx. rewrite if_wr. sx. sx_post. by_flag_fields f a.
Qed.

Lemma cpl_scf_ccf_spec_witness :
  exists s',
    h_exec_instruction tables (mkState [0x0F; 0x01; 1; 2; 3; 4; 5; 6] 0x1234) OP_CPL 0
      = Some s' /\
    rd s' REG_A = Some 0xF0.
Proof.
  destruct (cpl_scf_ccf_spec (mkState [0x0F; 0x01; 1; 2; 3; 4; 5; 6] 0x1234) 0x0F 0x01 0)
    as [(s' & E & _ & HA & _) _].
  - wf_concrete.
  - reflexivity.
  - reflexivity.
  - exists s'. split; [exact E | exact HA].
Defined.

(** ** Rotates of the accumulator *)

(** X8. RLCA, RRCA, RLA, RRA (opcodes 134..137) rotate the accumulator by one
    bit, RLA and RRA through the carry flag [c = F & 1]; the bit rotated out
    is the new carry, half-carry and negate are cleared, parity, zero and
    sign are kept. RRCA undoes RLCA and RLCA undoes RRCA; RRA undoes RLA and
    RLA undoes RRA, the carry flag included. *)
Theorem rotate_a_spec s a f imm :
  wf s -> rd s REG_A = Some a -> rd s REG_F = Some f ->
  (exists s',
     h_exec_instruction tables s OP_RLCA imm = Some s' /\
     only_changes [REG_A; REG_F] s s' /\
     rd s' REG_A = Some ((2 * a) mod 256 + a / 128) /\
     rd s' REG_F =
       Some ((f .& (FLAG_P .| FLAG_Z .| FLAG_S)) .| fl (127 <? a) FLAG_C .|
             (((2 * a) mod 256 + a / 128) .& (FLAG_5 .| FLAG_3))) /\
     exists s'',
       h_exec_instruction tables s' OP_RRCA imm = Some s'' /\
       rd s'' REG_A = Some a) /\
  (exists s',
     h_exec_instruction tables s OP_RRCA imm = Some s' /\
     only_changes [REG_A; REG_F] s s' /\
     rd s' REG_A = Some (a / 2 + 128 * (a mod 2)) /\
     rd s' REG_F =
       Some ((f .& (FLAG_P .| FLAG_Z .| FLAG_S)) .| fl (a mod 2 =? 1) FLAG_C .|
             ((a / 2 + 128 * (a mod 2)) .& (FLAG_5 .| FLAG_3))) /\
     exists s'',
       h_exec_instruction tables s' OP_RLCA imm = Some s'' /\
       rd s'' REG_A = Some a) /\
  (exists s',
     h_exec_instruction tables s OP_RLA imm = Some s' /\
     only_changes [REG_A; REG_F] s s' /\
     rd s' REG_A = Some ((2 * a) mod 256 + f .& FLAG_C) /\
     rd s' REG_F =
       Some ((f .& (FLAG_P .| FLAG_Z .| FLAG_S)) .| fl (127 <? a) FLAG_C .|
             (((2 * a) mod 256 + f .& FLAG_C) .& (FLAG_5 .| FLAG_3))) /\
     exists s'' f'',
       h_exec_instruction tables s' OP_RRA imm = Some s'' /\
       rd s'' REG_A = Some a /\
       rd s'' REG_F = Some f'' /\ f'' .& FLAG_C = f .& FLAG_C) /\
  (exists s',
     h_exec_instruction tables s OP_RRA imm = Some s' /\
     only_changes [REG_A; REG_F] s s' /\
     rd s' REG_A = Some (a / 2 + 128 * (f .& FLAG_C)) /\
     rd s' REG_F =
       Some ((f .& (FLAG_P .| FLAG_Z .| FLAG_S)) .| fl (a mod 2 =? 1) FLAG_C .|
             ((a / 2 + 128 * (f .& FLAG_C)) .& (FLAG_5 .| FLAG_3))) /\
     exists s'' f'',
       h_exec_instruction tables s' OP_RLA imm = Some s'' /\
       rd s'' REG_A = Some a /\
       rd s'' REG_F = Some f'' /\ f'' .& FLAG_C = f .& FLAG_C).
Proof.
  intros Hwf Ha Hf.
  pose proof (rd_is_u8 s REG_A a Hwf Ha) as Hab.
  pose proof (rd_is_u8 s REG_F f Hwf Hf) as Hfb.
  split; [|split; [|split]].
  - as_wp. exec_unfold. sx.
    split; [sx_frame|]. split; [rd_simpl; f_equal; by_bytes1 a|].
    split; [rd_simpl; f_equal; by_flag_fields f a|].
    as_wp. exec_unfold. sx. rd_simpl. f_equal. by_bytes1 a.
  - as_wp. exec_unfold. sx.
    split; [sx_frame|]. split; [rd_simpl; f_equal; by_bytes1 a|].
    split; [rd_simpl; f_equal; by_flag_fields f a|].
    as_wp. exec_unfold. sx. rd_simpl. f_equal. by_bytes1 a.
  - as_wp. exec_unfold. sx.
    split; [sx_frame|]. split; [rd_simpl; f_equal; by_carry_bytes1 f a|].
    split; [rd_simpl; f_equal; by_flag_fields f a|].
    enough (wp (h_exec_instruction tables s'0 OP_RRA imm) (fun s'' =>
              rd s'' REG_A = Some a /\
              exists f'', rd s'' REG_F = Some f'' /\ f'' .& FLAG_C = f .& FLAG_C))
      as (s2 & E2 & HA2 & f2 & HF2 & HC2) by (exists s2, f2; done).
    exec_unfold. sx. split; [rd_simpl; f_equal; by_flag_fields f a|].
    eexists. split; [rd_simpl; reflexivity|]. by_flag_fields f a.
  - as_wp. exec_unfold. sx.
    split; [sx_frame|]. split; [rd_simpl; f_equal; by_flag_fields f a|].
    split; [rd_simpl; f_equal; by_flag_fields f a|].
    enough (wp (h_exec_instruction tables s'0 OP_RLA imm) (fun s'' =>
              rd s'' REG_A = Some a /\
              exists f'', rd s'' REG_F = Some f'' /\ f'' .& FLAG_C = f .& FLAG_C))
      as (s2 & E2 & HA2 & f2 & HF2 & HC2) by (exists s2, f2; done).
    exec_unfold. sx. split; [rd_simpl; f_equal; by_flag_fields f a|].
    eexists. split; [rd_simpl; reflexivity|]. by_flag_fields f a.
Qed.

Lemma rotate_a_spec_witness :
  exists s',
    h_exec_instruction tables (mkState [0x81; 0x00; 1; 2; 3; 4; 5; 6] 0x1234) OP_RLCA 0
      = Some s' /\
    rd s' REG_A = Some 0x03.
Proof.
  destruct (rotate_a_spec (mkState [0x81; 0x00; 1; 2; 3; 4; 5; 6] 0x1234) 0x81 0x00 0)
    as [(s' & E & _ & HA & _) _].
  - wf_concrete.
  - reflexivity.
  - reflexivity.
  - exists s'. split; [exact E | exact HA].
Defined.

(** ** DAA *)

(** Forget the states of a run; the goal is on values only. *)
Ltac clear_runs :=
  repeat match goal with
  | H : wr _ _ _ = Some _ |- _ => clear H
  | H : rd _ _ = Some _ |- _ => clear H
  | H : wf _ |- _ => clear H
  | H : only_changes _ _ _ |- _ => clear H
  end.

Lemma only_changes_trans regs s0 s1 s2 :
  only_changes regs s0 s1 -> only_changes regs s1 s2 -> only_changes regs s0 s2.
Proof.
  intros [H1 S1] [H2 S2]. split; [|congruence].
  intros j Hj. rewrite H2, H1; done.
Qed.

(** Exhaustive check over the pairs of packed BCD bytes. *)
Lemma all_bcd_spec P :
  all_u8 (fun a =>
    if is_bcd a
    then all_u8 (fun v => if is_bcd v then P a v else true)
    else true) = true ->
  forall a v, is_u8 a -> is_u8 v -> is_bcd a = true -> is_bcd v = true -> P a v = true.
Proof.
  intros H a v Ha Hv Hba Hbv.
  pose proof (all_u8_spec _ H a Ha) as H1. cbv beta in H1. rewrite Hba in H1.
  pose proof (all_u8_spec _ H1 v Hv) as H2. cbv beta in H2. by rewrite Hbv in H2.
Qed.

Tactic Notation "by_bcd2" constr(a) constr(b) :=
  lazymatch goal with
  | |- ?G =>
      let bt := reify_prop G in
      let H := fresh in
      assert (bt = true) as H;
      [ let P := eval pattern a, b in bt in
        lazymatch P with
        | ?F a b =>
            change (F a b = true);
            refine (all_bcd_spec F _ a b _ _ _ _);
            [vm_compute; reflexivity | assumption | assumption | assumption
            | assumption]
        end
      | cbv beta zeta in H; cbv beta zeta; unreify H ]
  end.

(** The carry that DAA leaves is the one it computed: the flags of the
    correction and the parity do not reach bit 0. *)
Lemma daa_final_carry f2 k (p : bool) :
  u8 ((f2 .& u32 (Z.lnot (FLAG_C .| FLAG_P))) .| k .| fl p FLAG_P) .& FLAG_C =
  k .& FLAG_C.
Proof.
  unfold u8. change 256 with (2 ^ 8). rewrite land_mod_mask by done.
  rewrite !Z.land_lor_distr_l, <- Z.land_assoc.
  change (u32 (Z.lnot (FLAG_C .| FLAG_P)) .& FLAG_C) with 0.
  rewrite Z.land_0_r, Z.lor_0_l. by destruct p; rewrite ?Z.lor_0_r.
Qed.

(** The negate flag tells DAA which operation came before. *)
Lemma add_flags_N (c1 c2 c3 : bool) r :
  is_u8 r ->
  nz ((fl c1 FLAG_C .| fl c2 FLAG_H .| fl c3 FLAG_V .| sz53_val r) .& FLAG_N) = false /\
  (fl c1 FLAG_C .| fl c2 FLAG_H .| fl c3 FLAG_V .| sz53_val r) .& FLAG_H = fl c2 FLAG_H /\
  (fl c1 FLAG_C .| fl c2 FLAG_H .| fl c3 FLAG_V .| sz53_val r) .& FLAG_C = fl c1 FLAG_C.
Proof. intros Hr. destruct c1, c2, c3; by_bytes1 r. Qed.

Lemma sub_flags_N (c1 c2 c3 : bool) r :
  is_u8 r ->
  nz ((fl c1 FLAG_C .| FLAG_N .| fl c2 FLAG_H .| fl c3 FLAG_V .| sz53_val r) .& FLAG_N) = true /\
  (fl c1 FLAG_C .| FLAG_N .| fl c2 FLAG_H .| fl c3 FLAG_V .| sz53_val r) .& FLAG_H =
    fl c2 FLAG_H /\
  (fl c1 FLAG_C .| FLAG_N .| fl c2 FLAG_H .| fl c3 FLAG_V .| sz53_val r) .& FLAG_C =
    fl c1 FLAG_C.
Proof. intros Hr. destruct c1, c2, c3; by_bytes1 r. Qed.

(** The correction that DAA adds or subtracts is a byte. *)
Lemma daa_add_u8 (b1 b2 : bool) :
  is_u8 (if b2 then u8 ((if b1 then 6 else 0) .| 0x60) else if b1 then 6 else 0).
Proof. destruct b1, b2; first [apply u8_range | unfold is_u8; lia]. Qed.

(** X9. DAA (opcode 138) after an addition or a subtraction of packed BCD
    bytes gives the packed BCD result: [ADD A,v; DAA] leaves the BCD byte of
    [(a + v) mod 100], decimal, with carry set iff the sum exceeds 99, and
    [SUB v; DAA] the BCD byte of [(a - v) mod 100] with carry set iff
    [a < v]. *)
Theorem daa_bcd_spec s a v imm :
  wf s -> is_u8 v -> rd s REG_A = Some a ->
  is_bcd a = true -> is_bcd v = true ->
  (exists s',
     (s1 ← h_alu_add tables s v; h_exec_instruction tables s1 OP_DAA imm) = Some s' /\
     only_changes [REG_A; REG_F] s s' /\
     exists r f',
       rd s' REG_A = Some r /\ rd s' REG_F = Some f' /\
       is_bcd r = true /\
       bcd_val r = (bcd_val a + bcd_val v) mod 100 /\
       (f' .& FLAG_C =? 1) = (99 <? bcd_val a + bcd_val v)) /\
  (exists s',
     (s1 ← h_alu_sub tables s v; h_exec_instruction tables s1 OP_DAA imm) = Some s' /\
     only_changes [REG_A; REG_F] s s' /\
     exists r f',
       rd s' REG_A = Some r /\ rd s' REG_F = Some f' /\
       is_bcd r = true /\
       bcd_val r = (bcd_val a - bcd_val v) mod 100 /\
       (f' .& FLAG_C =? 1) = (bcd_val a <? bcd_val v)).
Proof.
  intros Hwf Hv Ha Hba Hbv. pose proof (rd_is_u8 s REG_A a Hwf Ha) as Hab.
  split.
  - destruct (h_alu_add_run s a v Hwf Hv Ha) as (s1 & E1 & Hwf1 & Hfr1 & HA1 & HF1).
    rewrite E1. cbn [mbind option_bind].
    match type of HF1 with
    | _ = Some (fl ?c1 _ .| fl ?c2 _ .| fl ?c3 _ .| sz53_val ?r) =>
        destruct (add_flags_N c1 c2 c3 r (u8_range _)) as (HN & EH & EC)
    end.
    set (r1 := u8 (a + v)) in *.
    as_wp. exec_unfold. unfold h_exec_daa. sx. rewrite HN, ?EH, ?EC.
    eapply wp_mono; [apply (h_alu_add_run s1 r1 _ Hwf1 (daa_add_u8 _ _) HA1)|].
    cbv beta. intros s2 (Hwf2 & Hfr2 & HA2 & HF2). sx.
    split; [eapply only_changes_trans, only_changes_trans; [exact Hfr1|exact Hfr2|sx_frame]|].
    do 2 eexists. split; [rd_simpl; exact HA2|]. split; [rd_simpl; reflexivity|].
    clear_runs. clear HN EH EC. unfold parity_val. rewrite daa_final_carry.
    revert r1. by_bcd2 a v.
  - destruct (h_alu_sub_run s a v Hwf Hv Ha) as (s1 & E1 & Hwf1 & Hfr1 & HA1 & HF1).
    rewrite E1. cbn [mbind option_bind].
    match type of HF1 with
    | _ = Some (fl ?c1 _ .| _ .| fl ?c2 _ .| fl ?c3 _ .| sz53_val ?r) =>
        destruct (sub_flags_N c1 c2 c3 r (u8_range _)) as (HN & EH & EC)
    end.
    set (r1 := u8 (a - v)) in *.
    as_wp. exec_unfold. unfold h_exec_daa. sx. rewrite HN, ?EH, ?EC.
    eapply wp_mono; [apply (h_alu_sub_run s1 r1 _ Hwf1 (daa_add_u8 _ _) HA1)|].
    cbv beta. intros s2 (Hwf2 & Hfr2 & HA2 & HF2). sx.
    split; [eapply only_changes_trans, only_changes_trans; [exact Hfr1|exact Hfr2|sx_frame]|].
    do 2 eexists. split; [rd_simpl; exact HA2|]. split; [rd_simpl; reflexivity|].
    clear_runs. clear HN EH EC. unfold parity_val. rewrite daa_final_carry.
    revert r1. by_bcd2 a v.
Qed.

Lemma daa_bcd_spec_witness :
  exists s',
    (s1 ← h_alu_add tables (mkState [0x19; 0; 1; 2; 3; 4; 5; 6] 0x1234) 0x28;
     h_exec_instruction tables s1 OP_DAA 0) = Some s' /\
    only_changes [REG_A; REG_F] (mkState [0x19; 0; 1; 2; 3; 4; 5; 6] 0x1234) s'.
Proof.
  destruct (daa_bcd_spec (mkState [0x19; 0; 1; 2; 3; 4; 5; 6] 0x1234) 0x19 0x28 0)
    as [(s' & E & Hfr & _) _].
  - wf_concrete.
  - unfold is_u8. lia.
  - reflexivity.
  - reflexivity.
  - reflexivity.
  - exists s'. split; [exact E | exact Hfr].
Defined.

(** ** CB-prefixed rotates and shifts *)

Lemma exec_cb T s j k imm :
  0 <= j < 7 -> 0 <= k < 7 ->
  h_exec_instruction T s (OP_CB_START + 7 * j + k) imm =
    reg ← idx CB_REG_H k;
    match j with
    | 0 => cb_apply (h_cb_rlc T) s reg | 1 => cb_apply (h_cb_rrc T) s reg
    | 2 => cb_apply (h_cb_rl T) s reg | 3 => cb_apply (h_cb_rr T) s reg
    | 4 => cb_apply (h_cb_sla T) s reg | 5 => cb_apply (h_cb_sra T) s reg
    | 6 => cb_apply (h_cb_srl T) s reg
    | _ => Some s
    end.
Proof.
  intros Hj Hk. unfold h_exec_instruction.
  assert (classify (OP_CB_START + 7 * j + k) = Some B_CB) as ->
    by (apply classify_Some; unfold_ops; lia).
  cbv zeta.
  assert (cb_op (OP_CB_START + 7 * j + k) = j) as -> by quot_lia.
  assert (cb_reg_idx (OP_CB_START + 7 * j + k) = k) as -> by quot_lia.
  reflexivity.
Qed.

Lemma exec_sll T s k imm :
  0 <= k < 7 ->
  h_exec_instruction T s (OP_SLL_A + k) imm =
    reg ← idx CB_REG_H k; cb_apply (h_cb_sll T) s reg.
Proof.
  intros Hk. unfold h_exec_instruction.
  destruct (Z.eq_dec k 0) as [-> | Hne].
  - reflexivity.
  - assert (classify (OP_SLL_A + k) = Some B_SLL_B) as ->
      by (apply classify_Some; unfold_ops; lia).
    unfold OP_SLL_A, OP_SLL_B_START. by replace (193 + k - 194 + 1) with k by lia.
Qed.

Lemma cb_reg k reg : idx CB_REG_H k = Some reg -> is_reg reg /\ reg <> REG_F.
Proof.
  apply (idx_Forall (fun x => is_reg x /\ x <> REG_F)).
  repeat constructor; done.
Qed.

(** X10. The rotates and shifts of the CB group, on the register [reg] of entry
    [k] holding [v] (opcodes 144 + 7 j + k for RLC, RRC, RL, RR, SLA, SRA,
    SRL, and 193 + k for SLL): the new value in arithmetic terms and the bit
    shifted out. RL and RR shift the carry flag in; SRA keeps the sign bit;
    SLL shifts a one in. The SLL opcodes 193..199 address the seven
    registers in the order of the other CB opcodes. *)
Theorem cb_shift_spec s k reg v f imm :
  wf s -> 0 <= k < 7 -> idx CB_REG_H k = Some reg ->
  rd s reg = Some v -> rd s REG_F = Some f ->
  shift_post s reg ((2 * v) mod 256 + v / 128) (127 <? v)
    (h_exec_instruction tables s (OP_CB_START + 7 * 0 + k) imm) /\
  shift_post s reg (v / 2 + 128 * (v mod 2)) (v mod 2 =? 1)
    (h_exec_instruction tables s (OP_CB_START + 7 * 1 + k) imm) /\
  shift_post s reg ((2 * v) mod 256 + f .& FLAG_C) (127 <? v)
    (h_exec_instruction tables s (OP_CB_START + 7 * 2 + k) imm) /\
  shift_post s reg (v / 2 + 128 * (f .& FLAG_C)) (v mod 2 =? 1)
    (h_exec_instruction tables s (OP_CB_START + 7 * 3 + k) imm) /\
  shift_post s reg ((2 * v) mod 256) (127 <? v)
    (h_exec_instruction tables s (OP_CB_START + 7 * 4 + k) imm) /\
  shift_post s reg (v / 2 + 128 * (v / 128)) (v mod 2 =? 1)
    (h_exec_instruction tables s (OP_CB_START + 7 * 5 + k) imm) /\
  shift_post s reg (v / 2) (v mod 2 =? 1)
    (h_exec_instruction tables s (OP_CB_START + 7 * 6 + k) imm) /\
  shift_post s reg ((2 * v) mod 256 + 1) (127 <? v)
    (h_exec_instruction tables s (OP_SLL_A + k) imm).
Proof.
  intros Hwf Hk Hreg Hv Hf.
  destruct (cb_reg k reg Hreg) as [Hr Hne]. unfold is_reg in Hr.
  pose proof (rd_is_u8 s reg v Hwf Hv) as Hvb.
  pose proof (rd_is_u8 s REG_F f Hwf Hf) as Hfb.
  rewrite !exec_cb, exec_sll by lia. rewrite Hreg. cbn [mbind option_bind].
  unfold shift_post.
  repeat split.
  - as_wp. unfold cb_apply, h_cb_rlc. sx. sx_post; by_bytes1 v.
  - as_wp. unfold cb_apply, h_cb_rrc. sx. sx_post; by_bytes1 v.
  - as_wp. unfold cb_apply, h_cb_rl. sx. sx_post; by_carry_bytes1 f v.
  - as_wp. unfold cb_apply, h_cb_rr. sx. sx_post; by_flag_fields f v.
  - as_wp. unfold cb_apply, h_cb_sla. sx. sx_post; by_bytes1 v.
  - as_wp. unfold cb_apply, h_cb_sra. sx. sx_post; by_bytes1 v.
  - as_wp. unfold cb_apply, h_cb_srl. sx. sx_post; by_bytes1 v.
  - as_wp. unfold cb_apply, h_cb_sll. sx. sx_post; by_bytes1 v.
Qed.

Lemma cb_shift_spec_witness :
  shift_post (mkState [1; 0; 0x81; 2; 3; 4; 5; 6] 0x1234) REG_B 0x03 true
    (h_exec_instruction tables (mkState [1; 0; 0x81; 2; 3; 4; 5; 6] 0x1234)
       (OP_SLL_A + 1) 0).
Proof.
  destruct (cb_shift_spec (mkState [1; 0; 0x81; 2; 3; 4; 5; 6] 0x1234) 1 REG_B 0x81 0 0)
    as (_ & _ & _ & _ & _ & _ & _ & H).
  - wf_concrete.
  - lia.
  - reflexivity.
  - reflexivity.
  - reflexivity.
  - exact H.
Defined.

(** ** BIT, RES and SET *)

Lemma exec_bit_op T s b k imm :
  0 <= b < 8 -> 0 <= k < 7 ->
  h_exec_instruction T s (OP_BIT_START + 7 * b + k) imm =
    reg ← idx CB_REG_H k; v ← rd s reg; h_exec_bit s v b.
Proof.
  intros Hb Hk. unfold h_exec_instruction.
  assert (classify (OP_BIT_START + 7 * b + k) = Some B_BIT) as ->
    by (apply classify_Some; unfold_ops; lia).
  cbv zeta.
  assert (Z.rem (OP_BIT_START + 7 * b + k - OP_BIT_START) 7 = k) as -> by quot_lia.
  assert ((OP_BIT_START + 7 * b + k - OP_BIT_START) ÷ 7 = b) as -> by quot_lia.
  reflexivity.
Qed.

Lemma exec_res_op T s b k imm :
  0 <= b < 8 -> 0 <= k < 7 ->
  h_exec_instruction T s (OP_RES_START + 7 * b + k) imm =
    reg ← idx CB_REG_H k; v ← rd s reg;
    wr s reg (v .& u32 (Z.lnot (u32 (1 << b)))).
Proof.
  intros Hb Hk. unfold h_exec_instruction.
  assert (classify (OP_RES_START + 7 * b + k) = Some B_RES) as ->
    by (apply classify_Some; unfold_ops; lia).
  cbv zeta.
  assert (Z.rem (OP_RES_START + 7 * b + k - OP_RES_START) 7 = k) as -> by quot_lia.
  assert ((OP_RES_START + 7 * b + k - OP_RES_START) ÷ 7 = b) as -> by quot_lia.
  reflexivity.
Qed.

Lemma exec_set_op T s b k imm :
  0 <= b < 8 -> 0 <= k < 7 ->
  h_exec_instruction T s (OP_SET_START + 7 * b + k) imm =
    reg ← idx CB_REG_H k; v ← rd s reg; wr s reg (v .| u32 (1 << b)).
Proof.
  intros Hb Hk. unfold h_exec_instruction.
  assert (classify (OP_SET_START + 7 * b + k) = Some B_SET) as ->
    by (apply classify_Some; unfold_ops; lia).
  cbv zeta.
  assert (Z.rem (OP_SET_START + 7 * b + k - OP_SET_START) 7 = k) as -> by quot_lia.
  assert ((OP_SET_START + 7 * b + k - OP_SET_START) ÷ 7 = b) as -> by quot_lia.
  reflexivity.
Qed.

Lemma bit_cases b :
  0 <= b < 8 ->
  b = 0 \/ b = 1 \/ b = 2 \/ b = 3 \/ b = 4 \/ b = 5 \/ b = 6 \/ b = 7.
Proof. lia. Qed.

Ltac each_bit b Hb :=
  destruct (bit_cases b Hb) as
    [-> | [-> | [-> | [-> | [-> | [-> | [-> | ->]]]]]]].

(** X11. BIT b,r (opcode 200 + 7 b + k, register [reg] of entry [k] holding
    [v]) changes F only: carry is kept, half-carry is set, negate is clear,
    zero and parity are set iff bit [b] of [v] is clear, sign is set iff
    [b] is 7 and the bit is set, and bits 5 and 3 are those of [v]. *)
Theorem bit_spec s b k reg v f imm :
  wf s -> 0 <= b < 8 -> 0 <= k < 7 -> idx CB_REG_H k = Some reg ->
  rd s reg = Some v -> rd s REG_F = Some f ->
  exists s',
    h_exec_instruction tables s (OP_BIT_START + 7 * b + k) imm = Some s' /\
    only_changes [REG_F] s s' /\
    rd s' REG_F =
      Some ((f .& FLAG_C) .| FLAG_H .| (v .& (FLAG_5 .| FLAG_3)) .|
            fl (negb (Z.testbit v b)) (FLAG_Z .| FLAG_P) .|
            fl ((b =? 7) && Z.testbit v 7) FLAG_S).
Proof.
  intros Hwf Hb Hk Hreg Hv Hf.
  destruct (cb_reg k reg Hreg) as [Hr Hne]. unfold is_reg in Hr.
  pose proof (rd_is_u8 s reg v Hwf Hv) as Hvb.
  pose proof (rd_is_u8 s REG_F f Hwf Hf) as Hfb.
  rewrite exec_bit_op by lia. rewrite Hreg. cbn [mbind option_bind].
  rewrite Hv. cbn [mbind option_bind].
  as_wp. unfold h_exec_bit. sx.
  match goal with |- wp (if ?c then _ else _) _ => destruct c eqn:Hc1 end;
    sx;
    (match goal with |- wp (if ?c then _ else _) _ => destruct c eqn:Hc2 end);
    sx; sx_post; revert Hc1 Hc2; each_bit b Hb; by_carry_bytes1 f v.
Qed.

Lemma bit_spec_witness :
  exists s',
    h_exec_instruction tables (mkState [0x80; 0x01; 1; 2; 3; 4; 5; 6] 0x1234)
      (OP_BIT_START + 7 * 7 + 0) 0 = Some s' /\
    rd s' REG_F = Some (FLAG_C .| FLAG_H .| FLAG_S).
Proof.
  destruct (bit_spec (mkState [0x80; 0x01; 1; 2; 3; 4; 5; 6] 0x1234) 7 0 REG_A 0x80 0x01 0)
    as (s' & E & _ & HF).
  - wf_concrete.
  - lia.
  - lia.
  - reflexivity.
  - reflexivity.
  - reflexivity.
  - exists s'. split; [exact E | exact HF].
Defined.

(** X12. RES b,r (opcode 256 + 7 b + k) clears bit [b] of the register and SET
    b,r (opcode 312 + 7 b + k) sets it; nothing else changes, the flags
    included. *)
Theorem res_set_spec s b k reg v imm :
  wf s -> 0 <= b < 8 -> 0 <= k < 7 -> idx CB_REG_H k = Some reg ->
  rd s reg = Some v ->
  (exists s',
     h_exec_instruction tables s (OP_RES_START + 7 * b + k) imm = Some s' /\
     only_changes [reg] s s' /\
     rd s' reg = Some (Z.clearbit v b)) /\
  (exists s',
     h_exec_instruction tables s (OP_SET_START + 7 * b + k) imm = Some s' /\
     only_changes [reg] s s' /\
     rd s' reg = Some (Z.setbit v b)).
Proof.
  intros Hwf Hb Hk Hreg Hv.
  destruct (cb_reg k reg Hreg) as [Hr Hne]. unfold is_reg in Hr.
  pose proof (rd_is_u8 s reg v Hwf Hv) as Hvb.
  rewrite exec_res_op, exec_set_op by lia. rewrite Hreg. cbn [mbind option_bind].
  rewrite Hv. cbn [mbind option_bind].
  split.
  - as_wp. sx. sx_post. each_bit b Hb; by_bytes1 v.
  - as_wp. sx. sx_post. each_bit b Hb; by_bytes1 v.
Qed.

Lemma res_set_spec_witness :
  exists s',
    h_exec_instruction tables (mkState [0xFF; 0; 1; 2; 3; 4; 5; 6] 0x1234)
      (OP_RES_START + 7 * 3 + 0) 0 = Some s' /\
    rd s' REG_A = Some 0xF7.
Proof.
  destruct (res_set_spec (mkState [0xFF; 0; 1; 2; 3; 4; 5; 6] 0x1234) 3 0 REG_A 0xFF 0)
    as [(s' & E & _ & HA) _].
  - wf_concrete.
  - lia.
  - lia.
  - reflexivity.
  - reflexivity.
  - exists s'. split; [exact E | exact HA].
Defined.

(** ** Loads and exchanges *)

Lemma decode_reg l k x :
  l = LD_DST_H \/ l = LD_FULL_SRC_H \/ l = IMM_REG_H ->
  idx l k = Some x -> is_reg x /\ x <> REG_F.
Proof.
  intros Hl. apply (idx_Forall (fun x => is_reg x /\ x <> REG_F)).
  destruct Hl as [-> | [-> | ->]]; repeat constructor; done.
Qed.

Lemma rd_lookup s i v : rd s i = Some v -> r s !! Z.to_nat i = Some v.
Proof. unfold rd, idx. by destruct (0 <=? i). Qed.

Lemma wr_same s i v s' : is_u8 v -> rd s i = Some v -> wr s i v = Some s' -> s' = s.
Proof.
  intros Hv Hrd (_ & ->)%wr_inv. destruct s as [rs p]. cbn [r sp] in *. f_equal.
  apply list_insert_id. rewrite u8_small by done. by apply rd_lookup in Hrd.
Qed.

Lemma state_eq a b :
  wf a -> wf b -> (forall j, 0 <= j < 8 -> rd a j = rd b j) -> sp a = sp b -> a = b.
Proof.
  intros (La & _) (Lb & _) Hrd Hsp. destruct a as [ra pa], b as [rb pb].
  cbn [r sp] in *. f_equal; [|done].
  apply (list_eq_idx _ _ 8); [done..|]. intros v Hv. apply (Hrd v). lia.
Qed.

Lemma wp_is {A} (m : option A) x : wp m (fun y => y = x) -> m = Some x.
Proof. by intros (y & -> & ->). Qed.

Lemma exec_ld_rr T s op imm dst src v :
  wf s -> 0 <= op < 49 ->
  idx LD_DST_H (op ÷ 7) = Some dst -> idx LD_FULL_SRC_H op = Some src ->
  rd s src = Some v ->
  exists s',
    h_exec_instruction T s op imm = Some s' /\
    only_changes [dst] s s' /\ rd s' dst = Some v /\ (dst = src -> s' = s).
Proof.
  intros Hwf Hop Hdst Hsrc Hv. unfold h_exec_instruction.
  assert (classify op = Some B_LD_RR) as ->
    by (apply classify_Some; unfold_ops; lia).
  rewrite Hdst, Hsrc. cbn [mbind option_bind]. rewrite Hv. cbn [mbind option_bind].
  destruct (decode_reg _ _ _ (or_introl eq_refl) Hdst) as [Hd _]. unfold is_reg in Hd.
  pose proof (rd_is_u8 s src v Hwf Hv) as Hvb.
  as_wp. sx. sx_post.
  - by apply u8_small.
  - intros ->. by eapply wr_same.
Qed.

(** X13. LD r,r' (opcodes 0..48): the destination register, entry [op / 7] of
    the destination table, receives the value of the source register, entry
    [op] of the source table; neither is F, nothing else changes, and a load
    of a register from itself leaves the state as it is. *)
Theorem ld_rr_spec T s op imm :
  wf s -> 0 <= op < 49 ->
  exists dst src v s',
    idx LD_DST_H (op / 7) = Some dst /\ idx LD_FULL_SRC_H op = Some src /\
    dst <> REG_F /\ src <> REG_F /\
    rd s src = Some v /\
    h_exec_instruction T s op imm = Some s' /\
    only_changes [dst] s s' /\ rd s' dst = Some v /\
    (dst = src -> s' = s).
Proof.
  intros Hwf Hop.
  assert (op ÷ 7 = op / 7) as Hq by (apply Z.quot_div_nonneg; lia).
  destruct (idx_is_Some LD_DST_H (op / 7)) as [dst Hdst].
  { change (Z.of_nat (length LD_DST_H)) with 7. Z.to_euclidean_division_equations. lia. }
  destruct (idx_is_Some LD_FULL_SRC_H op) as [src Hsrc].
  { change (Z.of_nat (length LD_FULL_SRC_H)) with 49. lia. }
  destruct (decode_reg _ _ _ (or_introl eq_refl) Hdst) as [_ Hd].
  destruct (decode_reg _ _ _ (or_intror (or_introl eq_refl)) Hsrc) as [Hs Hsf].
  destruct (idx_is_Some (r s) src) as [v Hv].
  { destruct Hwf as (-> & _). unfold is_reg in Hs. lia. }
  rewrite <- Hq in Hdst.
  destruct (exec_ld_rr T s op imm dst src v Hwf Hop Hdst Hsrc Hv) as (s' & H1 & H2 & H3 & H4).
  rewrite Hq in Hdst. by exists dst, src, v, s'.
Qed.

Lemma ld_rr_spec_witness :
  exists dst src v s',
    idx LD_DST_H (9 / 7) = Some dst /\ idx LD_FULL_SRC_H 9 = Some src /\
    rd (mkState [1; 0; 2; 3; 4; 5; 6; 7] 0x1234) src = Some v /\
    h_exec_instruction tables (mkState [1; 0; 2; 3; 4; 5; 6; 7] 0x1234) 9 0 = Some s' /\
    rd s' dst = Some v.
Proof.
  destruct (ld_rr_spec tables (mkState [1; 0; 2; 3; 4; 5; 6; 7] 0x1234) 9 0)
    as (dst & src & v & s' & H1 & H2 & _ & _ & H3 & H4 & _ & H5 & _).
  - wf_concrete.
  - lia.
  - by exists dst, src, v, s'.
Defined.

Lemma ld_decode_check :
  forallb (fun a =>
    forallb (fun b =>
      implb (bool_decide (ld_decode (Z.of_nat a) = ld_decode (Z.of_nat b))) (a =? b)%nat)
      (seq 0 49)) (seq 0 49) = true.
Proof. vm_compute. reflexivity. Qed.

Lemma ld_decode_inj op op' :
  0 <= op < 49 -> 0 <= op' < 49 -> ld_decode op = ld_decode op' -> op = op'.
Proof.
  intros Hop Hop' Heq. pose proof ld_decode_check as Hc.
  rewrite forallb_forall in Hc. specialize (Hc (Z.to_nat op)).
  rewrite forallb_forall in Hc.
  specialize (Hc ltac:(apply in_seq; lia) (Z.to_nat op') ltac:(apply in_seq; lia)).
  rewrite !Z2Nat.id in Hc by lia.
  rewrite bool_decide_eq_true_2 in Hc by done. cbn [implb] in Hc.
  apply Nat.eqb_eq in Hc. lia.
Qed.

Ltac find_op n :=
  first
    [ exists (Z.of_nat n); split; [cbn; lia | split; reflexivity]
    | lazymatch n with
      | 48%nat => fail
      | _ => find_op (S n)
      end ].

Lemma ld_decode_surj dst src :
  dst ∈ LD_DST_H -> src ∈ LD_DST_H ->
  exists op, 0 <= op < 49 /\
    idx LD_DST_H (op ÷ 7) = Some dst /\ idx LD_FULL_SRC_H op = Some src.
Proof.
  unfold LD_DST_H. rewrite !elem_of_cons, !elem_of_nil.
  intros [-> | [-> | [-> | [-> | [-> | [-> | [-> | []]]]]]]]
         [-> | [-> | [-> | [-> | [-> | [-> | [-> | []]]]]]]]; find_op 0%nat.
Qed.

(** X14. Every move between two of the registers A, B, C, D, E, H, L has exactly
    one opcode among the opcodes 0..48: one opcode decodes to the pair, it
    is the only one, and it copies the source to the destination. *)
Theorem ld_rr_complete dst src :
  dst ∈ LD_DST_H -> src ∈ LD_DST_H ->
  exists op,
    0 <= op < 49 /\
    idx LD_DST_H (op / 7) = Some dst /\ idx LD_FULL_SRC_H op = Some src /\
    (forall op', 0 <= op' < 49 ->
       idx LD_DST_H (op' / 7) = Some dst -> idx LD_FULL_SRC_H op' = Some src ->
       op' = op) /\
    (forall T s imm v, wf s -> rd s src = Some v ->
       exists s',
         h_exec_instruction T s op imm = Some s' /\
         only_changes [dst] s s' /\ rd s' dst = Some v).
Proof.
  intros Hd Hs. destruct (ld_decode_surj dst src Hd Hs) as (op & Hop & H1 & H2).
  exists op. split; [done|].
  rewrite <- (Z.quot_div_nonneg op 7) by lia.
  split; [done|]. split; [done|]. split.
  - intros op' Hop' H1' H2'. rewrite <- (Z.quot_div_nonneg op' 7) in H1' by lia.
    apply ld_decode_inj; [done..|]. unfold ld_decode. congruence.
  - intros T s imm v Hwf Hv.
    destruct (exec_ld_rr T s op imm dst src v Hwf Hop H1 H2 Hv) as (s' & E1 & E2 & E3 & _).
    by exists s'.
Qed.

Lemma ld_rr_complete_witness :
  exists op,
    0 <= op < 49 /\
    idx LD_DST_H (op / 7) = Some REG_H /\ idx LD_FULL_SRC_H op = Some REG_A.
Proof.
  destruct (ld_rr_complete REG_H REG_A) as (op & H1 & H2 & H3 & _).
  - unfold LD_DST_H. rewrite !elem_of_cons. tauto.
  - unfold LD_DST_H. rewrite !elem_of_cons. tauto.
  - by exists op.
Defined.

(** X15. LD r,n (opcodes 49..55, register [dst] of entry [k]) stores the low
    byte of the immediate in [dst] and changes nothing else. *)
Theorem ld_rn_spec T s k dst imm :
  wf s -> 0 <= k < 7 -> idx IMM_REG_H k = Some dst ->
  exists s',
    h_exec_instruction T s (OP_LD_RN_START + k) imm = Some s' /\
    only_changes [dst] s s' /\
    rd s' dst = Some (imm mod 256).
Proof.
  intros Hwf Hk Hdst. unfold h_exec_instruction.
  assert (classify (OP_LD_RN_START + k) = Some B_LD_RN) as ->
    by (apply classify_Some; unfold_ops; lia).
  replace (OP_LD_RN_START + k - 49) with k by (unfold_ops; lia).
  rewrite Hdst. cbn [mbind option_bind].
  destruct (decode_reg _ _ _ (or_intror (or_intror eq_refl)) Hdst) as [Hd _].
  unfold is_reg in Hd.
  as_wp. sx. sx_post. unfold u8. by rewrite Z.mod_mod.
Qed.

Lemma ld_rn_spec_witness :
  exists s',
    h_exec_instruction tables (mkState [1; 0; 2; 3; 4; 5; 6; 7] 0x1234)
      (OP_LD_RN_START + 1) 0x1FF = Some s' /\
    rd s' REG_B = Some 0xFF.
Proof.
  destruct (ld_rn_spec tables (mkState [1; 0; 2; 3; 4; 5; 6; 7] 0x1234) 1 REG_B 0x1FF)
    as (s' & E & _ & H).
  - wf_concrete.
  - lia.
  - reflexivity.
  - exists s'. split; [exact E | exact H].
Defined.

(** X16. Outside LD rr,nn (opcodes 382..385) an instruction depends on its
    immediate through the low byte only. *)
Theorem imm_low_byte T s op imm :
  ~ (382 <= op <= 385) ->
  h_exec_instruction T s op imm = h_exec_instruction T s op (imm mod 256).
Proof.
  intros Hop. unfold h_exec_instruction.
  destruct (classify op) as [b|] eqn:E; [|reflexivity].
  assert (u8 (imm mod 256) = u8 imm) as Hu by (unfold u8; by rewrite Z.mod_mod).
  destruct b; try reflexivity.
  - by rewrite Hu.
  - by rewrite Hu.
  - exfalso. destruct (Z.le_gt_cases 0 op) as [H0|H0].
    + apply classify_Some in E; [|done]. unfold_ops. lia.
    + unfold classify in E. destruct (Z.ltb_spec op 49); [discriminate|lia].
Qed.

Lemma imm_low_byte_witness :
  h_exec_instruction tables (mkState [1; 0; 2; 3; 4; 5; 6; 7] 0x1234) 63 0x1234 =
  h_exec_instruction tables (mkState [1; 0; 2; 3; 4; 5; 6; 7] 0x1234) 63 (0x1234 mod 256).
Proof. apply imm_low_byte. lia. Defined.

(** X17. LD rr,nn (opcodes 382..385 for BC, DE, HL, SP) loads the 16-bit
    immediate into the pair: the pair reads back as the immediate, the
    registers outside the pair keep their values, and [sp] is kept unless
    the pair is SP. *)
Theorem ld_rr_nn_spec T s p imm :
  wf s -> 0 <= p < 4 -> is_u16 imm ->
  exists s',
    h_exec_instruction T s (OP_LD_RR_NN_START + p) imm = Some s' /\
    h_get_pair s' p = Some imm /\
    (forall j, j ∉ pair_regs p -> rd s' j = rd s j) /\
    (p <> 3 -> sp s' = sp s).
Proof.
  intros Hwf Hp Himm. unfold h_exec_instruction.
  assert (classify (OP_LD_RR_NN_START + p) = Some B_LD_RR_NN) as ->
    by (apply classify_Some; unfold_ops; lia).
  replace (OP_LD_RR_NN_START + p - OP_LD_RR_NN_START) with p by lia.
  by apply h_set_pair_effect.
Qed.

Lemma ld_rr_nn_spec_witness :
  exists s',
    h_exec_instruction tables (mkState [1; 0; 2; 3; 4; 5; 6; 7] 0x1234)
      (OP_LD_RR_NN_START + 1) 0xBEEF = Some s' /\
    h_get_pair s' 1 = Some 0xBEEF.
Proof.
  destruct (ld_rr_nn_spec tables (mkState [1; 0; 2; 3; 4; 5; 6; 7] 0x1234) 1 0xBEEF)
    as (s' & E & H & _).
  - wf_concrete.
  - lia.
  - unfold is_u16. lia.
  - exists s'. split; [exact E | exact H].
Defined.

(** X18. EX DE,HL (opcode 380) swaps D with H and E with L and changes nothing
    else; executed twice it gives the state back. *)
Theorem ex_de_hl_spec T s d e h l imm :
  wf s ->
  rd s REG_D = Some d -> rd s REG_E = Some e ->
  rd s REG_H = Some h -> rd s REG_L = Some l ->
  exists s',
    h_exec_instruction T s OP_EX_DE_HL imm = Some s' /\
    only_changes [REG_D; REG_E; REG_H; REG_L] s s' /\
    rd s' REG_D = Some h /\ rd s' REG_E = Some l /\
    rd s' REG_H = Some d /\ rd s' REG_L = Some e /\
    h_exec_instruction T s' OP_EX_DE_HL imm = Some s.
Proof.
  intros Hwf Hd He Hh Hl.
  pose proof (rd_is_u8 _ _ _ Hwf Hd). pose proof (rd_is_u8 _ _ _ Hwf He).
  pose proof (rd_is_u8 _ _ _ Hwf Hh). pose proof (rd_is_u8 _ _ _ Hwf Hl).
  as_wp. exec_unfold. sx.
  sx_post; try (by apply u8_small).
  apply wp_is. 
  exec_unfold. sx.
  apply state_eq; [done..| |by rd_simpl].
  intros j Hj.
  assert (j = REG_A \/ j = REG_F \/ j = REG_B \/ j = REG_C \/
          j = REG_D \/ j = REG_E \/ j = REG_H \/ j = REG_L)
    as [-> | [-> | [-> | [-> | [-> | [-> | [-> | ->]]]]]]] by reg_bound;
    rd_simpl; rewrite ?Hd, ?He, ?Hh, ?Hl;
    repeat (rewrite u8_small by (first [assumption | apply u8_range])); done.
Qed.

Lemma ex_de_hl_spec_witness :
  exists s',
    h_exec_instruction tables (mkState [1; 0; 2; 3; 4; 5; 6; 7] 0x1234) OP_EX_DE_HL 0
      = Some s' /\
    rd s' REG_D = Some 6 /\ rd s' REG_L = Some 5.
Proof.
  destruct (ex_de_hl_spec tables (mkState [1; 0; 2; 3; 4; 5; 6; 7] 0x1234) 4 5 6 7 0)
    as (s' & E & _ & HD & _ & _ & HL & _).
  - wf_concrete.
  - reflexivity.
  - reflexivity.
  - reflexivity.
  - reflexivity.
  - exists s'. split; [exact E | split; [exact HD | exact HL]].
Defined.

(** X19. LD SP,HL (opcode 381) copies the pair HL to [sp] and keeps every
    register. *)
Theorem ld_sp_hl_spec T s hl imm :
  wf s -> h_get_pair s 2 = Some hl ->
  exists s',
    h_exec_instruction T s OP_LD_SP_HL imm = Some s' /\
    r s' = r s /\ sp s' = hl /\ h_get_pair s' 3 = Some hl.
Proof.
  intros Hwf Hhl. cbn [h_get_pair] in Hhl. exec_unfold.
  destruct (rd s REG_H) as [h|]; [|discriminate].
  destruct (rd s REG_L) as [l|]; [|discriminate].
  cbn [mbind option_bind] in *. injection Hhl as <-.
  eexists. split; [reflexivity|]. cbn [h_get_pair wr_sp r sp]. done.
Qed.

Lemma ld_sp_hl_spec_witness :
  exists s',
    h_exec_instruction tables (mkState [1; 0; 2; 3; 4; 5; 6; 7] 0x1234) OP_LD_SP_HL 0
      = Some s' /\
    sp s' = 0x0607.
Proof.
  destruct (ld_sp_hl_spec tables (mkState [1; 0; 2; 3; 4; 5; 6; 7] 0x1234) 0x0607 0)
    as (s' & E & _ & H & _).
  - wf_concrete.
  - reflexivity.
  - exists s'. split; [exact E | exact H].
Defined.

(** ** State comparison *)

Lemma states_equal_unfold a f b c d e h l p a' f' b' c' d' e' h' l' p' m :
  h_states_equal (mkState [a; f; b; c; d; e; h; l] p)
                 (mkState [a'; f'; b'; c'; d'; e'; h'; l'] p') m =
  Some ((a =? a') && (f .& Z.lnot m =? f' .& Z.lnot m) && (b =? b') &&
        (c =? c') && (d =? d') && (e =? e') && (h =? h') && (l =? l') &&
        (p =? p')).
Proof. reflexivity. Qed.

Lemma states_equal_regs a f b c d e h l p a' f' b' c' d' e' h' l' p' m :
  h_states_equal (mkState [a; f; b; c; d; e; h; l] p)
                 (mkState [a'; f'; b'; c'; d'; e'; h'; l'] p') m = Some true <->
  a = a' /\ f .& Z.lnot m = f' .& Z.lnot m /\ b = b' /\ c = c' /\ d = d' /\
  e = e' /\ h = h' /\ l = l' /\ p = p'.
Proof.
  rewrite states_equal_unfold. split.
  - intros [= H]. rewrite !andb_true_iff, !Z.eqb_eq in H. tauto.
  - intros (-> & -> & -> & -> & -> & -> & -> & -> & ->). by rewrite !Z.eqb_refl.
Qed.

(** X20. [h_states_equal] with no dead flag is equality of states; with any mask
    of dead flags it is an equivalence relation on states, and it is
    monotone in the mask: states equal under a mask are equal under every
    mask with more dead flags. *)
Theorem h_states_equal_spec a b c m m' :
  wf a -> wf b -> wf c ->
  (h_states_equal a b 0 = Some true <-> a = b) /\
  h_states_equal a a m = Some true /\
  h_states_equal a b m = h_states_equal b a m /\
  (h_states_equal a b m = Some true -> h_states_equal b c m = Some true ->
   h_states_equal a c m = Some true) /\
  (h_states_equal a b m = Some true -> h_states_equal a b (m .| m') = Some true).
Proof.
  intros Ha Hb Hc.
  destruct (wf_regs a Ha) as (a0 & a1 & a2 & a3 & a4 & a5 & a6 & a7 & Ea & _).
  destruct (wf_regs b Hb) as (b0 & b1 & b2 & b3 & b4 & b5 & b6 & b7 & Eb & _).
  destruct (wf_regs c Hc) as (c0 & c1 & c2 & c3 & c4 & c5 & c6 & c7 & Ec & _).
  destruct a as [ra pa], b as [rb pb], c as [rc pc]. cbn [r] in *. subst.
  repeat split.
  - intros H. apply states_equal_regs in H. rewrite !Z.land_m1_r in H.
    f_equal; [|tauto]. repeat f_equal; tauto.
  - intros [= -> -> -> -> -> -> -> -> ->]. by apply states_equal_regs.
  - by apply states_equal_regs.
  - rewrite !states_equal_unfold. f_equal. rewrite !(Z.eqb_sym a0), !(Z.eqb_sym a2), !(Z.eqb_sym a3),
      !(Z.eqb_sym a4), !(Z.eqb_sym a5), !(Z.eqb_sym a6), !(Z.eqb_sym a7),
      !(Z.eqb_sym pa), (Z.eqb_sym (a1 .& _)). reflexivity.
  - rewrite !states_equal_regs. intros H1 H2.
    repeat split; etrans; (apply H1 || apply H2).
  - rewrite !states_equal_regs. intros H1. repeat split; try tauto.
    rewrite Z.lnot_lor, !Z.land_assoc. f_equal. tauto.
Qed.

Lemma h_states_equal_spec_witness :
  h_states_equal (mkState [1; 0xFF; 2; 3; 4; 5; 6; 7] 0x1234)
                 (mkState [1; 0xFF; 2; 3; 4; 5; 6; 7] 0x1234) 0x28 = Some true.
Proof.
  destruct (h_states_equal_spec (mkState [1; 0xFF; 2; 3; 4; 5; 6; 7] 0x1234)
              (mkState [1; 0xFF; 2; 3; 4; 5; 6; 7] 0x1234)
              (mkState [1; 0xFF; 2; 3; 4; 5; 6; 7] 0x1234) 0x28 0) as (_ & H & _).
  - wf_concrete.
  - wf_concrete.
  - wf_concrete.
  - exact H.
Defined.

(** ** Sequences *)

Lemma for_loop_app {St : Type} (body : Z -> St -> option St) n m :
  forall i st,
    for_loop (n + m) i body st =
      st' ← for_loop n i body st; for_loop m (i + Z.of_nat n) body st'.
Proof.
  induction n as [|n IH]; intros i st.
  - cbn. by rewrite Z.add_0_r.
  - cbn [Nat.add for_loop]. destruct (body i st) as [st1|]; [|reflexivity].
    cbn [mbind option_bind]. rewrite IH. by replace (i + 1 + Z.of_nat n) with (i + Z.of_nat (S n)) by lia.
Qed.

Lemma for_loop_shift {St : Type} (body : Z -> St -> option St) n k :
  forall i st,
    for_loop n (i + k) body st = for_loop n i (fun j => body (j + k)) st.
Proof.
  induction n as [|n IH]; intros i st; [reflexivity|].
  cbn [for_loop]. destruct (body (i + k) st) as [st1|]; [|reflexivity].
  cbn [mbind option_bind]. rewrite <- IH. f_equal. lia.
Qed.

Lemma idx_drop {A} (l : list A) (k : nat) j :
  0 <= j -> idx (drop k l) j = idx l (j + Z.of_nat k).
Proof.
  intros Hj. unfold idx.
  destruct (Z.leb_spec 0 j); [|lia]. destruct (Z.leb_spec 0 (j + Z.of_nat k)); [|lia].
  rewrite lookup_drop. f_equal. lia.
Qed.

Lemma h_exec_seq_nonpos T s ops imms n : n <= 0 -> h_exec_seq T s ops imms n = Some s.
Proof.
  intros Hn. unfold h_exec_seq. by replace (Z.to_nat n) with 0%nat by lia.
Qed.

Lemma h_exec_seq_add T s ops imms n m :
  0 <= n -> 0 <= m ->
  h_exec_seq T s ops imms (n + m) =
    s1 ← h_exec_seq T s ops imms n;
    h_exec_seq T s1 (drop (Z.to_nat n) ops) (drop (Z.to_nat n) imms) m.
Proof.
  intros Hn Hm. unfold h_exec_seq.
  rewrite Z2Nat.inj_add by lia. rewrite for_loop_app.
  destruct (for_loop (Z.to_nat n) 0 _ s) as [s1|]; [|reflexivity].
  cbn [mbind option_bind].
  rewrite (for_loop_shift _ (Z.to_nat m) (Z.of_nat (Z.to_nat n)) 0).
  apply for_loop_ext. intros j st0 Hj. by rewrite !idx_drop by lia.
Qed.

(** X21. Sequences compose: running [n + m] instructions is running the first
    [n] and then the [m] instructions that start at offset [n], and a
    sequence of no instruction leaves the state as it is. *)
Theorem h_exec_seq_compose T s ops imms n m :
  0 <= n -> 0 <= m ->
  h_exec_seq T s ops imms 0 = Some s /\
  h_exec_seq T s ops imms (n + m) =
    s1 ← h_exec_seq T s ops imms n;
    h_exec_seq T s1 (drop (Z.to_nat n) ops) (drop (Z.to_nat n) imms) m.
Proof.
  intros Hn Hm. split; [by apply h_exec_seq_nonpos | by apply h_exec_seq_add].
Qed.

Lemma h_exec_seq_compose_witness :
  h_exec_seq tables (mkState [1; 0; 2; 3; 4; 5; 6; 7] 0x1234)
    [120; 127; 134] [0; 0; 0] (1 + 2) =
  s1 ← h_exec_seq tables (mkState [1; 0; 2; 3; 4; 5; 6; 7] 0x1234)
         [120; 127; 134] [0; 0; 0] 1;
  h_exec_seq tables s1 (drop (Z.to_nat 1) [120; 127; 134])
    (drop (Z.to_nat 1) [0; 0; 0]) 2.
Proof.
  apply (h_exec_seq_compose tables (mkState [1; 0; 2; 3; 4; 5; 6; 7] 0x1234)
           [120; 127; 134] [0; 0; 0] 1 2); lia.
Defined.

Lemma h_exec_seq_nops T s ops imms n :
  (forall i, 0 <= i < n -> idx ops i = Some OP_NOP /\ is_Some (idx imms i)) ->
  h_exec_seq T s ops imms n = Some s.
Proof.
  unfold h_exec_seq. intros Hnop.
  destruct (for_loop_inv (fun _ st => st = s)
              (fun i s => op ← idx ops i; imm ← idx imms i; h_exec_instruction T s op imm)
              (Z.to_nat n) 0 s eq_refl) as (s' & -> & ->); [|done].
  intros j st0 Hj ->. destruct (Hnop j) as [-> [imm ->]]; [lia|].
  exists s. split; [|done]. cbn [mbind option_bind]. apply h_exec_instruction_nop.
Qed.

(** X22. Padding with NOP: if the instructions [n .. n + k - 1] of a sequence
    are NOP, running [n + k] instructions gives what running [n] gives. *)
Theorem h_exec_seq_nop_padding T s ops imms n k :
  0 <= n -> 0 <= k ->
  (forall i, n <= i < n + k -> idx ops i = Some OP_NOP /\ is_Some (idx imms i)) ->
  h_exec_seq T s ops imms (n + k) = h_exec_seq T s ops imms n.
Proof.
  intros Hn Hk Hnop. rewrite h_exec_seq_add by done.
  destruct (h_exec_seq T s ops imms n) as [s1|]; [|reflexivity].
  cbn [mbind option_bind]. apply h_exec_seq_nops.
  intros i Hi. rewrite !idx_drop by lia. apply Hnop. lia.
Qed.

Lemma h_exec_seq_nop_padding_witness :
  h_exec_seq tables (mkState [1; 0; 2; 3; 4; 5; 6; 7] 0x1234)
    [120; 143; 143] [0; 0; 0] (1 + 2) =
  h_exec_seq tables (mkState [1; 0; 2; 3; 4; 5; 6; 7] 0x1234)
    [120; 143; 143] [0; 0; 0] 1.
Proof.
  apply h_exec_seq_nop_padding; [lia | lia |].
  intros i Hi. assert (i = 1 \/ i = 2) as [-> | ->] by lia; (split; [reflexivity | by eexists]).
Defined.

(** ** Fingerprints *)

Lemma reg_image_inj s s' : wf s -> wf s' -> reg_image s = reg_image s' -> s = s'.
Proof.
  intros (L & _ & Hp) (L' & _ & Hp') Heq. unfold reg_image in Heq.
  apply app_inj_1 in Heq as [Hr Hs]; [|congruence].
  destruct s as [rs p], s' as [rs' p']. cbn [r sp] in *. f_equal; [done|].
  injection Hs as H1 H2. unfold u8, is_u16 in *.
  rewrite !Z.shiftr_div_pow2 in H1 by lia. change (2 ^ 8) with 256 in H1.
  Z.to_euclidean_division_equations. lia.
Qed.

(** X23. The fingerprint is faithful: two sequences have the same fingerprint
    exactly when, from each of the 8 test vectors, they end in the same
    state, [sp] included. *)
Theorem h_fingerprint_faithful T ops imms n ops' imms' n' fp fp' :
  tables_sized T -> is_sequence ops imms n -> is_sequence ops' imms' n' ->
  length fp = 80%nat -> length fp' = 80%nat ->
  h_fingerprint T ops imms n fp = h_fingerprint T ops' imms' n' fp' <->
  forall s0, s0 ∈ h_test_vectors ->
    h_exec_seq T s0 ops imms n = h_exec_seq T s0 ops' imms' n'.
Proof.
  intros HT Hseq Hseq' Hlen Hlen'.
  destruct (h_fingerprint_inv T ops imms n fp HT Hseq Hlen) as (d & -> & Hd).
  destruct (h_fingerprint_inv T ops' imms' n' fp' HT Hseq' Hlen') as (d' & -> & Hd').
  split.
  - intros [= <-] s0 Hin.
    apply list_elem_of_lookup in Hin as [k Hk].
    assert (k < 8)%nat as Hk8 by (apply lookup_lt_Some in Hk; exact Hk).
    assert (idx h_test_vectors (Z.of_nat k) = Some s0) as E0.
    { unfold idx. destruct (Z.leb_spec 0 (Z.of_nat k)); [|lia]. by rewrite Nat2Z.id. }
    destruct Hd as [L H], Hd' as [L' H'].
    destruct (H (Z.of_nat k)) as (s1 & s & E1 & E2 & Hwf & Hseg); [lia|].
    destruct (H' (Z.of_nat k)) as (s1' & s' & E1' & E2' & Hwf' & Hseg'); [lia|].
    rewrite E0 in E1, E1'. injection E1 as <-. injection E1' as <-.
    rewrite E2, E2'. f_equal. apply reg_image_inj; [done..|].
    apply (list_eq_idx _ _ 10).
    + unfold reg_image. rewrite length_app. destruct Hwf as (-> & _). done.
    + unfold reg_image. rewrite length_app. destruct Hwf' as (-> & _). done.
    + intros j Hj. rewrite <- Hseg, <- Hseg' by lia. done.
  - intros Hall. f_equal. destruct Hd as [L H], Hd' as [L' H'].
    apply (list_eq_idx _ _ 80); [done..|]. intros i Hi.
    assert (i = (i / 10) * FP_SIZE + i mod 10) as Hsplit
      by (unfold FP_SIZE; Z.to_euclidean_division_equations; lia).
    assert (0 <= i / 10 < 8) as Hv by (Z.to_euclidean_division_equations; lia).
    assert (0 <= i mod 10 < 10) as Hj by (apply Z.mod_pos_bound; lia).
    destruct (H (i / 10) Hv) as (s0 & s & E0 & E1 & _ & E2).
    destruct (H' (i / 10) Hv) as (s0' & s' & E0' & E1' & _ & E2').
    rewrite E0 in E0'. injection E0' as <-.
    assert (s0 ∈ h_test_vectors) as Hin.
    { apply list_elem_of_lookup. exists (Z.to_nat (i / 10)).
      unfold idx in E0. by destruct (0 <=? i / 10). }
    rewrite (Hall s0 Hin), E1' in E1. injection E1 as <-.
    rewrite Hsplit, E2, E2' by done. done.
Qed.

Lemma h_fingerprint_faithful_witness :
  h_fingerprint tables [143] [0] 1 (replicate 80 0) =
  h_fingerprint tables [6] [0] 1 (replicate 80 1).
Proof.
  apply (h_fingerprint_faithful tables [143] [0] 1 [6] [0] 1
           (replicate 80 0) (replicate 80 1)).
  - apply tables_sized_tables.
  - split; [repeat constructor; unfold is_u16; lia | cbn; lia].
  - split; [repeat constructor; unfold is_u16; lia | cbn; lia].
  - reflexivity.
  - reflexivity.
  - intros s0 Hin. unfold h_test_vectors in Hin.
    rewrite !elem_of_cons, elem_of_nil in Hin.
    destruct Hin as [-> | [-> | [-> | [-> | [-> | [-> | [-> | [-> | []]]]]]]]];
      reflexivity.
Defined.

(** X24. A sequence is memory safe: on a well-formed state, with [n] opcodes and
    immediates within the two arrays, [h_exec_seq] makes no access out of
    bounds, whatever the 16-bit opcodes are, and ends in a well-formed
    state. *)
Theorem h_exec_seq_safe T s ops imms n :
  tables_sized T -> wf s -> is_sequence ops imms n ->
  exists s', h_exec_seq T s ops imms n = Some s' /\ wf s'.
Proof. intros HT Hwf Hseq. by apply h_exec_seq_total. Qed.

Lemma h_exec_seq_safe_witness :
  exists s',
    h_exec_seq tables (mkState [1; 0; 2; 3; 4; 5; 6; 7] 0x1234)
      [120; 65535; 393] [0; 0; 0] 3 = Some s' /\ wf s'.
Proof.
  apply h_exec_seq_safe.
  - apply tables_sized_tables.
  - wf_concrete.
  - split; [repeat constructor; unfold is_u16; lia | cbn; lia].
Defined.

(** ** 16-bit arithmetic *)

Lemma exec_add_hl T s p imm :
  0 <= p < 4 ->
  h_exec_instruction T s (OP_ADD_HL_START + p) imm =
    v ← h_get_pair s p; h_exec_add_hl s v.
Proof.
  intros Hp. unfold h_exec_instruction.
  assert (classify (OP_ADD_HL_START + p) = Some B_ADD_HL) as ->
    by (apply classify_Some; unfold_ops; lia).
  by replace (OP_ADD_HL_START + p - OP_ADD_HL_START) with p by lia.
Qed.

Lemma exec_adc_hl T s p imm :
  0 <= p < 4 ->
  h_exec_instruction T s (OP_ADC_HL_START + p) imm =
    v ← h_get_pair s p; h_exec_adc_hl s v.
Proof.
  intros Hp. unfold h_exec_instruction.
  assert (classify (OP_ADC_HL_START + p) = Some B_ADC_HL) as ->
    by (apply classify_Some; unfold_ops; lia).
  by replace (OP_ADC_HL_START + p - OP_ADC_HL_START) with p by lia.
Qed.

Lemma exec_sbc_hl T s p imm :
  0 <= p < 4 ->
  h_exec_instruction T s (OP_SBC_HL_START + p) imm =
    v ← h_get_pair s p; h_exec_sbc_hl s v.
Proof.
  intros Hp. unfold h_exec_instruction.
  assert (classify (OP_SBC_HL_START + p) = Some B_SBC_HL) as ->
    by (apply classify_Some; unfold_ops; lia).
  by replace (OP_SBC_HL_START + p - OP_SBC_HL_START) with p by lia.
Qed.

Lemma get_pair_u16 s p v : wf s -> 0 <= p < 4 -> h_get_pair s p = Some v -> is_u16 v.
Proof.
  intros Hwf Hp Hv. destruct (h_get_pair_total s p Hwf Hp) as (v' & E & Hv').
  congruence.
Qed.

Lemma get_hl s hl :
  wf s -> h_get_pair s 2 = Some hl ->
  exists h l, rd s REG_H = Some h /\ rd s REG_L = Some l /\
    u16 ((h << 8) .| l) = hl /\ is_u16 hl.
Proof.
  intros Hwf Hhl. cbn [h_get_pair] in Hhl.
  destruct (rd s REG_H) as [h|] eqn:Eh; [|discriminate].
  destruct (rd s REG_L) as [l|] eqn:El; [|discriminate].
  cbn [mbind option_bind] in Hhl. injection Hhl as <-.
  exists h, l. repeat split; try done; apply u16_range.
Qed.

(** The bytes of a 32-bit value that the stores to H and L keep. *)
Lemma hi_byte t : u8 (u32 t >> 8) = t mod 65536 / 256.
Proof.
  rewrite Z.shiftr_div_pow2 by lia. unfold u8, u32. change (2 ^ 8) with 256.
  Z.to_euclidean_division_equations. lia.
Qed.

Lemma lo_byte t : u8 (u32 t) = t mod 65536 mod 256.
Proof. unfold u8, u32. Z.to_euclidean_division_equations. lia. Qed.

Lemma pair_of_bytes t :
  u16 ((u8 (u32 t >> 8) << 8) .| u8 (u32 t)) = t mod 65536.
Proof.
  assert (is_u16 (t mod 65536)) as Ht by apply u16_range.
  etrans; [|apply (pair_join _ Ht)].
  rewrite hi_byte, lo_byte. unfold is_u16 in Ht. do 2 f_equal.
  - f_equal. rewrite Z.shiftr_div_pow2 by lia. unfold u8. change (2 ^ 8) with 256.
    Z.to_euclidean_division_equations. lia.
Qed.

(** X25. ADD HL,rr (opcodes 376..379 for BC, DE, HL, SP): HL becomes the sum
    modulo 65536; carry is the carry out of bit 15 and half-carry the carry
    out of bit 11; negate is clear, bits 5 and 3 are those of the high byte
    of the result; sign, zero and parity are kept. Only H, L and F
    change. *)
Theorem add_hl_spec T s p hl v f imm :
  wf s -> 0 <= p < 4 ->
  h_get_pair s 2 = Some hl -> h_get_pair s p = Some v -> rd s REG_F = Some f ->
  exists s',
    h_exec_instruction T s (OP_ADD_HL_START + p) imm = Some s' /\
    only_changes [REG_F; REG_H; REG_L] s s' /\
    h_get_pair s' 2 = Some ((hl + v) mod 65536) /\
    rd s' REG_F =
      Some ((f .& (FLAG_S .| FLAG_Z .| FLAG_P)) .|
            fl (0xFFF <? hl mod 4096 + v mod 4096) FLAG_H .|
            fl (0xFFFF <? hl + v) FLAG_C .|
            ((((hl + v) mod 65536) / 256) .& (FLAG_3 .| FLAG_5))).
Proof.
  intros Hwf Hp Hhl Hv Hf.
  pose proof (get_pair_u16 s p v Hwf Hp Hv) as Hvb.
  destruct (get_hl s hl Hwf Hhl) as (h & l & Eh & El & Ehl & Hhlb).
  pose proof (rd_is_u8 _ _ _ Hwf Hf) as Hfb.
  rewrite exec_add_hl by done. rewrite Hv. cbn [mbind option_bind].
  as_wp. unfold h_exec_add_hl. sx. rewrite Ehl in *. clear Hhl Hv.
  unfold is_u16 in *.
  split; [sx_frame|]. split.
  - cbn [h_get_pair]. rd_simpl. cbn [mbind option_bind]. f_equal. apply pair_of_bytes.
  - sx_post. rewrite hi_byte. rewrite !bsel_fl by done.
    change 4096 with (2 ^ 12) at 1. change 65536 with (2 ^ 16) at 1.
    rewrite nz_bit_u32, nz_bit by lia.
    change 4095 with (Z.ones 12) at 1 2. rewrite !Z.land_ones by lia.
    change (2 ^ 12) with 4096. change (2 ^ 16) with 65536.
    rewrite u16_small by (unfold is_u16; Z.to_euclidean_division_equations; lia).
    rewrite !odd_01 by (Z.to_euclidean_division_equations; lia).
    rewrite u8_small.
    + repeat f_equal.
      * destruct (Z.ltb_spec 4095 (hl mod 4096 + v mod 4096));
          destruct (Z.eqb_spec ((hl mod 4096 + v mod 4096) / 4096) 0); try done;
          exfalso; Z.to_euclidean_division_equations; lia.
      * destruct (Z.ltb_spec 65535 (hl + v));
          destruct (Z.eqb_spec ((hl + v) / 65536) 0); try done;
          exfalso; Z.to_euclidean_division_equations; lia.
    + repeat apply lor_u8; try apply fl_u8; try apply land_u8_r; done.
Qed.

Lemma add_hl_spec_witness :
  exists s',
    h_exec_instruction tables (mkState [1; 0; 0x12; 0x34; 4; 5; 0xF0; 0x01] 0x1234)
      (OP_ADD_HL_START + 0) 0 = Some s' /\
    h_get_pair s' 2 = Some 0x0235.
Proof.
  destruct (add_hl_spec tables (mkState [1; 0; 0x12; 0x34; 4; 5; 0xF0; 0x01] 0x1234)
              0 0xF001 0x1234 0 0) as (s' & E & _ & H & _).
  - wf_concrete.
  - lia.
  - reflexivity.
  - reflexivity.
  - reflexivity.
  - exists s'. split; [exact E | exact H].
Defined.

(** The lookup index of the 16-bit operations is the one of the 8-bit
    operations on the high bytes. *)
Lemma lookup16 x y t :
  u8 (((x .& 0x8800) >> 11) .| ((y .& 0x8800) >> 10) .| ((u32 t .& 0x8800) >> 9)) =
  (((x / 256) .& 0x88) >> 3) .| (((y / 256) .& 0x88) >> 2) .|
  (((t mod 65536 / 256) .& 0x88) >> 1).
Proof.
  assert (forall z, (z .& 0x8800) >> 11 = ((z >> 8) .& 0x88) >> 3) as ->
    by (intros z; apply (land_shift_split z 0x88 8 3); lia).
  assert (forall z, (z .& 0x8800) >> 10 = ((z >> 8) .& 0x88) >> 2) as ->
    by (intros z; apply (land_shift_split z 0x88 8 2); lia).
  assert (forall z, (z .& 0x8800) >> 9 = ((z >> 8) .& 0x88) >> 1) as ->
    by (intros z; apply (land_shift_split z 0x88 8 1); lia).
  rewrite <- (land_mod_mask (u32 t >> 8) 0x88 8) by lia.
  change ((u32 t >> 8) mod 2 ^ 8) with (u8 (u32 t >> 8)). rewrite hi_byte.
  rewrite !(Z.shiftr_div_pow2 _ 8) by lia. change (2 ^ 8) with 256.
  apply u8_small. repeat apply lor_u8; apply mask_shr_u8; lia.
Qed.

Lemma signed16_split x :
  is_u16 x -> signed16 x = 256 * signed8 (x / 256) + x mod 256.
Proof.
  unfold is_u16, signed16, signed8. intros Hx.
  destruct (Z.ltb_spec x 32768), (Z.ltb_spec (x / 256) 128);
    Z.to_euclidean_division_equations; lia.
Qed.

Lemma overflows_iff x y :
  (-128 <= x <= 127 <-> -32768 <= y <= 32767) -> overflows x = overflows16 y.
Proof.
  intros H. unfold overflows, overflows16. f_equal.
  destruct (Z.leb_spec (-128) x), (Z.leb_spec x 127),
    (Z.leb_spec (-32768) y), (Z.leb_spec y 32767); cbn; try done; lia.
Qed.


(** The 16-bit sum seen from the high bytes, [cl] being the carry out of
    the low bytes. *)
Lemma adc16_arith hl v c :
  is_u16 hl -> is_u16 v -> c = 0 \/ c = 1 ->
  exists cl,
    (cl = 0 \/ cl = 1) /\
    (hl + v + c) mod 65536 / 256 = (hl / 256 + v / 256 + cl) mod 256 /\
    overflows (signed8 (hl / 256) + signed8 (v / 256) + cl) =
      overflows16 (signed16 hl + signed16 v + c) /\
    (15 <? (hl / 256) mod 16 + (v / 256) mod 16 + cl) =
      (0xFFF <? hl mod 4096 + v mod 4096 + c).
Proof.
  intros Hhl Hv Hc. exists ((hl mod 256 + v mod 256 + c) / 256).
  rewrite !signed16_split by done.
  generalize (signed8 (hl / 256)) (signed8 (v / 256)). intros sh sv.
  unfold is_u16 in *.
  split; [Z.to_euclidean_division_equations; lia|].
  split; [Z.to_euclidean_division_equations; lia|].
  split.
  - apply overflows_iff. Z.to_euclidean_division_equations. lia.
  - apply ltb_iff. Z.to_euclidean_division_equations. lia.
Qed.

(** The 16-bit difference seen from the high bytes, [bl] being the borrow
    of the low bytes. *)
Lemma sbc16_arith hl v c :
  is_u16 hl -> is_u16 v -> c = 0 \/ c = 1 ->
  exists bl,
    (bl = 0 \/ bl = 1) /\
    (hl - v - c) mod 65536 / 256 = (hl / 256 - v / 256 - bl) mod 256 /\
    overflows (signed8 (hl / 256) - signed8 (v / 256) - bl) =
      overflows16 (signed16 hl - signed16 v - c) /\
    ((hl / 256) mod 16 <? (v / 256) mod 16 + bl) =
      (hl mod 4096 <? v mod 4096 + c).
Proof.
  intros Hhl Hv Hc. exists (- ((hl mod 256 - v mod 256 - c) / 256)).
  rewrite !signed16_split by done.
  generalize (signed8 (hl / 256)) (signed8 (v / 256)). intros sh sv.
  unfold is_u16 in *.
  split; [Z.to_euclidean_division_equations; lia|].
  split; [Z.to_euclidean_division_equations; lia|].
  split.
  - apply overflows_iff. Z.to_euclidean_division_equations. lia.
  - apply ltb_iff. Z.to_euclidean_division_equations. lia.
Qed.

Lemma zero16 t : (t mod 65536 / 256 .| t mod 65536 mod 256 =? 0) = (t mod 65536 =? 0).
Proof.
  destruct (Z.eqb_spec (t mod 65536) 0) as [E|E].
  - rewrite E. reflexivity.
  - apply Z.eqb_neq. rewrite Z.lor_eq_0_iff. Z.to_euclidean_division_equations. lia.
Qed.

(** X26. ADC HL,rr (opcodes 386..389) and SBC HL,rr (opcodes 390..393), for BC,
    DE, HL, SP: HL becomes the sum with carry, or the difference with
    borrow, modulo 65536; carry is the carry or borrow of bit 15, half-carry
    that of bit 11, overflow the signed 16-bit overflow; sign and the bits 5
    and 3 are those of the high byte of the result, zero is set iff the
    16-bit result is 0, negate is clear for ADC and set for SBC. Only H, L
    and F change. *)
Theorem adc_sbc_hl_spec s p hl v f imm :
  wf s -> 0 <= p < 4 ->
  h_get_pair s 2 = Some hl -> h_get_pair s p = Some v -> rd s REG_F = Some f ->
  (exists s',
     h_exec_instruction tables s (OP_ADC_HL_START + p) imm = Some s' /\
     only_changes [REG_H; REG_L; REG_F] s s' /\
     h_get_pair s' 2 = Some ((hl + v + f .& FLAG_C) mod 65536) /\
     rd s' REG_F =
       Some (fl (0xFFFF <? hl + v + f .& FLAG_C) FLAG_C .|
             fl (overflows16 (signed16 hl + signed16 v + f .& FLAG_C)) FLAG_V .|
             ((((hl + v + f .& FLAG_C) mod 65536) / 256) .&
                (FLAG_3 .| FLAG_5 .| FLAG_S)) .|
             fl (0xFFF <? hl mod 4096 + v mod 4096 + f .& FLAG_C) FLAG_H .|
             fl ((hl + v + f .& FLAG_C) mod 65536 =? 0) FLAG_Z)) /\
  (exists s',
     h_exec_instruction tables s (OP_SBC_HL_START + p) imm = Some s' /\
     only_changes [REG_H; REG_L; REG_F] s s' /\
     h_get_pair s' 2 = Some ((hl - v - f .& FLAG_C) mod 65536) /\
     rd s' REG_F =
       Some (fl (hl <? v + f .& FLAG_C) FLAG_C .| FLAG_N .|
             fl (overflows16 (signed16 hl - signed16 v - f .& FLAG_C)) FLAG_V .|
             ((((hl - v - f .& FLAG_C) mod 65536) / 256) .&
                (FLAG_3 .| FLAG_5 .| FLAG_S)) .|
             fl (hl mod 4096 <? v mod 4096 + f .& FLAG_C) FLAG_H .|
             fl ((hl - v - f .& FLAG_C) mod 65536 =? 0) FLAG_Z)).
Proof.
  intros Hwf Hp Hhl Hv Hf.
  pose proof (get_pair_u16 s p v Hwf Hp Hv) as Hvb.
  destruct (get_hl s hl Hwf Hhl) as (h & l & Eh & El & Ehl & Hhlb).
  pose proof (rd_is_u8 _ _ _ Hwf Hf) as Hfb.
  rewrite exec_adc_hl, exec_sbc_hl by done. rewrite Hv. cbn [mbind option_bind].
  clear Hhl Hv.
  pose proof (carry_bit_cases f) as Hc.
  assert (is_u8 (hl / 256) /\ is_u8 (v / 256)) as [Hhh Hvh]
    by (unfold is_u8, is_u16 in *; split; Z.to_euclidean_division_equations; lia).
  split.
  - as_wp. unfold h_exec_adc_hl. sx. rewrite Ehl in *.
    set (c := f .& FLAG_C) in *. clearbody c.
    assert (u32 c = c) as Ec by (destruct Hc as [-> | ->]; reflexivity).
    rewrite Ec in *.
    split; [sx_frame|]. split.
    + cbn [h_get_pair]. rd_simpl. cbn [mbind option_bind]. f_equal. apply pair_of_bytes.
    + sx_post. rewrite lookup16, !hi_byte, lo_byte.
      destruct (adc16_arith hl v c Hhlb Hvb Hc) as (cl & Hcl & Erh & EV & EH).
      rewrite Erh.
      destruct (adc_lookup_check cl (hl / 256) (v / 256) Hcl Hhh Hvh) as [E1 E2].
      rewrite E1, E2, EV, EH. rewrite <- Erh.
      rewrite bsel_fl, bsel_fl_neg, negb_involutive, zero16 by done.
      change 65536 with (2 ^ 16) at 1. rewrite nz_bit_u32 by lia.
      change (2 ^ 16) with 65536.
      rewrite odd_01 by (unfold is_u16 in *; Z.to_euclidean_division_equations; lia).
      assert (negb ((hl + v + c) / 65536 =? 0) = (65535 <? hl + v + c)) as ->.
      { unfold is_u16 in *.
        destruct (Z.ltb_spec 65535 (hl + v + c));
          destruct (Z.eqb_spec ((hl + v + c) / 65536) 0); try done;
          exfalso; Z.to_euclidean_division_equations; lia. }
      apply u8_small.
      repeat apply lor_u8; try apply fl_u8; try apply land_u8_r; done.
  - as_wp. unfold h_exec_sbc_hl. sx. rewrite Ehl in *.
    set (c := f .& FLAG_C) in *. clearbody c.
    assert (u32 c = c) as Ec by (destruct Hc as [-> | ->]; reflexivity).
    rewrite Ec in *.
    split; [sx_frame|]. split.
    + cbn [h_get_pair]. rd_simpl. cbn [mbind option_bind]. f_equal. apply pair_of_bytes.
    + sx_post. rewrite lookup16, !hi_byte, lo_byte.
      destruct (sbc16_arith hl v c Hhlb Hvb Hc) as (bl & Hbl & Erh & EV & EH).
      rewrite Erh.
      destruct (sbc_lookup_check bl (hl / 256) (v / 256) Hbl Hhh Hvh) as [E1 E2].
      rewrite E1, E2, EV, EH. rewrite <- Erh.
      rewrite bsel_fl, bsel_fl_neg, negb_involutive, zero16 by done.
      change 65536 with (2 ^ 16) at 1. rewrite nz_bit_u32 by lia.
      change (2 ^ 16) with 65536.
      rewrite odd_01 by (unfold is_u16 in *; Z.to_euclidean_division_equations; lia).
      assert (negb ((hl - v - c) / 65536 =? 0) = (hl <? v + c)) as ->.
      { unfold is_u16 in *.
        destruct (Z.ltb_spec hl (v + c));
          destruct (Z.eqb_spec ((hl - v - c) / 65536) 0); try done;
          exfalso; Z.to_euclidean_division_equations; lia. }
      apply u8_small.
      repeat apply lor_u8; try apply fl_u8; try apply land_u8_r; done.
Qed.

Lemma adc_sbc_hl_spec_witness :
  exists s',
    h_exec_instruction tables (mkState [1; 1; 0x12; 0x34; 4; 5; 0x12; 0x34] 0x1234)
      (OP_SBC_HL_START + 0) 0 = Some s' /\
    h_get_pair s' 2 = Some 0xFFFF.
Proof.
  destruct (adc_sbc_hl_spec (mkState [1; 1; 0x12; 0x34; 4; 5; 0x12; 0x34] 0x1234)
              0 0x1234 0x1234 1 0) as [_ (s' & E & _ & H & _)].
  - wf_concrete.
  - lia.
  - reflexivity.
  - reflexivity.
  - reflexivity.
  - exists s'. split; [exact E | exact H].
Defined.
